(** * Skin-tone classifier of mediteasy: a shallow embedding

    This development embeds [mediteasy/app/analysis/skin_tone.py] and
    proves properties of [analyze_face_color].

    Conventions of the embedding.
    - Python floats that only go through multiplication by an integer and
      [int()] (the landmark coordinates) are rationals [Q]; [int()] is
      truncation toward zero.
    - Python/NumPy floats that go through the colour pipeline (division by
      255, the Lab transform, the Euclidean norm, the weights) are real
      numbers [R]: the arithmetic is the exact one, rounding is not
      modelled.
    - The three library calls whose code is not part of the repository
      ([skimage.color.rgb2lab], [cv2.cvtColor], [FaceMesh.process]) are
      variables of a section: the theorems quantify over them, and the
      concrete scenarios instantiate them.
    - A Python exception is the [Raised] case of [outcome]. *)

From Stdlib Require Import Reals Lra QArith ZArith Lia.
From stdpp Require Import gmap strings list.

(** ** Python exceptions and the error monad *)

Inductive exn : Type :=
| ValueError   (* tuple unpacking, channel count of rgb2lab *)
| IndexError   (* list subscript out of range *)
| KeyError     (* dict subscript absent *)
| cv2_error.   (* raised by OpenCV *)

Inductive outcome (A : Type) : Type :=
| Returned (a : A)
| Raised (e : exn).
Arguments Returned {A} a.
Arguments Raised {A} e.

#[global] Instance outcome_ret : MRet outcome := fun A a => Returned a.
#[global] Instance outcome_bind : MBind outcome := fun A B f m =>
  match m with
  | Returned a => f a
  | Raised e => Raised e
  end.

(** ** Data *)

(** A palette entry is the tuple [(name, (r, g, b), group)]. *)
Definition PaletteEntry : Type := string * (Z * Z * Z) * string.

Definition entry_name (e : PaletteEntry) : string := e.1.1.
Definition entry_rgb (e : PaletteEntry) : Z * Z * Z := e.1.2.
Definition entry_group (e : PaletteEntry) : string := e.2.

Definition skin_palette : list PaletteEntry :=
  [ ("Porcelain",   (255, 226, 220)%Z, "cool");
    ("Fair Pink",   (255, 214, 200)%Z, "cool");
    ("Light Ivory", (245, 205, 180)%Z, "neutral");
    ("Warm Sand",   (235, 190, 160)%Z, "warm");
    ("Beige",       (220, 175, 150)%Z, "neutral");
    ("Soft Tan",    (205, 160, 130)%Z, "warm");
    ("Tan",         (190, 145, 115)%Z, "warm");
    ("Honey",       (175, 130, 105)%Z, "warm");
    ("Caramel",     (160, 115, 95)%Z,  "warm");
    ("Chestnut",    (145, 100, 85)%Z,  "warm");
    ("Bronze",      (130, 85, 70)%Z,   "warm");
    ("Deep",        (115, 70, 60)%Z,   "cool") ].

(** A colour with real components: an RGB triple scaled to [0,1], or a
    Lab triple. *)
Definition color3 : Type := R * R * R.

(** A NumPy image: its [shape] tuple and the subscript [img[y, x]], the
    list of channel values of the pixel in row [y], column [x]. *)
Record ndarray : Type := {
  shape : list Z;
  px : Z -> Z -> list Z
}.

(** A normalized landmark of the face mesh (its depth is never read). *)
Record landmark : Type := { lm_x : Q; lm_y : Q }.

(** [results.multi_face_landmarks]: [None], or a list of faces. *)
Definition multi_face_landmarks : Type := option (list (list landmark)).

(** One dict of [composition_details]. *)
Record composition : Type := {
  name : string;
  percentage : R;
  group : string
}.

(** The dict returned with status [analysis_complete]. *)
Record analysis : Type := {
  best_match : string;
  warm_cool_neutral_base : gmap string R;
  detailed_composition : list composition;
  raw_weights : list R;
  raw_group_sum : gmap string R;
  raw_best_idx : nat
}.

(** The returned dict: an error with its message, or an analysis. *)
Inductive result : Type :=
| Error (message : string)
| Complete (a : analysis).

Definition status (r : result) : string :=
  match r with
  | Error _ => "error"
  | Complete _ => "analysis_complete"
  end.

(** ** Region selection *)

(** [range(61, 89)] and [range(33, 133)]. *)
Definition mouth : list nat := seq 61 28.
Definition eyes : list nat := seq 33 100.
Definition exclude : gset nat := list_to_set (mouth ++ eyes).

(** ** Pixel sampling *)

(** [int(q)] on a float: truncation toward zero. *)
Definition int_trunc (q : Q) : Z := Z.quot (Qnum q) (Z.pos (Qden q)).

(** [int(c * n)] for a normalized coordinate [c] and a dimension [n]. *)
Definition to_pixel (c : Q) (n : Z) : Z := int_trunc (c * inject_Z n).

(** [0 <= v < n]. *)
Definition in_range (v n : Z) : bool := (0 <=? v)%Z && (v <? n)%Z.

(** The body of the sampling loop for the landmark [lm] of index [idx]:
    the pixel it appends, if any. *)
Definition sample_landmark (img : ndarray) (h w : Z) (idx : nat)
    (lm : landmark) : option (list Z) :=
  if bool_decide (idx ∈ exclude) then None
  else
    let x := to_pixel (lm_x lm) w in
    let y := to_pixel (lm_y lm) h in
    if in_range x w && in_range y h then Some (px img y x) else None.

(** The sampling loop over [enumerate(landmarks.landmark)], from index
    [idx] on. *)
Fixpoint sample_from (img : ndarray) (h w : Z) (idx : nat)
    (lms : list landmark) : list (list Z) :=
  match lms with
  | [] => []
  | lm :: rest =>
      match sample_landmark img h w idx lm with
      | Some p => p :: sample_from img h w (S idx) rest
      | None => sample_from img h w (S idx) rest
      end
  end.

(** ** Colour arithmetic *)

Definition eps : R := (1 / 1000000)%R.

Definition Rsum (l : list R) : R := foldr Rplus 0%R l.
Arguments Rsum : simpl never.

(** [v / 255.0] on an 8-bit channel value. *)
Definition scale255 (v : Z) : R := (IZR v / 255)%R.

(** [np.linalg.norm(p - u)] on one row. *)
Definition norm3 (p u : color3) : R :=
  sqrt ((p.1.1 - u.1.1) * (p.1.1 - u.1.1)
        + (p.1.2 - u.1.2) * (p.1.2 - u.1.2)
        + (p.2 - u.2) * (p.2 - u.2)).

(** [np.mean(rows, axis=0)]. *)
Definition mean3 (rows : list color3) : color3 :=
  let n := INR (length rows) in
  ((Rsum (map (fun c => c.1.1) rows) / n)%R,
   (Rsum (map (fun c => c.1.2) rows) / n)%R,
   (Rsum (map (fun c => c.2) rows) / n)%R).

(** [np.argmin]: the first index holding the minimum.  [best_i], [best]
    are the index and value of the minimum so far, [i] the index of the
    head of the list. *)
Fixpoint argmin_from (best_i : nat) (best : R) (i : nat) (l : list R) : nat :=
  match l with
  | [] => best_i
  | d :: rest =>
      if Rlt_dec d best then argmin_from i d (S i) rest
      else argmin_from best_i best (S i) rest
  end.

Definition argmin (l : list R) : nat :=
  match l with
  | [] => 0
  | d :: rest => argmin_from 0 d 1 rest
  end.

(** [1 / (deltas + eps)], then division by the sum. *)
Definition inverse_distance (deltas : list R) : list R :=
  map (fun d => (1 / (d + eps))%R) deltas.

Definition normalize (ws : list R) : list R :=
  map (fun x => (x / Rsum ws)%R) ws.

(** ** The composition loop *)

Definition group_sum_init : gmap string R :=
  {[ "warm" := 0%R; "cool" := 0%R; "neutral" := 0%R ]}.

(** One iteration: [group_sum[group] += weight] and the append. *)
Definition composition_step (acc : gmap string R * list composition)
    (item : PaletteEntry * R) : outcome (gmap string R * list composition) :=
  match acc.1 !! entry_group item.1 with
  | Some v =>
      Returned
        (<[entry_group item.1 := (v + item.2)%R]> acc.1,
         acc.2 ++ [ {| name := entry_name item.1;
                       percentage := (item.2 * 100)%R;
                       group := entry_group item.1 |} ])
  | None => Raised KeyError
  end.

Fixpoint composition_loop (acc : gmap string R * list composition)
    (items : list (PaletteEntry * R))
    : outcome (gmap string R * list composition) :=
  match items with
  | [] => Returned acc
  | item :: rest =>
      acc' ← composition_step acc item; composition_loop acc' rest
  end.

(** ** Vocabulary of the statements *)

(** [k] is the lowest index of [l] that holds the minimum of [l]. *)
Definition first_minimum (l : list R) (k : nat) : Prop :=
  ∃ m : R, l !! k = Some m ∧
    (∀ (j : nat) (x : R), l !! j = Some x → (m <= x)%R) ∧
    (∀ (j : nat) (x : R), j < k → l !! j = Some x → (m < x)%R).

(** The dict appended for one [(entry, weight)] item. *)
Definition make_composition (item : PaletteEntry * R) : composition :=
  {| name := entry_name item.1;
     percentage := (item.2 * 100)%R;
     group := entry_group item.1 |}.

(** The sum of the weights of the items tagged [g]. *)
Definition group_total (g : string) (items : list (PaletteEntry * R)) : R :=
  Rsum (map snd (filter (fun it => entry_group it.1 = g) items)).

(** The sum of the percentages of the composition entries tagged [g]. *)
Definition group_percentage (g : string) (comp : list composition) : R :=
  Rsum (map percentage (filter (fun c => group c = g) comp)).

(** [img] is an [h] x [w] image with three channel values per pixel. *)
Definition bgr_image (img : ndarray) (h w : Z) : Prop :=
  shape img = [h; w; 3%Z] ∧
  ∀ y x : Z, (0 ≤ y < h)%Z → (0 ≤ x < w)%Z → length (px img y x) = 3.


(** The catalog colour of "Honey", scaled to [0,1]. *)
Definition honey_rgb : color3 := (scale255 175, scale255 130, scale255 105).

Section Classifier.

(** [skimage.color.rgb2lab] on one RGB triple. *)
Variable rgb2lab : color3 -> color3.
(** [cv2.cvtColor(img, cv2.COLOR_BGR2RGB)]. *)
Variable cvtColor : ndarray -> outcome ndarray.
(** [_face_mesh.process(rgb_img).multi_face_landmarks]. *)
Variable process : ndarray -> outcome multi_face_landmarks.

(** ** Palette model *)

Definition palette_rgb : list color3 :=
  map (fun e => let '(r, g, b) := entry_rgb e in
                (scale255 r, scale255 g, scale255 b)) skin_palette.

Definition palette_lab : list color3 := map rgb2lab palette_rgb.

(** ** Tone classifier *)

(** [h, w, _ = img.shape]. *)
Definition unpack_shape (s : list Z) : outcome (Z * Z) :=
  match s with
  | [h; w; _] => Returned (h, w)
  | _ => Raised ValueError
  end.

(** [skin_pixels[:, ::-1] / 255.0]. *)
Definition bgr_to_rgb (pixels : list (list Z)) : list (list R) :=
  map (fun p => map scale255 (reverse p)) pixels.

(** [color.rgb2lab] on an array of rows: the last axis must have
    size 3. *)
Fixpoint rgb2lab_rows (rows : list (list R)) : outcome (list color3) :=
  match rows with
  | [] => Returned []
  | [r; g; b] :: rest =>
      labs ← rgb2lab_rows rest; Returned (rgb2lab (r, g, b) :: labs)
  | _ :: _ => Raised ValueError
  end.

Definition deltas_of (user_lab : color3) : list R :=
  map (fun p => norm3 p user_lab) palette_lab.

(** Lines 77 to 106: from the mean observed colour to the result. *)
Definition classify (user_lab : color3) : outcome result :=
  let deltas := deltas_of user_lab in
  let best_idx := argmin deltas in
  match skin_palette !! best_idx with
  | None => Raised IndexError
  | Some best =>
      let best_name := entry_name best in
      let weights := normalize (inverse_distance deltas) in
      acc ← composition_loop (group_sum_init, []) (zip skin_palette weights);
      Returned (Complete
        {| best_match := best_name;
           warm_cool_neutral_base := (fun v => (v * 100)%R) <$> acc.1;
           detailed_composition := acc.2;
           raw_weights := weights;
           raw_group_sum := acc.1;
           raw_best_idx := best_idx |})
  end.

(** The mean Lab colour of the sampled pixels. *)
Definition user_lab_of (skin_pixels : list (list Z)) : outcome color3 :=
  skin_lab ← rgb2lab_rows (bgr_to_rgb skin_pixels);
  Returned (mean3 skin_lab).

(** Lines 49 to 106: from the detector's report to the result. *)
Definition after_detection (img : ndarray) (h w : Z)
    (results : multi_face_landmarks) : outcome result :=
  match results with
  | None | Some [] => Returned (Error "No face detected in the image.")
  | Some (landmarks :: _) =>
      match sample_from img h w 0 landmarks with
      | [] =>
          Returned (Error "Face detected, but no valid skin pixels found.")
      | skin_pixels =>
          user_lab ← user_lab_of skin_pixels;
          classify user_lab
      end
  end.

Definition analyze_face_color (img : ndarray) : outcome result :=
  '(h, w) ← unpack_shape (shape img);
  rgb_img ← cvtColor img;
  results ← process rgb_img;
  after_detection img h w results.

(** ** Vocabulary of the statements, over the library functions *)

(** The Lab colour of a catalog entry. *)
Definition entry_lab (e : PaletteEntry) : color3 :=
  rgb2lab (scale255 (entry_rgb e).1.1, scale255 (entry_rgb e).1.2,
           scale255 (entry_rgb e).2).

(** The weights computed for the mean colour [u]. *)
Definition weights_of (u : color3) : list R :=
  normalize (inverse_distance (deltas_of u)).

(** The sum of the inverse distances, by which the weights are divided. *)
Definition inverse_total (u : color3) : R :=
  Rsum (map (fun q => (1 / (norm3 q u + eps))%R) palette_lab).

(** What [classify] stores in the analysis it returns for [u]. *)
Definition classified (u : color3) (a : analysis) : Prop :=
  raw_best_idx a = argmin (deltas_of u) ∧
  entry_name <$> skin_palette !! argmin (deltas_of u)
    = Some (best_match a) ∧
  raw_weights a = weights_of u ∧
  detailed_composition a
    = map make_composition (zip skin_palette (weights_of u)) ∧
  (∀ g : string,
     raw_group_sum a !! g =
       (fun v => (v + group_total g (zip skin_palette (weights_of u)))%R)
         <$> group_sum_init !! g) ∧
  warm_cool_neutral_base a = (fun v => (v * 100)%R) <$> raw_group_sum a.

(** [u] is the mean Lab colour of the pixels sampled from [img]: the
    image unpacks, the conversion and the detector return a first face,
    and the sampled pixels, which are not empty, average to [u]. *)
Definition mean_sampled_color (img : ndarray) (u : color3) : Prop :=
  ∃ (h w c : Z) (rgb_img : ndarray) (landmarks : list landmark)
    (rest : list (list landmark)) (skin_lab : list color3),
    shape img = [h; w; c] ∧
    cvtColor img = Returned rgb_img ∧
    process rgb_img = Returned (Some (landmarks :: rest)) ∧
    sample_from img h w 0 landmarks ≠ [] ∧
    rgb2lab_rows (bgr_to_rgb (sample_from img h w 0 landmarks))
      = Returned skin_lab ∧
    u = mean3 skin_lab.


End Classifier.

(** ** Concrete inputs *)

(** A 10x10 three-channel image whose pixel in row [y], column [x] holds
    the channel values [y], [x], 7. *)
Definition grid_image : ndarray :=
  {| shape := [10; 10; 3]%Z; px := fun y x => [y; x; 7%Z] |}.

(** A 10x10 image that holds the colour of "Honey", in BGR order, in
    every pixel. *)
Definition honey_image : ndarray :=
  {| shape := [10; 10; 3]%Z; px := fun _ _ => [105; 130; 175]%Z |}.


(** A 10x10 single-channel image: a two-dimensional array. *)
Definition gray_image : ndarray :=
  {| shape := [10; 10]%Z; px := fun _ _ => [128]%Z |}.

(** One face of one landmark at (0.5, 0.5). *)
Definition center_face : list landmark :=
  [ {| lm_x := 1 # 2; lm_y := 1 # 2 |} ].

(** One face of one landmark at (1.5, 0.5), right of the frame. *)
Definition outside_face : list landmark :=
  [ {| lm_x := 3 # 2; lm_y := 1 # 2 |} ].

(** ** Instances of the library functions *)

(** A colour conversion that behaves as OpenCV documents for
    [COLOR_BGR2RGB]: it requires a non-empty image of three or four
    channels and returns the blue, green and red values in reverse
    order. *)
Definition bgr2rgb (img : ndarray) : outcome ndarray :=
  match shape img with
  | [h; w; c] =>
      if (0 <? h)%Z && (0 <? w)%Z && ((c =? 3)%Z || (c =? 4)%Z)
      then Returned {| shape := [h; w; 3%Z];
                       px := fun y x => reverse (take 3 (px img y x)) |}
      else Raised cv2_error
  | _ => Raised cv2_error
  end.


(** A detector that reports [faces] on every image. *)
Definition fixed_detector (faces : multi_face_landmarks)
    (rgb_img : ndarray) : outcome multi_face_landmarks :=
  Returned faces.

(** The CIE 1976 L*a*b* transform of an sRGB colour under illuminant D65,
    the transform [skimage.color.rgb2lab] documents: the sRGB gamma, the
    linear map to XYZ, the division by the white point and the cube-root
    companding. *)
Definition srgb_linear (c : R) : R :=
  if Rlt_dec 0.04045 c then Rpower ((c + 0.055) / 1.055) 2.4
  else (c / 12.92)%R.

Definition lab_f (t : R) : R :=
  if Rlt_dec 0.008856 t then Rpower t (1 / 3)
  else (7.787 * t + 16 / 116)%R.

Definition cielab (rgb : color3) : color3 :=
  let r := srgb_linear rgb.1.1 in
  let g := srgb_linear rgb.1.2 in
  let b := srgb_linear rgb.2 in
  let x := ((0.412453 * r + 0.357580 * g + 0.180423 * b) / 0.95047)%R in
  let y := ((0.212671 * r + 0.715160 * g + 0.072169 * b) / 1)%R in
  let z := ((0.019334 * r + 0.119193 * g + 0.950227 * b) / 1.08883)%R in
  ((116 * lab_f y - 16)%R,
   (500 * (lab_f x - lab_f y))%R,
   (200 * (lab_f y - lab_f z))%R).

(** ** Further vocabulary: sampling and uniform images *)

(** Two landmark lists agree outside the excluded indices. *)
Definition agree_outside_exclusion (lms lms' : list landmark) : Prop :=
  length lms = length lms' ∧
  ∀ i : nat, i ∉ exclude → lms !! i = lms' !! i.

(** The pixel that holds the colour of a catalog entry, in the
    blue-green-red order of [img]. *)
Definition bgr_pixel (e : PaletteEntry) : list Z :=
  [(entry_rgb e).2; (entry_rgb e).1.2; (entry_rgb e).1.1].

(** A 4x6 image that holds the colour of "Deep" in every pixel. *)
Definition deep_image : ndarray :=
  {| shape := [4; 6; 3]%Z; px := fun _ _ => [60; 70; 115]%Z |}.

(** One face of three landmarks: two in the frame, one below it. *)
Definition three_point_face : list landmark :=
  [ {| lm_x := 1 # 4; lm_y := 1 # 4 |};
    {| lm_x := 9 # 10; lm_y := 6 # 5 |};
    {| lm_x := 3 # 4; lm_y := 1 # 2 |} ].

(** A face of 34 landmarks whose landmark of index 33, an excluded one,
    is [lm]. *)
Definition face_with_eye_at (lm : landmark) : list landmark :=
  replicate 33 {| lm_x := 1 # 4; lm_y := 3 # 4 |} ++ [lm].

(** ** The tone wheel of [generate_plot_base64] *)

(** The arguments of [Wedge((0, 0), 1, start, start + theta,
    facecolor=np.array(rgb) / 255)]; the angles are in degrees. *)
Record Wedge : Type := {
  wedge_center : R * R;
  wedge_r : R;
  theta1 : R;
  theta2 : R;
  facecolor : color3
}.

(** The end points of [FancyArrowPatch(posA=..., posB=...)]; the arrow
    head is at [posB]. *)
Record FancyArrowPatch : Type := {
  posA : R * R;
  posB : R * R
}.

(** [np.deg2rad]. *)
Definition deg2rad (x : R) : R := (x * (PI / 180))%R.

(** [np.array(rgb) / 255]. *)
Definition rgb_fraction (rgb : Z * Z * Z) : color3 :=
  (scale255 rgb.1.1, scale255 rgb.1.2, scale255 rgb.2).

(** The wedge added for the entry of index [i]. *)
Definition wheel_wedge (theta : R) (i : nat) (e : PaletteEntry) : Wedge :=
  let start := (INR i * theta)%R in
  {| wedge_center := (0%R, 0%R);
     wedge_r := 1%R;
     theta1 := start;
     theta2 := (start + theta)%R;
     facecolor := rgb_fraction (entry_rgb e) |}.

(** The direction of the arrow, in degrees. *)
Definition arrow_degrees (theta : R) (best_idx : Z) : R :=
  (IZR best_idx * theta + theta / 2)%R.

Definition wheel_arrow (theta : R) (best_idx : Z) : FancyArrowPatch :=
  let angle_rad := deg2rad (arrow_degrees theta best_idx) in
  {| posA := ((1.3 * cos angle_rad)%R, (1.3 * sin angle_rad)%R);
     posB := ((1.05 * cos angle_rad)%R, (1.05 * sin angle_rad)%R) |}.

(** Lines 116 to 137 of [generate_plot_base64]: the patches added to the
    first axes.  [None] is the [ZeroDivisionError] of [360 / n] on an
    empty palette. *)
Definition wheel_patches (skin_palette_data : list PaletteEntry)
    (best_idx : Z) : option (list Wedge * FancyArrowPatch) :=
  let n := length skin_palette_data in
  if decide (n = 0) then None
  else
    let theta := (360 / INR n)%R in
    Some (imap (wheel_wedge theta) skin_palette_data,
          wheel_arrow theta best_idx).

(** ** Models and database ([app/models.py], [app/database.py])

    A table is a finite map from the primary key to the row; a
    [datetime] is an integer time stamp.  The tables of the endpoints
    embedded below are kept. *)

Inductive UserRole : Type := PATIENT | DOCTOR | ADMIN.
Inductive AppointmentStatus : Type := PENDING | COMPLETED | CANCELLED.

#[global] Instance UserRole_eq_dec : EqDecision UserRole.
Proof. solve_decision. Defined.
#[global] Instance AppointmentStatus_eq_dec : EqDecision AppointmentStatus.
Proof. solve_decision. Defined.

Module User.
Record t : Type := {
  username : string;
  password_hash : string;
  full_name : string;
  role : UserRole;
  department : option string;
  created_at : Z
}.
End User.

Module Appointment.
Record t : Type := {
  patient_id : Z;
  doctor_id : Z;
  date : string;
  time : string;
  department : string;
  status : AppointmentStatus;
  created_at : Z
}.
End Appointment.

Module SymptomLog.
Record t : Type := {
  appointment_id : Z;
  sender_role : string;
  content : string;
  created_at : Z
}.
End SymptomLog.

Module AnalysisRecord.
Record t : Type := {
  patient_id : Z;
  analysis_type : string;
  analysis_result : string;
  created_at : Z
}.
End AnalysisRecord.

Record database : Type := {
  users : gmap Z User.t;
  appointments : gmap Z Appointment.t;
  symptoms : gmap Z SymptomLog.t;
  analysis_records : gmap Z AnalysisRecord.t
}.

(** The key SQLite gives to a new row: one more than the largest key in
    use, 1 on an empty table. *)
Definition next_rowid {A : Type} (table : gmap Z A) : Z :=
  (1 + foldr Z.max 0 (map fst (map_to_list table)))%Z.

(** [session.exec(select(...).where(...)).first()]: a row that satisfies
    the condition, the one of smallest key, or [None]. *)
Definition first_where {A : Type} (cond : A → bool) (table : gmap Z A)
    : option (Z * A) :=
  map_fold
    (fun k row acc =>
       if cond row then
         match acc with
         | Some (k', row') =>
             if (k <? k')%Z then Some (k, row) else Some (k', row')
         | None => Some (k, row)
         end
       else acc)
    None table.

(** [session.add(row); session.commit(); session.refresh(row)]. *)
Definition add_user (row : User.t) (db : database) : Z * database :=
  let id := next_rowid (users db) in
  (id, {| users := <[id := row]> (users db);
          appointments := appointments db;
          symptoms := symptoms db;
          analysis_records := analysis_records db |}).

Definition add_appointment (row : Appointment.t) (db : database)
    : Z * database :=
  let id := next_rowid (appointments db) in
  (id, {| users := users db;
          appointments := <[id := row]> (appointments db);
          symptoms := symptoms db;
          analysis_records := analysis_records db |}).

Definition add_symptom_log (row : SymptomLog.t) (db : database)
    : Z * database :=
  let id := next_rowid (symptoms db) in
  (id, {| users := users db;
          appointments := appointments db;
          symptoms := <[id := row]> (symptoms db);
          analysis_records := analysis_records db |}).

Definition add_analysis_record (row : AnalysisRecord.t) (db : database)
    : Z * database :=
  let id := next_rowid (analysis_records db) in
  (id, {| users := users db;
          appointments := appointments db;
          symptoms := symptoms db;
          analysis_records := <[id := row]> (analysis_records db) |}).

(** ** What an endpoint gives back *)

(** The exceptions that reach the framework: one raised by the
    classifier, or the [IntegrityError] of a commit that breaks a
    [NOT NULL] constraint. *)
Inductive server_error : Type :=
| classifier_error (e : exn)
| IntegrityError.

(** A response body, an [HTTPException], or an exception that no handler
    catches. *)
Inductive http (A : Type) : Type :=
| Response (body : A)
| HTTPException (status_code : Z) (detail : string)
| Unhandled (e : server_error).
Arguments Response {A} body.
Arguments HTTPException {A} status_code detail.
Arguments Unhandled {A} e.

(** ** The analysis endpoint ([app/routers/analysis.py]) *)

(** The analysis dict once the three raw entries are popped and the two
    plots are added. *)
Module Payload.
Record t : Type := {
  status : string;
  best_match : string;
  warm_cool_neutral_base : gmap string R;
  detailed_composition : list composition;
  analysis_plot_base64 : string;
  analysis_rose_plot_base64 : string
}.
End Payload.

Module AnalysisRecordPublic.
Record t : Type := {
  id : Z;
  patient_id : Z;
  analysis_type : string;
  analysis_result : Payload.t;
  created_at : string
}.
End AnalysisRecordPublic.

Section AnalysisRouter.

Variable rgb2lab : color3 -> color3.
Variable cvtColor : ndarray -> outcome ndarray.
Variable process : ndarray -> outcome multi_face_landmarks.
(** [cv2.imdecode(np.frombuffer(file_bytes, np.uint8), cv2.IMREAD_COLOR)]:
    an image, [None], or an exception. *)
Variable imdecode : list Byte.byte -> outcome (option ndarray).
(** The two renderers, as functions of their arguments. *)
Variable generate_plot_base64 :
  list PaletteEntry -> list R -> gmap string R -> nat -> string.
Variable generate_rose_plot_base64 : list PaletteEntry -> list R -> string.
(** [json.dumps] and [datetime.isoformat]. *)
Variable json_dumps : Payload.t -> string.
Variable isoformat : Z -> string.

(** Lines 60 to 69: the dict that is stored and returned. *)
Definition payload_of (a : analysis) : Payload.t :=
  let weights := raw_weights a in
  let group_sum := raw_group_sum a in
  let best_idx := raw_best_idx a in
  {| Payload.status := "analysis_complete";
     Payload.best_match := best_match a;
     Payload.warm_cool_neutral_base := warm_cool_neutral_base a;
     Payload.detailed_composition := detailed_composition a;
     Payload.analysis_plot_base64 :=
       generate_plot_base64 skin_palette weights group_sum best_idx;
     Payload.analysis_rose_plot_base64 :=
       generate_rose_plot_base64 skin_palette weights |}.

(** [POST /api/analysis/skin-tone]; [now] is the time of the call. *)
Definition analyze_skin_tone (patient_id : Z) (file_bytes : list Byte.byte)
    (now : Z) (db : database)
    : http AnalysisRecordPublic.t * database :=
  match users db !! patient_id with
  | None => (HTTPException 404 "找不到此病患", db)
  | Some patient =>
      if bool_decide (User.role patient ≠ PATIENT)
      then (HTTPException 404 "找不到此病患", db)
      else
        match imdecode file_bytes with
        | Raised _ => (HTTPException 400 "無法解析上傳的影像檔", db)
        | Returned None =>
            (HTTPException 400 "影像格式不支援或解碼失敗", db)
        | Returned (Some img) =>
            match analyze_face_color rgb2lab cvtColor process img with
            | Raised e => (Unhandled (classifier_error e), db)
            | Returned (Error message) => (HTTPException 400 message, db)
            | Returned (Complete a) =>
                let analysis := payload_of a in
                let record :=
                  {| AnalysisRecord.patient_id := patient_id;
                     AnalysisRecord.analysis_type := "skin_tone";
                     AnalysisRecord.analysis_result := json_dumps analysis;
                     AnalysisRecord.created_at := now |} in
                let '(id, db') := add_analysis_record record db in
                (Response
                   {| AnalysisRecordPublic.id := id;
                      AnalysisRecordPublic.patient_id := patient_id;
                      AnalysisRecordPublic.analysis_type := "skin_tone";
                      AnalysisRecordPublic.analysis_result := analysis;
                      AnalysisRecordPublic.created_at := isoformat now |},
                 db')
            end
        end
  end.

End AnalysisRouter.

(** ** The user endpoints ([app/routers/user.py]) *)

Module UserCreate.
Record t : Type := {
  username : string;
  password : string;
  full_name : string;
  role : UserRole;
  department : option string
}.
End UserCreate.

Module UserLogin.
Record t : Type := {
  username : string;
  password : string
}.
End UserLogin.

Module UserPublic.
Record t : Type := {
  id : Z;
  username : string;
  full_name : string;
  role : UserRole;
  department : option string
}.
End UserPublic.

(** The response model of a stored user. *)
Definition user_public (id : Z) (u : User.t) : UserPublic.t :=
  {| UserPublic.id := id;
     UserPublic.username := User.username u;
     UserPublic.full_name := User.full_name u;
     UserPublic.role := User.role u;
     UserPublic.department := User.department u |}.

(** The truth value of an [Optional[str]]: [None] and the empty string
    are false. *)
Definition truthy (o : option string) : bool :=
  match o with
  | Some s => bool_decide (s ≠ "")
  | None => false
  end.

(** [POST /api/users/register]. *)
Definition register (user_data : UserCreate.t) (now : Z) (db : database)
    : http UserPublic.t * database :=
  match first_where
          (fun u => bool_decide
                      (User.username u = UserCreate.username user_data))
          (users db) with
  | Some _ => (HTTPException 400 "此帳號已被註冊", db)
  | None =>
      if bool_decide (UserCreate.role user_data = DOCTOR)
         && negb (truthy (UserCreate.department user_data))
      then (HTTPException 400 "註冊醫師帳號必須填寫科別 (department)", db)
      else
        let new_user :=
          {| User.username := UserCreate.username user_data;
             User.password_hash := UserCreate.password user_data;
             User.full_name := UserCreate.full_name user_data;
             User.role := UserCreate.role user_data;
             User.department := UserCreate.department user_data;
             User.created_at := now |} in
        let '(id, db') := add_user new_user db in
        (Response (user_public id new_user), db')
  end.

(** [POST /api/users/login]. *)
Definition login (login_data : UserLogin.t) (db : database)
    : http UserPublic.t :=
  match first_where
          (fun u => bool_decide
                      (User.username u = UserLogin.username login_data))
          (users db) with
  | None => HTTPException 401 "帳號或密碼錯誤"
  | Some (id, user) =>
      if bool_decide (User.password_hash user ≠ UserLogin.password login_data)
      then HTTPException 401 "帳號或密碼錯誤"
      else Response (user_public id user)
  end.

(** [GET /api/users/departments]: the set of the non-empty departments of
    the doctors. *)
Definition get_departments (db : database) : gset string :=
  list_to_set
    (omap (fun kv : Z * User.t =>
             if bool_decide (User.role kv.2 = DOCTOR)
                && truthy (User.department kv.2)
             then User.department kv.2 else None)
          (map_to_list (users db))).

(** ** Business hours ([app/utils.py]) and the appointment endpoints
    ([app/routers/appointment.py]) *)

(** The colon, character 58. *)
Definition colon : Ascii.ascii := Ascii.ascii_of_nat 58.

(** [time_str.split(":")[0]]: the text before the first colon. *)
Fixpoint before_colon (s : string) : string :=
  match s with
  | EmptyString => EmptyString
  | String c rest =>
      if Ascii.eqb c colon then EmptyString else String c (before_colon rest)
  end.

Module AppointmentCreate.
Record t : Type := {
  patient_id : Z;
  doctor_id : Z;
  date : string;
  time : string;
  department : string
}.
End AppointmentCreate.

(** A field of a [PATCH] body: absent, [null], or a value. *)
Inductive field (A : Type) : Type :=
| Unset
| Null
| Value (a : A).
Arguments Unset {A}.
Arguments Null {A}.
Arguments Value {A} a.

Module AppointmentUpdate.
Record t : Type := {
  date : field string;
  time : field string;
  department : field string;
  status : field AppointmentStatus
}.
End AppointmentUpdate.

Module AppointmentPublic.
Record t : Type := {
  id : Z;
  patient_id : Z;
  doctor_id : Z;
  date : string;
  time : string;
  department : string;
  status : AppointmentStatus;
  created_at : Z
}.
End AppointmentPublic.

Definition appointment_public (id : Z) (a : Appointment.t)
    : AppointmentPublic.t :=
  {| AppointmentPublic.id := id;
     AppointmentPublic.patient_id := Appointment.patient_id a;
     AppointmentPublic.doctor_id := Appointment.doctor_id a;
     AppointmentPublic.date := Appointment.date a;
     AppointmentPublic.time := Appointment.time a;
     AppointmentPublic.department := Appointment.department a;
     AppointmentPublic.status := Appointment.status a;
     AppointmentPublic.created_at := Appointment.created_at a |}.

(** The condition of the conflict query of [create_appointment]. *)
Definition occupies (doctor_id : Z) (date time : string)
    (a : Appointment.t) : bool :=
  bool_decide (Appointment.doctor_id a = doctor_id)
  && bool_decide (Appointment.date a = date)
  && bool_decide (Appointment.time a = time)
  && bool_decide (Appointment.status a ≠ CANCELLED).

(** [setattr(db_appointment, key, value)] for one field of the body;
    [None] when the value is [null]. *)
Definition set_field {A : Type} (f : field A) (old : A) : option A :=
  match f with
  | Unset => Some old
  | Null => None
  | Value v => Some v
  end.

Section AppointmentRouter.

(** [int] on a string: the integer, or [None] for [ValueError]. *)
Variable py_int : string -> option Z.

(** [validate_business_hours]. *)
Definition validate_business_hours (time_str : string) : http unit :=
  match py_int (before_colon time_str) with
  | Some hour =>
      if (9 <=? hour)%Z && (hour <=? 18)%Z then Response tt
      else HTTPException 400 "預約失敗：營業時間僅限 09:00 至 18:00"
  | None => HTTPException 400 "預約失敗：營業時間僅限 09:00 至 18:00"
  end.

(** [POST /api/appointment/]. *)
Definition create_appointment (appointment_data : AppointmentCreate.t)
    (now : Z) (db : database) : http AppointmentPublic.t * database :=
  match validate_business_hours (AppointmentCreate.time appointment_data) with
  | HTTPException status_code detail =>
      (HTTPException status_code detail, db)
  | Unhandled e => (Unhandled e, db)
  | Response _ =>
      match first_where
              (occupies (AppointmentCreate.doctor_id appointment_data)
                        (AppointmentCreate.date appointment_data)
                        (AppointmentCreate.time appointment_data))
              (appointments db) with
      | Some _ => (HTTPException 400 "此時段該醫師已有預約", db)
      | None =>
          let db_appointment :=
            {| Appointment.patient_id :=
                 AppointmentCreate.patient_id appointment_data;
               Appointment.doctor_id :=
                 AppointmentCreate.doctor_id appointment_data;
               Appointment.date := AppointmentCreate.date appointment_data;
               Appointment.time := AppointmentCreate.time appointment_data;
               Appointment.department :=
                 AppointmentCreate.department appointment_data;
               Appointment.status := PENDING;
               Appointment.created_at := now |} in
          let '(id, db') := add_appointment db_appointment db in
          (Response (appointment_public id db_appointment), db')
      end
  end.

(** [PATCH /api/appointment/{appointment_id}]. *)
Definition update_appointment (appointment_id : Z)
    (appointment_data : AppointmentUpdate.t) (db : database)
    : http AppointmentPublic.t * database :=
  match appointments db !! appointment_id with
  | None => (HTTPException 404 "找不到此預約", db)
  | Some db_appointment =>
      match (match AppointmentUpdate.time appointment_data with
             | Value t => validate_business_hours t
             | _ => Response tt
             end) with
      | HTTPException status_code detail =>
          (HTTPException status_code detail, db)
      | Unhandled e => (Unhandled e, db)
      | Response _ =>
          match set_field (AppointmentUpdate.date appointment_data)
                          (Appointment.date db_appointment),
                set_field (AppointmentUpdate.time appointment_data)
                          (Appointment.time db_appointment),
                set_field (AppointmentUpdate.department appointment_data)
                          (Appointment.department db_appointment),
                set_field (AppointmentUpdate.status appointment_data)
                          (Appointment.status db_appointment) with
          | Some date, Some time, Some department, Some status =>
              let updated :=
                {| Appointment.patient_id :=
                     Appointment.patient_id db_appointment;
                   Appointment.doctor_id :=
                     Appointment.doctor_id db_appointment;
                   Appointment.date := date;
                   Appointment.time := time;
                   Appointment.department := department;
                   Appointment.status := status;
                   Appointment.created_at :=
                     Appointment.created_at db_appointment |} in
              (Response (appointment_public appointment_id updated),
               {| users := users db;
                  appointments :=
                    <[appointment_id := updated]> (appointments db);
                  symptoms := symptoms db;
                  analysis_records := analysis_records db |})
          | _, _, _, _ => (Unhandled IntegrityError, db)
          end
      end
  end.

End AppointmentRouter.

(** ** Symptom submission *)

Module SymptomSubmitRequest.
Record t : Type := {
  appointment_id : Z;
  description : string;
  duration : string;
  severity : string;
  symptoms : list string;
  additionalNotes : option string
}.
End SymptomSubmitRequest.

Module SymptomSubmitResponse.
Record t : Type := {
  ok : bool;
  message : string;
  symptom_log_id : Z
}.
End SymptomSubmitResponse.

(** The line feed of the f-strings, character 10. *)
Definition LF : string := String (Ascii.ascii_of_nat 10) EmptyString.

(** [f"{title}\n{body}"] appended to the parts when [present]. *)
Definition add_part (present : bool) (title body : string)
    (parts : list string) : list string :=
  if present then parts ++ [title +:+ LF +:+ body] else parts.

(** Lines 149 to 167: the text stored for a submission. *)
Definition full_symptom_text (symptom_data : SymptomSubmitRequest.t)
    : string :=
  let parts0 : list string := [] in
  let parts1 :=
    add_part (bool_decide (SymptomSubmitRequest.description symptom_data ≠ ""))
      "【主要症狀描述】" (SymptomSubmitRequest.description symptom_data)
      parts0 in
  let parts2 :=
    add_part (bool_decide (SymptomSubmitRequest.symptoms symptom_data ≠ []))
      "【常見症狀】"
      (String.concat "、" (SymptomSubmitRequest.symptoms symptom_data))
      parts1 in
  let parts3 :=
    add_part (bool_decide (SymptomSubmitRequest.duration symptom_data ≠ ""))
      "【持續時間】" (SymptomSubmitRequest.duration symptom_data) parts2 in
  let parts4 :=
    add_part (bool_decide (SymptomSubmitRequest.severity symptom_data ≠ ""))
      "【嚴重程度】" (SymptomSubmitRequest.severity symptom_data) parts3 in
  let parts5 :=
    add_part (truthy (SymptomSubmitRequest.additionalNotes symptom_data))
      "【補充說明】"
      (default "" (SymptomSubmitRequest.additionalNotes symptom_data))
      parts4 in
  String.concat (LF +:+ LF) parts5.

(** [POST /api/appointment/symptoms]. *)
Definition submit_symptoms (symptom_data : SymptomSubmitRequest.t)
    (now : Z) (db : database) : http SymptomSubmitResponse.t * database :=
  match appointments db !! SymptomSubmitRequest.appointment_id symptom_data
  with
  | None => (HTTPException 404 "找不到此預約", db)
  | Some _ =>
      let symptom_log :=
        {| SymptomLog.appointment_id :=
             SymptomSubmitRequest.appointment_id symptom_data;
           SymptomLog.sender_role := "patient";
           SymptomLog.content := full_symptom_text symptom_data;
           SymptomLog.created_at := now |} in
      let '(id, db') := add_symptom_log symptom_log db in
      (Response {| SymptomSubmitResponse.ok := true;
                   SymptomSubmitResponse.message := "症狀資訊已成功提交";
                   SymptomSubmitResponse.symptom_log_id := id |},
       db')
  end.

(** ** Invariants of the database *)

(** No two users share a user name. *)
Definition unique_usernames (db : database) : Prop :=
  ∀ (k k' : Z) (u u' : User.t),
    users db !! k = Some u → users db !! k' = Some u' →
    User.username u = User.username u' → k = k'.

(** Every doctor has a department that is not empty. *)
Definition doctors_have_department (db : database) : Prop :=
  ∀ (k : Z) (u : User.t),
    users db !! k = Some u → User.role u = DOCTOR →
    truthy (User.department u) = true.

(** No two appointments that are not cancelled share doctor, date and
    time. *)
Definition no_double_booking (db : database) : Prop :=
  ∀ (k k' : Z) (a a' : Appointment.t),
    appointments db !! k = Some a → appointments db !! k' = Some a' →
    Appointment.status a ≠ CANCELLED → Appointment.status a' ≠ CANCELLED →
    Appointment.doctor_id a = Appointment.doctor_id a' →
    Appointment.date a = Appointment.date a' →
    Appointment.time a = Appointment.time a' →
    k = k'.

(** ** Concrete requests and databases *)

Definition empty_database : database :=
  {| users := ∅; appointments := ∅; symptoms := ∅; analysis_records := ∅ |}.

Definition patient_zhang : User.t :=
  {| User.username := "patient_a_1";
     User.password_hash := "123456";
     User.full_name := "張偉";
     User.role := PATIENT;
     User.department := None;
     User.created_at := 1000 |}.

Definition doctor_wang : User.t :=
  {| User.username := "dr_wang_1";
     User.password_hash := "secret123";
     User.full_name := "王大明醫師";
     User.role := DOCTOR;
     User.department := Some "內科";
     User.created_at := 1000 |}.

Definition morning_appointment : Appointment.t :=
  {| Appointment.patient_id := 2;
     Appointment.doctor_id := 1;
     Appointment.date := "2025-01-06";
     Appointment.time := "09:00";
     Appointment.department := "內科";
     Appointment.status := PENDING;
     Appointment.created_at := 1000 |}.

Definition later_appointment : Appointment.t :=
  {| Appointment.patient_id := 3;
     Appointment.doctor_id := 1;
     Appointment.date := "2025-01-06";
     Appointment.time := "10:00";
     Appointment.department := "內科";
     Appointment.status := PENDING;
     Appointment.created_at := 1001 |}.

(** A doctor, a patient and two appointments of the doctor. *)
Definition clinic_database : database :=
  {| users := {[ 1%Z := doctor_wang; 2%Z := patient_zhang ]};
     appointments :=
       {[ 1%Z := morning_appointment; 2%Z := later_appointment ]};
     symptoms := ∅;
     analysis_records := ∅ |}.

(** An [int] for the strings of one or two decimal digits. *)
Definition digit_value (c : Ascii.ascii) : option Z :=
  let n := Ascii.nat_of_ascii c in
  if (48 <=? n) && (n <=? 57) then Some (Z.of_nat (n - 48)) else None.

Definition two_digit_int (s : string) : option Z :=
  match s with
  | String a EmptyString => digit_value a
  | String a (String b EmptyString) =>
      match digit_value a, digit_value b with
      | Some x, Some y => Some (10 * x + y)%Z
      | _, _ => None
      end
  | _ => None
  end.

(** A decoder that yields [img] for every file, renderers that yield
    fixed strings, and a serializer that keeps the best match. *)
Definition decode_as (img : ndarray) (file_bytes : list Byte.byte)
    : outcome (option ndarray) :=
  Returned (Some img).

Definition blank_plot (palette : list PaletteEntry) (weights : list R)
    (group_sum : gmap string R) (best_idx : nat) : string := "plot".

Definition blank_rose_plot (palette : list PaletteEntry) (weights : list R)
    : string := "rose".

Definition dumps_best_match (p : Payload.t) : string := Payload.best_match p.

Definition epoch_text (t : Z) : string := "1970-01-01T00:00:00".

(** Requests to the user and appointment endpoints. *)
Definition new_patient_request : UserCreate.t :=
  {| UserCreate.username := "patient_b_2";
     UserCreate.password := "123456";
     UserCreate.full_name := "林佳";
     UserCreate.role := PATIENT;
     UserCreate.department := None |}.

Definition new_doctor_request : UserCreate.t :=
  {| UserCreate.username := "dr_lee_2";
     UserCreate.password := "secret123";
     UserCreate.full_name := "李小美醫師";
     UserCreate.role := DOCTOR;
     UserCreate.department := Some "外科" |}.

Definition unpadded_request : AppointmentCreate.t :=
  {| AppointmentCreate.patient_id := 2;
     AppointmentCreate.doctor_id := 1;
     AppointmentCreate.date := "2025-01-06";
     AppointmentCreate.time := "9:00";
     AppointmentCreate.department := "內科" |}.

(** ** Region selection: the excluded landmark indices *)

Lemma elem_of_mouth (i : nat) : i ∈ mouth ↔ 61 ≤ i ≤ 88.
Proof. unfold mouth. rewrite elem_of_seq. lia. Qed.

Lemma elem_of_eyes (i : nat) : i ∈ eyes ↔ 33 ≤ i ≤ 132.
Proof. unfold eyes. rewrite elem_of_seq. lia. Qed.

Lemma elem_of_exclude (i : nat) : i ∈ exclude ↔ 33 ≤ i ≤ 132.
Proof.
  unfold exclude.
  rewrite elem_of_list_to_set, elem_of_app, elem_of_mouth, elem_of_eyes.
  lia.
Qed.

(** C10. Every mouth index is an eye index, so the excluded set is the
    interval 33..132, which has 100 elements; the loop skips a landmark
    exactly when its index lies in that interval, and every index below
    33 or above 132 goes on to the coordinate conversion. *)
Theorem exclude_is_eye_range :
  (∀ i : nat, i ∈ mouth → i ∈ eyes) ∧
  (∀ i : nat, i ∈ exclude ↔ 33 ≤ i ≤ 132) ∧
  size exclude = 100 ∧
  (∀ i : nat, bool_decide (i ∈ exclude) = false ↔ (i < 33 ∨ 132 < i)) ∧
  (∀ (img : ndarray) (h w : Z) (i : nat) (lm : landmark),
     sample_landmark img h w i lm =
       if bool_decide (33 ≤ i ≤ 132) then None
       else if in_range (to_pixel (lm_x lm) w) w
               && in_range (to_pixel (lm_y lm) h) h
            then Some (px img (to_pixel (lm_y lm) h) (to_pixel (lm_x lm) w))
            else None).
Proof.
  split; [|split; [|split; [|split]]].
  - intros i. rewrite elem_of_mouth, elem_of_eyes. lia.
  - exact elem_of_exclude.
  - vm_compute. reflexivity.
  - intros i. rewrite bool_decide_eq_false, elem_of_exclude. lia.
  - intros img h w i lm. unfold sample_landmark.
    rewrite (bool_decide_ext _ _ (elem_of_exclude i)). reflexivity.
Qed.

(** ** Pixel sampling: truncation and the bounds check *)

Lemma int_trunc_zero (q : Q) :
  (-1 < q)%Q → (q < 1)%Q → int_trunc q = 0%Z.
Proof.
  destruct q as [n d]. unfold Qlt, int_trunc. simpl. intros Hlo Hhi.
  apply Z.quot_small_iff; lia.
Qed.

Lemma int_trunc_bounds (q : Q) (n : Z) :
  (0 < n)%Z → (-1 < q)%Q → (q < inject_Z n)%Q → (0 ≤ int_trunc q < n)%Z.
Proof.
  destruct q as [a d]. unfold Qlt, int_trunc. simpl. intros Hn Hlo Hhi.
  destruct (Z_lt_le_dec a 0) as [Hneg|Hpos].
  - rewrite (proj2 (Z.quot_small_iff a (Z.pos d) ltac:(lia))) by lia. lia.
  - rewrite Z.quot_div_nonneg by lia. split.
    + apply Z.div_pos; lia.
    + apply Z.div_lt_upper_bound; lia.
Qed.

Lemma in_range_true (v n : Z) : in_range v n = true ↔ (0 ≤ v < n)%Z.
Proof.
  unfold in_range. rewrite andb_true_iff, Z.leb_le, Z.ltb_lt. tauto.
Qed.

Example int_trunc_values :
  int_trunc (27 # 10) = 2%Z ∧ int_trunc (-3 # 10) = 0%Z ∧
  int_trunc (-13 # 10) = (-1)%Z ∧ to_pixel (1 # 2) 10 = 5%Z ∧
  to_pixel 1 10 = 10%Z.
Proof. repeat split; reflexivity. Qed.

Example excluded_landmarks_are_skipped :
  let lm := {| lm_x := 1 # 2; lm_y := 3 # 10 |} in
  sample_landmark grid_image 10 10 32 lm = Some [3; 5; 7]%Z ∧
  sample_landmark grid_image 10 10 33 lm = None ∧
  sample_landmark grid_image 10 10 88 lm = None ∧
  sample_landmark grid_image 10 10 132 lm = None ∧
  sample_landmark grid_image 10 10 133 lm = Some [3; 5; 7]%Z.
Proof. vm_compute. repeat split; reflexivity. Qed.

Example out_of_frame_landmarks_are_discarded :
  sample_from grid_image 10 10 0
    [ {| lm_x := 1 # 10; lm_y := 2 # 10 |};
      {| lm_x := 1; lm_y := 1 # 2 |};
      {| lm_x := -11 # 100; lm_y := 1 # 2 |};
      {| lm_x := 99 # 100; lm_y := 0 |} ]
  = [ [2; 1; 7]; [0; 9; 7] ]%Z.
Proof. vm_compute. reflexivity. Qed.

Lemma sample_landmark_in_range (img : ndarray) (h w : Z) (idx : nat)
    (lm : landmark) :
  idx ∉ exclude →
  in_range (to_pixel (lm_x lm) w) w = true →
  in_range (to_pixel (lm_y lm) h) h = true →
  sample_landmark img h w idx lm
    = Some (px img (to_pixel (lm_y lm) h) (to_pixel (lm_x lm) w)).
Proof.
  intros Hidx Hx Hy. unfold sample_landmark.
  rewrite bool_decide_eq_false_2 by exact Hidx. rewrite Hx, Hy. reflexivity.
Qed.

(** C9. A normalized coordinate [c] whose product with the dimension [n]
    lies strictly between -1 and 0 is converted to the integer 0, which
    passes the bounds check [0 <= 0 < n]; a landmark outside the excluded
    range with such an [x] (respectively [y]) and an in-range other
    coordinate is sampled at pixel column (respectively row) 0, not
    discarded. *)
Theorem negative_fraction_sampled_at_zero (c : Q) (n : Z) :
  (0 ≤ n)%Z →
  (-1 < c * inject_Z n)%Q → (c * inject_Z n < 0)%Q →
  to_pixel c n = 0%Z ∧
  in_range (to_pixel c n) n = true ∧
  (∀ (img : ndarray) (h : Z) (idx : nat) (lm : landmark),
     lm_x lm = c → idx ∉ exclude →
     in_range (to_pixel (lm_y lm) h) h = true →
     sample_landmark img h n idx lm
       = Some (px img (to_pixel (lm_y lm) h) 0)) ∧
  (∀ (img : ndarray) (w : Z) (idx : nat) (lm : landmark),
     lm_y lm = c → idx ∉ exclude →
     in_range (to_pixel (lm_x lm) w) w = true →
     sample_landmark img n w idx lm
       = Some (px img 0 (to_pixel (lm_x lm) w))).
Proof.
  intros Hn Hlo Hneg.
  assert (Hzero : to_pixel c n = 0%Z).
  { apply int_trunc_zero; [exact Hlo|].
    eapply Qlt_trans; [exact Hneg|reflexivity]. }
  assert (Hpos : (0 < n)%Z).
  { destruct (Z.eq_dec n 0%Z) as [-> | Hn0]; [|lia].
    exfalso. destruct c as [a d]. unfold Qlt in Hneg. simpl in Hneg. lia. }
  assert (Hin : in_range (to_pixel c n) n = true)
    by (rewrite Hzero; apply in_range_true; lia).
  split; [exact Hzero|]. split; [exact Hin|]. split.
  - intros img h idx lm <- Hidx Hy.
    rewrite (sample_landmark_in_range img h n idx lm Hidx Hin Hy), Hzero.
    reflexivity.
  - intros img w idx lm <- Hidx Hx.
    rewrite (sample_landmark_in_range img n w idx lm Hidx Hx Hin), Hzero.
    reflexivity.
Qed.

(** Landmark 0 at (-0.03, 0.5) on a 10x10 image: 0.3 pixels left of the
    frame, sampled at column 0 of row 5. *)
Lemma negative_fraction_sampled_at_zero_witness :
  to_pixel (-3 # 100) 10 = 0%Z ∧
  sample_landmark grid_image 10 10 0 {| lm_x := -3 # 100; lm_y := 1 # 2 |}
    = Some [5; 0; 7]%Z.
Proof.
  assert (H0 : 0 ∉ exclude) by (rewrite elem_of_exclude; lia).
  destruct (negative_fraction_sampled_at_zero (-3 # 100) 10
              ltac:(lia) eq_refl eq_refl) as (Hzero & _ & Hcol & _).
  split; [exact Hzero|].
  exact (Hcol grid_image 10%Z 0 {| lm_x := -3 # 100; lm_y := 1 # 2 |}
           eq_refl H0 eq_refl).
Defined.

(** ** Real arithmetic of the weighting *)

Lemma eps_pos : (0 < eps)%R.
Proof. unfold eps. lra. Qed.

Lemma norm3_nonneg (p u : color3) : (0 <= norm3 p u)%R.
Proof. unfold norm3. apply sqrt_pos. Qed.

Lemma norm3_self (p : color3) : norm3 p p = 0%R.
Proof.
  unfold norm3. rewrite <- sqrt_0. f_equal. ring.
Qed.

Lemma norm3_pos (p u : color3) : p ≠ u → (0 < norm3 p u)%R.
Proof.
  intros Hne. destruct (norm3_nonneg p u) as [Hlt|Heq]; [exact Hlt|].
  exfalso. apply Hne. symmetry in Heq. unfold norm3 in Heq.
  destruct p as [[p1 p2] p3], u as [[u1 u2] u3]. simpl in Heq.
  pose proof (Rle_0_sqr (p1 - u1)) as H1.
  pose proof (Rle_0_sqr (p2 - u2)) as H2.
  pose proof (Rle_0_sqr (p3 - u3)) as H3.
  unfold Rsqr in H1, H2, H3.
  apply sqrt_eq_0 in Heq; [|lra].
  assert (p1 = u1) by nra. assert (p2 = u2) by nra. assert (p3 = u3) by nra.
  congruence.
Qed.

Lemma inverse_pos (d : R) : (0 <= d)%R → (0 < 1 / (d + eps))%R.
Proof.
  intros Hd. pose proof eps_pos.
  apply Rdiv_lt_0_compat; lra.
Qed.

(** The weight is antitone in the distance, strictly. *)
Lemma inverse_le (d d' : R) :
  (0 <= d)%R → (0 <= d')%R →
  (d <= d')%R ↔ (1 / (d' + eps) <= 1 / (d + eps))%R.
Proof.
  intros Hd Hd'. pose proof eps_pos.
  unfold Rdiv. rewrite !Rmult_1_l. split.
  - intros Hle. apply Rinv_le_contravar; lra.
  - intros Hle. destruct (Rle_lt_dec d d') as [Hok|Hlt]; [exact Hok|].
    exfalso. assert (/ (d + eps) < / (d' + eps))%R
      by (apply Rinv_lt_contravar; [nra|lra]).
    lra.
Qed.

Lemma Rsum_nil : Rsum [] = 0%R.
Proof. reflexivity. Qed.

Lemma Rsum_cons (x : R) (l : list R) : Rsum (x :: l) = (x + Rsum l)%R.
Proof. reflexivity. Qed.

Lemma Rsum_scale (k : R) (l : list R) :
  Rsum (map (fun x => (x * k)%R) l) = (Rsum l * k)%R.
Proof.
  induction l as [|x l IH].
  - unfold Rsum. simpl. lra.
  - rewrite map_cons, !Rsum_cons, IH. lra.
Qed.

Lemma Rsum_pos (l : list R) :
  l ≠ [] → Forall (fun x => (0 < x)%R) l → (0 < Rsum l)%R.
Proof.
  intros Hne Hall. destruct l as [|x l]; [congruence|].
  clear Hne. revert x Hall. induction l as [|y l IH]; intros x Hall.
  - inversion_clear Hall. unfold Rsum. simpl. lra.
  - inversion_clear Hall. rewrite Rsum_cons.
    specialize (IH y ltac:(assumption)). lra.
Qed.

Lemma inverse_distance_pos (ds : list R) :
  Forall (fun d => (0 <= d)%R) ds →
  Forall (fun x => (0 < x)%R) (inverse_distance ds).
Proof.
  unfold inverse_distance. intros Hall. apply Forall_map.
  eapply Forall_impl; [exact Hall|]. intros d Hd. simpl.
  apply inverse_pos. exact Hd.
Qed.

Lemma normalize_sum (ws : list R) :
  (0 < Rsum ws)%R → Rsum (normalize ws) = 1%R.
Proof.
  intros Hpos. unfold normalize, Rdiv.
  rewrite (Rsum_scale (/ Rsum ws) ws). field. lra.
Qed.

Lemma normalize_pos (ws : list R) :
  ws ≠ [] → Forall (fun x => (0 < x)%R) ws →
  Forall (fun x => (0 < x)%R) (normalize ws).
Proof.
  intros Hne Hall. pose proof (Rsum_pos ws Hne Hall) as Hs.
  unfold normalize. apply Forall_map.
  eapply Forall_impl; [exact Hall|]. intros x Hx. simpl.
  apply Rdiv_lt_0_compat; assumption.
Qed.

Lemma normalize_lookup (ws : list R) (i : nat) :
  normalize ws !! i = (fun x => (x / Rsum ws)%R) <$> ws !! i.
Proof. unfold normalize. apply list_lookup_fmap. Qed.

Lemma inverse_distance_lookup (ds : list R) (i : nat) :
  inverse_distance ds !! i = (fun d => (1 / (d + eps))%R) <$> ds !! i.
Proof. unfold inverse_distance. apply list_lookup_fmap. Qed.

(** ** [np.argmin] returns the first index of the minimum *)

(** A bound on every element of [d :: rest]: the head by arithmetic, the
    tail by the bound [Hmin] on [rest]. *)
Ltac bound_head_and_tail Hmin :=
  let j := fresh "j" in
  let x := fresh "x" in
  let Hx := fresh "Hx" in
  intros [|j] x Hx; simpl in Hx;
  [injection Hx as <-; lra | eapply Hmin; exact Hx].

(** The same below an index: [Hfirst] bounds the tail strictly. *)
Ltac bound_below_index Hfirst :=
  let j := fresh "j" in
  let x := fresh "x" in
  let Hj := fresh "Hj" in
  let Hx := fresh "Hx" in
  intros [|j] x Hj Hx; simpl in Hx;
  [injection Hx as <-; lra | eapply (Hfirst j); [lia|exact Hx]].

Lemma argmin_from_spec (l : list R) (best_i : nat) (best : R) (i : nat) :
  (argmin_from best_i best i l = best_i ∧
     ∀ (j : nat) (x : R), l !! j = Some x → (best <= x)%R) ∨
  (∃ (j : nat) (m : R),
     argmin_from best_i best i l = i + j ∧ l !! j = Some m ∧ (m < best)%R ∧
     (∀ (j' : nat) (x : R), l !! j' = Some x → (m <= x)%R) ∧
     (∀ (j' : nat) (x : R), j' < j → l !! j' = Some x → (m < x)%R)).
Proof.
  revert best_i best i. induction l as [|d rest IH]; intros best_i best i.
  - left. split; [reflexivity|]. intros j x Hj. discriminate.
  - simpl. destruct (Rlt_dec d best) as [Hlt|Hge].
    + right. destruct (IH i d (S i))
        as [[Hk Hmin]|(j & m & Hk & Hj & Hm & Hmin & Hfirst)].
      * exists 0, d. split; [rewrite Hk; lia|]. split; [reflexivity|].
        split; [exact Hlt|]. split; [bound_head_and_tail Hmin|].
        intros j' x Hj'. lia.
      * exists (S j), m. split; [rewrite Hk; lia|]. split; [exact Hj|].
        split; [lra|].
        split; [bound_head_and_tail Hmin|bound_below_index Hfirst].
    + destruct (IH best_i best (S i))
        as [[Hk Hmin]|(j & m & Hk & Hj & Hm & Hmin & Hfirst)].
      * left. split; [exact Hk|]. bound_head_and_tail Hmin.
      * right. exists (S j), m. split; [rewrite Hk; lia|].
        split; [exact Hj|]. split; [exact Hm|].
        split; [bound_head_and_tail Hmin|bound_below_index Hfirst].
Qed.

Lemma argmin_first_minimum (l : list R) :
  l ≠ [] → first_minimum l (argmin l).
Proof.
  destruct l as [|d rest]; [congruence|]. intros _. unfold argmin.
  destruct (argmin_from_spec rest 0 d 1)
    as [[Hk Hmin]|(j & m & Hk & Hj & Hm & Hmin & Hfirst)].
  - rewrite Hk. exists d. split; [reflexivity|].
    split; [bound_head_and_tail Hmin|]. intros j x Hj. lia.
  - rewrite Hk. exists m. split; [exact Hj|].
    split; [bound_head_and_tail Hmin|bound_below_index Hfirst].
Qed.

Example argmin_takes_first_minimum : argmin [3; 1; 2; 1]%R = 1.
Proof.
  unfold argmin. simpl.
  repeat (destruct (Rlt_dec _ _); try lra). reflexivity.
Qed.

Lemma first_minimum_lt_length (l : list R) (k : nat) :
  first_minimum l k → k < length l.
Proof.
  intros (m & Hk & _). eapply lookup_lt_Some. exact Hk.
Qed.

Lemma first_minimum_unique (l : list R) (k k' : nat) :
  first_minimum l k → first_minimum l k' → k = k'.
Proof.
  intros (m & Hk & Hmin & Hfirst) (m' & Hk' & Hmin' & Hfirst').
  destruct (lt_eq_lt_dec k k') as [[Hlt|Heq]|Hgt]; [|exact Heq|].
  - pose proof (Hfirst' k m Hlt Hk). pose proof (Hmin k' m' Hk'). lra.
  - pose proof (Hfirst k' m' Hgt Hk'). pose proof (Hmin' k m Hk). lra.
Qed.

(** ** The composition loop *)

Lemma group_total_cons (g : string) (item : PaletteEntry * R)
    (items : list (PaletteEntry * R)) :
  group_total g (item :: items) =
    if decide (entry_group item.1 = g)
    then (item.2 + group_total g items)%R
    else group_total g items.
Proof.
  unfold group_total. destruct (decide (entry_group item.1 = g)) as [Heq|Hne].
  - rewrite filter_cons_True by exact Heq. reflexivity.
  - rewrite filter_cons_False by exact Hne. reflexivity.
Qed.

Lemma group_percentage_make (g : string) (items : list (PaletteEntry * R)) :
  group_percentage g (map make_composition items)
    = (group_total g items * 100)%R.
Proof.
  induction items as [|item items IH].
  - unfold group_percentage, group_total. simpl. rewrite Rsum_nil. lra.
  - rewrite map_cons, group_total_cons. unfold group_percentage in *.
    destruct (decide (entry_group item.1 = g)) as [Heq|Hne].
    + rewrite filter_cons_True by exact Heq.
      rewrite map_cons, Rsum_cons, IH. simpl. lra.
    + rewrite filter_cons_False by exact Hne. exact IH.
Qed.

Lemma composition_loop_spec (items : list (PaletteEntry * R))
    (gs : gmap string R) (comp : list composition) :
  Forall (fun it => is_Some (gs !! entry_group it.1)) items →
  ∃ gs' : gmap string R,
    composition_loop (gs, comp) items
      = Returned (gs', comp ++ map make_composition items) ∧
    ∀ g : string,
      gs' !! g = (fun v => (v + group_total g items)%R) <$> gs !! g.
Proof.
  revert gs comp. induction items as [|item items IH]; intros gs comp Hkeys.
  - exists gs. split.
    + simpl. rewrite app_nil_r. reflexivity.
    + intros g. unfold group_total. simpl. rewrite Rsum_nil.
      destruct (gs !! g) as [v|]; simpl; [f_equal; lra|reflexivity].
  - inversion_clear Hkeys as [|? ? [v Hv] Hrest].
    cbn [composition_loop]. unfold composition_step at 1. simpl.
    rewrite Hv. simpl.
    destruct (IH (<[entry_group item.1 := (v + item.2)%R]> gs)
                 (comp ++ [make_composition item])) as (gs' & Hloop & Hgs').
    { eapply Forall_impl; [exact Hrest|]. intros it Hit. simpl in *.
      apply lookup_insert_is_Some.
      destruct (decide (entry_group item.1 = entry_group it.1));
        [left; assumption|right; split; assumption]. }
    exists gs'. split.
    + unfold mbind, outcome_bind. unfold make_composition in Hloop.
      rewrite Hloop. rewrite <- app_assoc. reflexivity.
    + intros g. rewrite Hgs', group_total_cons.
      destruct (decide (entry_group item.1 = g)) as [Heq|Hne].
      * subst g. rewrite lookup_insert_eq, Hv. simpl. f_equal. lra.
      * rewrite lookup_insert_ne by exact Hne. reflexivity.
Qed.

(** Every group tag of the catalog is a key of the initial [group_sum]. *)
Lemma palette_groups_known :
  Forall (fun e => entry_group e = "warm" ∨ entry_group e = "cool"
                   ∨ entry_group e = "neutral") skin_palette.
Proof.
  unfold skin_palette.
  repeat (apply Forall_cons; split; [simpl; tauto|]).
  apply Forall_nil_2.
Qed.

Lemma group_sum_init_lookup (g : string) :
  group_sum_init !! g =
    if decide (g = "warm" ∨ g = "cool" ∨ g = "neutral") then Some 0%R
    else None.
Proof.
  unfold group_sum_init.
  destruct (decide (g = "warm")) as [->|Hw]; [reflexivity|].
  destruct (decide (g = "cool")) as [->|Hc]; [reflexivity|].
  destruct (decide (g = "neutral")) as [->|Hn]; [reflexivity|].
  rewrite !lookup_insert_ne by congruence.
  rewrite lookup_singleton_ne by congruence.
  rewrite decide_False by tauto. reflexivity.
Qed.

Lemma zip_groups_known (ws : list R) :
  Forall (fun it : PaletteEntry * R =>
            is_Some (group_sum_init !! entry_group it.1))
         (zip skin_palette ws).
Proof.
  apply Forall_forall. intros [e w] Hin. simpl.
  apply elem_of_zip_l in Hin.
  pose proof (proj1 (Forall_forall _ _) palette_groups_known e Hin) as Hg.
  rewrite group_sum_init_lookup, decide_True by exact Hg. eauto.
Qed.

(** ** The classifier, for arbitrary library functions *)

Section ClassifierFacts.

Variable rgb2lab : color3 -> color3.
Variable cvtColor : ndarray -> outcome ndarray.
Variable process : ndarray -> outcome multi_face_landmarks.

Local Abbreviation palette_lab' := (palette_lab rgb2lab).
Local Abbreviation deltas_of' := (deltas_of rgb2lab).
Local Abbreviation classify' := (classify rgb2lab).
Local Abbreviation analyze' := (analyze_face_color rgb2lab cvtColor process).
Local Abbreviation entry_lab' := (entry_lab rgb2lab).
Local Abbreviation weights_of' := (weights_of rgb2lab).
Local Abbreviation inverse_total' := (inverse_total rgb2lab).
Local Abbreviation classified' := (classified rgb2lab).
Local Abbreviation mean_sampled_color' :=
  (mean_sampled_color rgb2lab cvtColor process).

Lemma palette_lab_lookup (i : nat) :
  palette_lab' !! i = entry_lab' <$> skin_palette !! i.
Proof.
  unfold palette_lab, palette_rgb. rewrite map_map, list_lookup_fmap.
  destruct (skin_palette !! i) as [[[n [[r g] b]] gr]|]; reflexivity.
Qed.

Lemma deltas_of_lookup (u : color3) (i : nat) :
  deltas_of' u !! i = (fun p => norm3 p u) <$> palette_lab' !! i.
Proof. unfold deltas_of. apply list_lookup_fmap. Qed.

Lemma deltas_of_length (u : color3) : length (deltas_of' u) = 12.
Proof. reflexivity. Qed.

Lemma deltas_of_nonneg (u : color3) :
  Forall (fun d => (0 <= d)%R) (deltas_of' u).
Proof.
  unfold deltas_of. apply Forall_map, Forall_forall. intros p _. simpl.
  apply norm3_nonneg.
Qed.

Lemma deltas_of_nonempty (u : color3) : deltas_of' u ≠ [].
Proof. intros H. pose proof (deltas_of_length u) as Hl. rewrite H in Hl. discriminate. Qed.

Lemma inverse_sum_pos (u : color3) :
  (0 < Rsum (inverse_distance (deltas_of' u)))%R.
Proof.
  apply Rsum_pos.
  - intros H. apply (f_equal length) in H. discriminate.
  - apply inverse_distance_pos, deltas_of_nonneg.
Qed.

(** [classify] never raises: the best index is within the catalog and
    every group tag is a key of [group_sum]. *)
Lemma classify_spec (u : color3) :
  ∃ a : analysis, classify' u = Returned (Complete a) ∧ classified' u a.
Proof.
  unfold classify. cbv zeta.
  pose proof (argmin_first_minimum _ (deltas_of_nonempty u)) as Hmin.
  apply first_minimum_lt_length in Hmin. rewrite deltas_of_length in Hmin.
  destruct (lookup_lt_is_Some_2 skin_palette (argmin (deltas_of' u)))
    as [best Hbest]; [exact Hmin|].
  destruct (composition_loop_spec
              (zip skin_palette (weights_of' u)) group_sum_init []
              (zip_groups_known _)) as (gs' & Hloop & Hgs').
  eexists. split.
  - rewrite Hbest. fold (weights_of' u). rewrite Hloop. reflexivity.
  - unfold classified'.
    cbn [raw_best_idx best_match raw_weights detailed_composition
         raw_group_sum warm_cool_neutral_base fst snd app].
    rewrite Hbest.
    repeat split; try reflexivity. exact Hgs'.
Qed.

Lemma classify_complete (u : color3) (a : analysis) :
  classify' u = Returned (Complete a) → classified' u a.
Proof.
  intros Hc. destruct (classify_spec u) as (a' & Hc' & Hspec).
  rewrite Hc in Hc'. injection Hc' as ->. exact Hspec.
Qed.

(** ** From the image to the mean colour *)

Lemma mean_sampled_color_unique (img : ndarray) (u u' : color3) :
  mean_sampled_color' img u → mean_sampled_color' img u' → u = u'.
Proof.
  intros (h & w & c & rgb & lms & rest & labs & Hs & Hc & Hp & _ & Hl & ->)
         (h' & w' & c' & rgb' & lms' & rest' & labs' & Hs' & Hc' & Hp' & _ & Hl' & ->).
  rewrite Hs in Hs'. injection Hs' as <- <- <-.
  rewrite Hc in Hc'. injection Hc' as <-.
  rewrite Hp in Hp'. injection Hp' as <- <-.
  rewrite Hl in Hl'. injection Hl' as <-. reflexivity.
Qed.

Lemma analyze_of_mean (img : ndarray) (u : color3) :
  mean_sampled_color' img u → analyze' img = classify' u.
Proof.
  intros (h & w & c & rgb & lms & rest & labs & Hs & Hc & Hp & Hne & Hl & ->).
  unfold analyze_face_color, after_detection. rewrite Hs. simpl. rewrite Hc. simpl.
  rewrite Hp. simpl.
  destruct (sample_from img h w 0 lms) as [|p ps] eqn:Hsample;
    [congruence|].
  unfold user_lab_of. rewrite Hl. reflexivity.
Qed.

Lemma analyze_complete_inv (img : ndarray) (a : analysis) :
  analyze' img = Returned (Complete a) →
  ∃ u : color3,
    mean_sampled_color' img u ∧ classify' u = Returned (Complete a).
Proof.
  unfold analyze_face_color, after_detection. intros Hrun.
  destruct (shape img) as [|h [|w [|c [|]]]] eqn:Hs;
    simpl in Hrun; try discriminate.
  destruct (cvtColor img) as [rgb|] eqn:Hc; simpl in Hrun; [|discriminate].
  destruct (process rgb) as [[[|lms rest]|]|] eqn:Hp;
    simpl in Hrun; try discriminate.
  destruct (sample_from img h w 0 lms) as [|p ps] eqn:Hsample;
    [discriminate|].
  unfold user_lab_of in Hrun.
  destruct (rgb2lab_rows rgb2lab (bgr_to_rgb (p :: ps))) as [labs|] eqn:Hl;
    simpl in Hrun; [|discriminate].
  exists (mean3 labs). split; [|exact Hrun].
  exists h, w, c, rgb, lms, rest, labs. rewrite Hsample.
  repeat split; try assumption. discriminate.
Qed.

Lemma analyze_complete_classified (img : ndarray) (a : analysis) :
  analyze' img = Returned (Complete a) →
  ∃ u : color3, mean_sampled_color' img u ∧ classified' u a.
Proof.
  intros Hrun. destruct (analyze_complete_inv img a Hrun) as (u & Hu & Hc).
  exists u. split; [exact Hu|]. apply classify_complete. exact Hc.
Qed.

(** ** Composition entries against weights and catalog *)

Lemma percentages_of_zip (ws : list R) :
  length ws ≤ length skin_palette →
  map percentage (map make_composition (zip skin_palette ws))
    = map (fun x => (x * 100)%R) ws.
Proof.
  intros Hlen. rewrite map_map.
  rewrite <- (snd_zip skin_palette ws Hlen) at 2.
  rewrite map_map. reflexivity.
Qed.

Lemma tags_of_zip (ws : list R) :
  length skin_palette ≤ length ws →
  map (fun c => (name c, group c)) (map make_composition (zip skin_palette ws))
    = map (fun e => (entry_name e, entry_group e)) skin_palette.
Proof.
  intros Hlen. rewrite map_map.
  rewrite <- (fst_zip skin_palette ws Hlen) at 2.
  rewrite map_map. reflexivity.
Qed.

Lemma composition_lookup (ws : list R) (i : nat) (e : PaletteEntry) (x : R) :
  skin_palette !! i = Some e → ws !! i = Some x →
  map make_composition (zip skin_palette ws) !! i
    = Some (make_composition (e, x)).
Proof.
  intros He Hx. rewrite list_lookup_fmap.
  rewrite lookup_zip_with, He. simpl. rewrite Hx. reflexivity.
Qed.

Lemma inverse_distance_deltas (u : color3) :
  inverse_distance (deltas_of' u)
    = map (fun q => (1 / (norm3 q u + eps))%R) palette_lab'.
Proof. unfold inverse_distance, deltas_of. rewrite map_map. reflexivity. Qed.

Lemma weights_of_lookup (u : color3) (i : nat) (p : color3) :
  palette_lab' !! i = Some p →
  weights_of' u !! i
    = Some (1 / (norm3 p u + eps)
            / Rsum (map (fun q => (1 / (norm3 q u + eps))%R) palette_lab'))%R.
Proof.
  intros Hp. unfold weights_of'.
  rewrite normalize_lookup, inverse_distance_lookup, deltas_of_lookup, Hp.
  rewrite inverse_distance_deltas. reflexivity.
Qed.

Lemma weights_of_sum (u : color3) : Rsum (weights_of' u) = 1%R.
Proof. apply normalize_sum, inverse_sum_pos. Qed.

Lemma weights_of_pos (u : color3) :
  Forall (fun x => (0 < x)%R) (weights_of' u).
Proof.
  apply normalize_pos.
  - intros H. apply (f_equal length) in H. discriminate.
  - apply inverse_distance_pos, deltas_of_nonneg.
Qed.

(** C1. In a completed analysis the weight of catalog index [i] is
    [1 / (d_i + eps)] divided by the sum of these terms over the twelve
    catalog entries, where [d_i] is the Euclidean Lab distance from the
    mean sampled colour to entry [i] and [eps] is one millionth; the
    percentage of entry [i] is this weight times 100 and is positive; the
    twelve weights sum to 1 and the twelve percentages to 100. *)
Theorem weights_are_normalized_inverse_distances
    (img : ndarray) (a : analysis) :
  analyze' img = Returned (Complete a) →
  ∃ u : color3,
    mean_sampled_color' img u ∧
    eps = (1 / 1000000)%R ∧
    length (raw_weights a) = 12 ∧
    length (detailed_composition a) = 12 ∧
    (∀ (i : nat) (p : color3),
       palette_lab' !! i = Some p →
       ∃ c : composition,
         raw_weights a !! i
           = Some (1 / (norm3 p u + eps)
                   / Rsum (map (fun q => (1 / (norm3 q u + eps))%R)
                               palette_lab'))%R ∧
         detailed_composition a !! i = Some c ∧
         percentage c
           = (1 / (norm3 p u + eps)
              / Rsum (map (fun q => (1 / (norm3 q u + eps))%R) palette_lab')
              * 100)%R ∧
         (0 < percentage c)%R) ∧
    Rsum (raw_weights a) = 1%R ∧
    Rsum (map percentage (detailed_composition a)) = 100%R.
Proof.
  intros Hrun.
  destruct (analyze_complete_classified img a Hrun)
    as (u & Hu & _ & _ & Hw & Hd & _ & _).
  exists u. split; [exact Hu|]. split; [reflexivity|].
  rewrite Hw, Hd. split; [reflexivity|]. split; [reflexivity|].
  split; [|split].
  - intros i p Hp. pose proof (weights_of_lookup u i p Hp) as Hwi.
    pose proof Hp as Hp'. rewrite palette_lab_lookup in Hp'.
    destruct (skin_palette !! i) as [e|] eqn:He; [|discriminate].
    eexists. split; [exact Hwi|]. split.
    + apply (composition_lookup _ _ _ _ He Hwi).
    + split; [reflexivity|]. simpl.
      pose proof (proj1 (Forall_lookup _ _) (weights_of_pos u) i _ Hwi).
      simpl in *. lra.
  - apply weights_of_sum.
  - rewrite percentages_of_zip by reflexivity.
    rewrite Rsum_scale, weights_of_sum. lra.
Qed.

(** ** Best match *)

Lemma inverse_total_pos (u : color3) : (0 < inverse_total' u)%R.
Proof.
  unfold inverse_total'. rewrite <- inverse_distance_deltas.
  apply inverse_sum_pos.
Qed.

Lemma composition_at (u : color3) (i : nat) (e : PaletteEntry) :
  skin_palette !! i = Some e →
  map make_composition (zip skin_palette (weights_of' u)) !! i
    = Some (make_composition
              (e, (1 / (norm3 (entry_lab' e) u + eps) / inverse_total' u)%R)).
Proof.
  intros He. apply composition_lookup; [exact He|].
  apply weights_of_lookup. rewrite palette_lab_lookup, He. reflexivity.
Qed.

(** A larger share means a smaller distance, and conversely. *)
Lemma share_le_iff (u p q : color3) :
  (1 / (norm3 p u + eps) / inverse_total' u * 100
   <= 1 / (norm3 q u + eps) / inverse_total' u * 100)%R
  ↔ (norm3 q u <= norm3 p u)%R.
Proof.
  pose proof (inverse_total_pos u) as Hs.
  rewrite (inverse_le (norm3 q u) (norm3 p u)
             (norm3_nonneg q u) (norm3_nonneg p u)).
  pose proof (Rinv_0_lt_compat _ Hs) as Hi.
  unfold Rdiv at 1 3. split; intros H; nra.
Qed.

Lemma share_lt_iff (u p q : color3) :
  (1 / (norm3 p u + eps) / inverse_total' u * 100
   < 1 / (norm3 q u + eps) / inverse_total' u * 100)%R
  ↔ (norm3 q u < norm3 p u)%R.
Proof.
  pose proof (share_le_iff u q p) as Hle. split; intros H.
  - apply Rnot_le_lt. intros Hc. apply Hle in Hc. lra.
  - apply Rnot_le_lt. intros Hc. apply Hle in Hc. lra.
Qed.

Lemma first_minimum_palette (u : color3) (k : nat) :
  first_minimum (deltas_of' u) k →
  ∃ best : PaletteEntry,
    skin_palette !! k = Some best ∧
    (∀ (j : nat) (e : PaletteEntry),
       skin_palette !! j = Some e →
       (norm3 (entry_lab' best) u <= norm3 (entry_lab' e) u)%R) ∧
    (∀ (j : nat) (e : PaletteEntry),
       j < k → skin_palette !! j = Some e →
       (norm3 (entry_lab' best) u < norm3 (entry_lab' e) u)%R).
Proof.
  intros (m & Hk & Hmin & Hfirst).
  rewrite deltas_of_lookup, palette_lab_lookup in Hk.
  destruct (skin_palette !! k) as [best|] eqn:Hbest; [|discriminate].
  simpl in Hk. injection Hk as <-.
  exists best. split; [reflexivity|]. split.
  - intros j e He. apply (Hmin j).
    rewrite deltas_of_lookup, palette_lab_lookup, He. reflexivity.
  - intros j e Hj He. apply (Hfirst j); [exact Hj|].
    rewrite deltas_of_lookup, palette_lab_lookup, He. reflexivity.
Qed.

(** C2. In a completed analysis [best_match] is the name of the catalog
    entry at [best_idx], whose Euclidean Lab distance to the mean sampled
    colour is at most that of every entry and strictly below that of
    every entry of lower index; its weight and percentage are the largest
    of the composition; and an entry is at minimum distance exactly when
    its percentage is the largest. *)
Theorem best_match_is_first_nearest_entry (img : ndarray) (a : analysis) :
  analyze' img = Returned (Complete a) →
  ∃ (u : color3) (best : PaletteEntry) (cb : composition) (wb : R),
    mean_sampled_color' img u ∧
    skin_palette !! raw_best_idx a = Some best ∧
    best_match a = entry_name best ∧
    (∀ (j : nat) (e : PaletteEntry),
       skin_palette !! j = Some e →
       (norm3 (entry_lab' best) u <= norm3 (entry_lab' e) u)%R) ∧
    (∀ (j : nat) (e : PaletteEntry),
       j < raw_best_idx a → skin_palette !! j = Some e →
       (norm3 (entry_lab' best) u < norm3 (entry_lab' e) u)%R) ∧
    detailed_composition a !! raw_best_idx a = Some cb ∧
    name cb = best_match a ∧
    raw_weights a !! raw_best_idx a = Some wb ∧
    (∀ (j : nat) (x : R), raw_weights a !! j = Some x → (x <= wb)%R) ∧
    (∀ (j : nat) (c : composition),
       detailed_composition a !! j = Some c →
       (percentage c <= percentage cb)%R) ∧
    (∀ (k : nat) (e : PaletteEntry) (c : composition),
       skin_palette !! k = Some e →
       detailed_composition a !! k = Some c →
       (∀ (j : nat) (e' : PaletteEntry),
          skin_palette !! j = Some e' →
          (norm3 (entry_lab' e) u <= norm3 (entry_lab' e') u)%R)
       ↔ (∀ (j : nat) (c' : composition),
            detailed_composition a !! j = Some c' →
            (percentage c' <= percentage c)%R)).
Proof.
  intros Hrun.
  destruct (analyze_complete_classified img a Hrun)
    as (u & Hu & Hidx & Hname & Hw & Hd & _ & _).
  pose proof (argmin_first_minimum _ (deltas_of_nonempty u)) as Hmin.
  rewrite <- Hidx in Hmin, Hname.
  destruct (first_minimum_palette u _ Hmin) as (best & Hbest & Hle & Hlt).
  rewrite Hbest in Hname. simpl in Hname. injection Hname as Hname.
  (* every composition entry is the share of its catalog entry *)
  assert (Hshare : ∀ (j : nat) (e : PaletteEntry) (c : composition),
             skin_palette !! j = Some e →
             detailed_composition a !! j = Some c →
             c = make_composition
                   (e, (1 / (norm3 (entry_lab' e) u + eps)
                        / inverse_total' u)%R)).
  { intros j e c He Hc. rewrite Hd, (composition_at u j e He) in Hc.
    injection Hc as <-. reflexivity. }
  assert (Hentry : ∀ (j : nat) (c : composition),
             detailed_composition a !! j = Some c →
             ∃ e : PaletteEntry, skin_palette !! j = Some e).
  { intros j c Hc. apply lookup_lt_is_Some_2.
    apply lookup_lt_Some in Hc. rewrite Hd in Hc. exact Hc. }
  exists u, best, (make_composition
     (best, (1 / (norm3 (entry_lab' best) u + eps) / inverse_total' u)%R)),
    (1 / (norm3 (entry_lab' best) u + eps) / inverse_total' u)%R.
  split; [exact Hu|]. split; [exact Hbest|]. split; [auto|].
  split; [exact Hle|]. split; [exact Hlt|].
  split; [rewrite Hd; apply composition_at; exact Hbest|].
  split; [auto|].
  split; [rewrite Hw; apply weights_of_lookup;
          rewrite palette_lab_lookup, Hbest; reflexivity|].
  split; [|split].
  - intros j x Hx. rewrite Hw in Hx.
    destruct (lookup_lt_is_Some_2 skin_palette j) as [e He].
    { apply lookup_lt_Some in Hx. exact Hx. }
    rewrite (weights_of_lookup u j (entry_lab' e)) in Hx
      by (rewrite palette_lab_lookup, He; reflexivity).
    apply (inj Some) in Hx. subst x.
    pose proof (proj2 (share_le_iff u (entry_lab' e) (entry_lab' best))
                  (Hle j e He)) as Hshare_le.
    unfold inverse_total' in *. lra.
  - intros j c Hc. destruct (Hentry j c Hc) as [e He].
    rewrite (Hshare j e c He Hc). simpl.
    apply share_le_iff. apply (Hle j e He).
  - intros k e c He Hc. rewrite (Hshare k e c He Hc). simpl. split.
    + intros Hnear j c' Hc'. destruct (Hentry j c' Hc') as [e' He'].
      rewrite (Hshare j e' c' He' Hc'). simpl.
      apply share_le_iff. apply (Hnear j e' He').
    + intros Hmax j e' He'.
      pose proof (composition_at u j e' He') as Hc'. rewrite <- Hd in Hc'.
      specialize (Hmax j _ Hc'). simpl in Hmax.
      apply share_le_iff in Hmax. exact Hmax.
Qed.

(** ** Group sums *)

Lemma group_total_partition (items : list (PaletteEntry * R)) :
  Forall (fun it : PaletteEntry * R =>
            entry_group it.1 = "warm" ∨ entry_group it.1 = "cool"
            ∨ entry_group it.1 = "neutral") items →
  (group_total "warm" items + group_total "cool" items
   + group_total "neutral" items)%R = Rsum (map snd items).
Proof.
  induction 1 as [|item items Hg _ IH].
  - unfold group_total. simpl. rewrite !Rsum_nil. lra.
  - rewrite !group_total_cons, map_cons, Rsum_cons, <- IH.
    destruct Hg as [Hg|[Hg|Hg]]; rewrite Hg;
      repeat case_decide; try discriminate; try congruence; lra.
Qed.

Lemma zip_groups_tagged (ws : list R) :
  Forall (fun it : PaletteEntry * R =>
            entry_group it.1 = "warm" ∨ entry_group it.1 = "cool"
            ∨ entry_group it.1 = "neutral") (zip skin_palette ws).
Proof.
  apply Forall_forall. intros [e w] Hin. simpl.
  apply elem_of_zip_l in Hin.
  exact (proj1 (Forall_forall _ _) palette_groups_known e Hin).
Qed.

Lemma base_lookup (u : color3) (a : analysis) (g : string) :
  classified' u a →
  warm_cool_neutral_base a !! g =
    if decide (g = "warm" ∨ g = "cool" ∨ g = "neutral")
    then Some (group_percentage g (detailed_composition a))
    else None.
Proof.
  intros (_ & _ & _ & Hd & Hraw & Hbase).
  rewrite Hbase, lookup_fmap, Hraw, group_sum_init_lookup, Hd.
  rewrite group_percentage_make.
  case_decide; simpl; [f_equal; lra|reflexivity].
Qed.

(** C5. In a completed analysis [warm_cool_neutral_base] has exactly the
    keys warm, cool and neutral; the value of each is the sum of the
    percentages of the composition entries tagged with it; and the three
    values sum to 100. *)
Theorem group_base_sums_tagged_percentages (img : ndarray) (a : analysis) :
  analyze' img = Returned (Complete a) →
  ∃ warm cool neutral : R,
    warm_cool_neutral_base a !! "warm" = Some warm ∧
    warm_cool_neutral_base a !! "cool" = Some cool ∧
    warm_cool_neutral_base a !! "neutral" = Some neutral ∧
    (∀ g : string,
       is_Some (warm_cool_neutral_base a !! g) →
       g = "warm" ∨ g = "cool" ∨ g = "neutral") ∧
    warm = group_percentage "warm" (detailed_composition a) ∧
    cool = group_percentage "cool" (detailed_composition a) ∧
    neutral = group_percentage "neutral" (detailed_composition a) ∧
    (warm + cool + neutral = 100)%R.
Proof.
  intros Hrun.
  destruct (analyze_complete_classified img a Hrun) as (u & _ & Hcl).
  pose proof (base_lookup u a "warm" Hcl) as Hw.
  pose proof (base_lookup u a "cool" Hcl) as Hc.
  pose proof (base_lookup u a "neutral" Hcl) as Hn.
  rewrite decide_True in Hw by auto.
  rewrite decide_True in Hc by auto.
  rewrite decide_True in Hn by auto.
  eexists _, _, _.
  split; [exact Hw|]. split; [exact Hc|]. split; [exact Hn|].
  split; [|split; [reflexivity|split; [reflexivity|split; [reflexivity|]]]].
  - intros g [v Hv]. rewrite (base_lookup u a g Hcl) in Hv.
    case_decide; [assumption|discriminate].
  - destruct Hcl as (_ & _ & _ & Hd & _ & _). rewrite Hd.
    rewrite !group_percentage_make.
    pose proof (group_total_partition _ (zip_groups_tagged (weights_of' u)))
      as Hpart.
    assert (Hsnd : map snd (zip skin_palette (weights_of' u)) = weights_of' u)
      by (apply snd_zip; reflexivity).
    rewrite Hsnd, weights_of_sum in Hpart. lra.
Qed.

(** ** Catalog order *)

(** C6. The catalog has 12 entries and the Lab array has 12 rows, row [i]
    being the Lab colour of entry [i]; in a completed analysis the
    composition has 12 entries, entry [i] carrying the name and the group
    of catalog entry [i]. *)
Theorem composition_follows_catalog_order (img : ndarray) (a : analysis) :
  analyze' img = Returned (Complete a) →
  length skin_palette = 12 ∧
  length palette_lab' = length skin_palette ∧
  (∀ i : nat, palette_lab' !! i = entry_lab' <$> skin_palette !! i) ∧
  length (detailed_composition a) = 12 ∧
  (∀ i : nat,
     (fun c => (name c, group c)) <$> detailed_composition a !! i
       = (fun e => (entry_name e, entry_group e)) <$> skin_palette !! i).
Proof.
  intros Hrun.
  destruct (analyze_complete_classified img a Hrun)
    as (u & _ & _ & _ & _ & Hd & _ & _).
  split; [reflexivity|]. split; [reflexivity|].
  split; [exact palette_lab_lookup|]. rewrite Hd.
  split; [reflexivity|].
  intros i. rewrite <- !list_lookup_fmap.
  exact (f_equal (fun l => l !! i) (tags_of_zip (weights_of' u) (le_n 12))).
Qed.

(** ** Tagged errors *)

Lemma sample_from_channels (img : ndarray) (h w : Z)
    (lms : list landmark) (idx : nat) :
  bgr_image img h w →
  Forall (fun p => length p = 3) (sample_from img h w idx lms).
Proof.
  intros [_ Hpx]. revert idx.
  induction lms as [|lm rest IH]; intros idx; simpl.
  - apply Forall_nil_2.
  - unfold sample_landmark at 1. destruct (bool_decide (idx ∈ exclude)).
    + apply IH.
    + destruct (in_range (to_pixel (lm_x lm) w) w) eqn:Hx;
        destruct (in_range (to_pixel (lm_y lm) h) h) eqn:Hy; simpl;
        try apply IH.
      apply Forall_cons. split; [|apply IH].
      apply Hpx; apply in_range_true; assumption.
Qed.

Lemma rgb2lab_rows_returns (pixels : list (list Z)) :
  Forall (fun p => length p = 3) pixels →
  ∃ labs : list color3,
    rgb2lab_rows rgb2lab (bgr_to_rgb pixels) = Returned labs ∧
    length labs = length pixels.
Proof.
  induction 1 as [|p pixels Hp _ (labs & Hlabs & Hlen)].
  - exists []. split; reflexivity.
  - destruct p as [|b [|g [|r [|]]]]; try discriminate.
    exists (rgb2lab (scale255 r, scale255 g, scale255 b) :: labs).
    unfold bgr_to_rgb in *. simpl. rewrite Hlabs. simpl.
    split; [reflexivity|]. rewrite Hlen. reflexivity.
Qed.

(** C3. On a three-channel image for which the colour conversion and the
    detector return, the classifier returns (it does not raise): the error
    dict with the no-face message when the detector reports no face, the
    error dict with the no-valid-skin-pixels message when a face is
    reported and no landmark survives the exclusion and the bounds check,
    and a dict of status [analysis_complete] in every other case.  An
    error dict holds its status and message only. *)
Theorem expected_conditions_return_tagged_results
    (img rgb_img : ndarray) (h w : Z) (results : multi_face_landmarks) :
  bgr_image img h w →
  cvtColor img = Returned rgb_img →
  process rgb_img = Returned results →
  ∃ r : result,
    analyze' img = Returned r ∧
    match results with
    | None | Some [] =>
        r = Error "No face detected in the image." ∧ status r = "error"
    | Some (landmarks :: _) =>
        match sample_from img h w 0 landmarks with
        | [] =>
            r = Error "Face detected, but no valid skin pixels found." ∧
            status r = "error"
        | _ :: _ =>
            (∃ a : analysis, r = Complete a) ∧
            status r = "analysis_complete"
        end
    end.
Proof.
  intros Himg Hc Hp. pose proof Himg as [Hs _].
  unfold analyze_face_color, after_detection. rewrite Hs. simpl. rewrite Hc. simpl.
  rewrite Hp. simpl.
  destruct results as [[|lms rest]|].
  - eexists. split; [reflexivity|]. split; reflexivity.
  - pose proof (sample_from_channels img h w lms 0 Himg) as Hch.
    destruct (sample_from img h w 0 lms) as [|p ps] eqn:Hsample.
    + eexists. split; [reflexivity|]. split; reflexivity.
    + destruct (rgb2lab_rows_returns _ Hch) as (labs & Hlabs & _).
      unfold user_lab_of. rewrite Hlabs. simpl.
      destruct (classify_spec (mean3 labs)) as (a & Ha & _).
      exists (Complete a). split; [exact Ha|].
      split; [exists a|]; reflexivity.
  - eexists. split; [reflexivity|]. split; reflexivity.
Qed.

(** ** The Honey scenario *)

Lemma mean3_singleton (p : color3) : mean3 [p] = p.
Proof.
  destruct p as [[l a] b]. unfold mean3, Rsum. simpl.
  f_equal; [f_equal|]; lra.
Qed.

Lemma honey_index (i : nat) (e : PaletteEntry) :
  skin_palette !! i = Some e → entry_name e = "Honey" ↔ i = 7.
Proof.
  intros He.
  do 12 (destruct i as [|i];
         [injection He as <-; split; [discriminate || reflexivity
                                     | discriminate || reflexivity]|]).
  discriminate.
Qed.

Lemma honey_entry_lab :
  ∃ e : PaletteEntry,
    skin_palette !! 7 = Some e ∧ entry_name e = "Honey" ∧
    entry_lab' e = rgb2lab honey_rgb.
Proof. eexists. split; [reflexivity|]. split; reflexivity. Qed.

(** C4. A 10x10 three-channel image that holds the colour of "Honey" in
    every pixel (as the pixel [105, 130, 175], OpenCV images being in
    blue-green-red order), with a detector that reports one face of one
    landmark at (0.5, 0.5): provided the Lab transform separates "Honey"
    from the other eleven catalog colours, the analysis completes with
    best match "Honey", and the percentage of "Honey" is strictly above
    the eleven others. *)
Theorem honey_image_matches_honey (img rgb_img : ndarray) :
  shape img = [10; 10; 3]%Z →
  (∀ y x : Z, (0 ≤ y < 10)%Z → (0 ≤ x < 10)%Z →
     px img y x = [105; 130; 175]%Z) →
  cvtColor img = Returned rgb_img →
  process rgb_img
    = Returned (Some [[ {| lm_x := 1 # 2; lm_y := 1 # 2 |} ]]) →
  (∀ e : PaletteEntry,
     e ∈ skin_palette → entry_name e ≠ "Honey" →
     entry_lab' e ≠ rgb2lab honey_rgb) →
  ∃ (a : analysis) (honey : composition),
    analyze' img = Returned (Complete a) ∧
    best_match a = "Honey" ∧
    raw_best_idx a = 7 ∧
    length (detailed_composition a) = 12 ∧
    detailed_composition a !! 7 = Some honey ∧
    name honey = "Honey" ∧
    (∀ (i : nat) (c : composition),
       detailed_composition a !! i = Some c → i ≠ 7 →
       (percentage c < percentage honey)%R).
Proof.
  intros Hs Hpx Hc Hp Hsep.
  set (u := rgb2lab honey_rgb).
  assert (Hsample : sample_from img 10 10 0
                      [ {| lm_x := 1 # 2; lm_y := 1 # 2 |} ]
                    = [[105; 130; 175]%Z]).
  { simpl. unfold sample_landmark.
    rewrite bool_decide_eq_false_2 by (rewrite elem_of_exclude; lia).
    simpl. change (to_pixel (1 # 2) 10) with 5%Z. simpl.
    rewrite Hpx by lia. reflexivity. }
  assert (Hmean : mean_sampled_color' img u).
  { exists 10%Z, 10%Z, 3%Z, rgb_img,
      [ {| lm_x := 1 # 2; lm_y := 1 # 2 |} ], [], [u].
    rewrite Hsample. repeat split; try assumption; try discriminate.
    symmetry. apply mean3_singleton. }
  rewrite (analyze_of_mean img u Hmean).
  destruct (classify_spec u) as (a & Ha & Hcl).
  destruct honey_entry_lab as (eh & Heh & Hname & Hlab). fold u in Hlab.
  assert (Hfar : ∀ (i : nat) (e : PaletteEntry),
             skin_palette !! i = Some e → i ≠ 7 →
             (0 < norm3 (entry_lab' e) u)%R).
  { intros i e He Hi. apply norm3_pos. apply Hsep.
    - eapply list_elem_of_lookup_2. exact He.
    - intros Hn. apply (honey_index i e He) in Hn. contradiction. }
  assert (Hzero : norm3 (entry_lab' eh) u = 0%R)
    by (rewrite Hlab; apply norm3_self).
  destruct Hcl as (Hidx & Hbest & _ & Hd & _ & _).
  exists a, (make_composition
     (eh, (1 / (norm3 (entry_lab' eh) u + eps) / inverse_total' u)%R)).
  assert (H7 : argmin (deltas_of' u) = 7).
  { pose proof (argmin_first_minimum _ (deltas_of_nonempty u)) as Hmin.
    destruct (first_minimum_palette u _ Hmin) as (best & Hk & Hle & _).
    destruct (decide (argmin (deltas_of' u) = 7)) as [H7|H7]; [exact H7|].
    pose proof (Hfar _ best Hk H7). pose proof (Hle 7 eh Heh). lra. }
  rewrite H7, Heh in Hbest. simpl in Hbest. injection Hbest as Hbest.
  split; [exact Ha|]. split; [|split; [|split; [|split; [|split]]]].
  - rewrite <- Hbest. exact Hname.
  - rewrite Hidx. exact H7.
  - rewrite Hd. reflexivity.
  - rewrite Hd. apply composition_at. exact Heh.
  - exact Hname.
  - intros i c Hic Hi. rewrite Hd in Hic.
    destruct (lookup_lt_is_Some_2 skin_palette i) as [e He].
    { apply lookup_lt_Some in Hic. exact Hic. }
    rewrite (composition_at u i e He) in Hic. apply (inj Some) in Hic.
    subst c. simpl. apply share_lt_iff.
    rewrite Hzero. apply (Hfar i e He Hi).
Qed.

(** ** Malformed images *)

(** C8, amended. The classifier validates nothing itself: when the
    shape tuple of the image does not have three components the
    unpacking raises [ValueError], and when the colour conversion raises,
    its exception reaches the caller.  No error dict is returned in
    either case. *)
Theorem malformed_image_raises (img : ndarray) :
  length (shape img) ≠ 3 ∨ (∃ e : exn, cvtColor img = Raised e) →
  ∃ e : exn,
    analyze' img = Raised e ∧
    (length (shape img) ≠ 3 → e = ValueError) ∧
    (length (shape img) = 3 → cvtColor img = Raised e) ∧
    (∀ r : result, analyze' img ≠ Returned r).
Proof.
  intros Hbad. unfold analyze_face_color, after_detection.
  destruct (shape img) as [|h [|w [|c [|]]]] eqn:Hs; simpl;
    try (exists ValueError; repeat split; try discriminate; congruence).
  destruct Hbad as [Hlen|[e He]]; [simpl in Hlen; lia|].
  exists e. rewrite He. simpl.
  repeat split; try discriminate; congruence.
Qed.

End ClassifierFacts.

(** ** Determinism *)




(** ** The CIE L*a*b* instance separates the catalog colours *)

Lemma scale255_lt (v v' : Z) : (v < v')%Z → (scale255 v < scale255 v')%R.
Proof. intros H. apply IZR_lt in H. unfold scale255. lra. Qed.

Lemma scale255_ge_60 (v : Z) : (60 ≤ v)%Z → (60 / 255 <= scale255 v)%R.
Proof. intros H. apply IZR_le in H. unfold scale255. lra. Qed.

Lemma srgb_linear_gamma (c : R) :
  (60 / 255 <= c)%R → srgb_linear c = Rpower ((c + 0.055) / 1.055) 2.4.
Proof.
  intros Hc. unfold srgb_linear.
  destruct (Rlt_dec 0.04045 c) as [_|Hn]; [reflexivity|]. exfalso. lra.
Qed.

Lemma srgb_linear_lt (c c' : R) :
  (60 / 255 <= c)%R → (c < c')%R → (srgb_linear c < srgb_linear c')%R.
Proof.
  intros Hc Hlt. rewrite !srgb_linear_gamma by lra.
  apply Rlt_Rpower_l; lra.
Qed.

(** Below 1 the power 2.4 stays above the cube. *)
Lemma Rpower_ge_cube (x : R) :
  (0 < x)%R → (x <= 1)%R → (x * x * x <= Rpower x 2.4)%R.
Proof.
  intros Hpos Hle.
  replace (x * x * x)%R with (Rpower x (INR 3))
    by (rewrite Rpower_pow by exact Hpos; simpl; lra).
  unfold Rpower.
  assert (Hln : (ln x <= 0)%R).
  { destruct Hle as [Hlt | ->]; [|rewrite ln_1; lra].
    rewrite <- ln_1. left. apply ln_increasing; assumption. }
  assert (Harg : (INR 3 * ln x <= 2.4 * ln x)%R) by (simpl; nra).
  destruct Harg as [Hlt|Heq]; [left; apply exp_increasing; exact Hlt|].
  rewrite Heq. lra.
Qed.

Lemma srgb_linear_low (c : R) :
  (60 / 255 <= c)%R → (0.02 < srgb_linear c)%R.
Proof.
  intros Hc.
  assert (Hbase : (0.02 < srgb_linear (60 / 255))%R).
  { rewrite srgb_linear_gamma by lra.
    eapply Rlt_le_trans; [|apply Rpower_ge_cube; lra]. lra. }
  destruct Hc as [Hlt | <-]; [|exact Hbase].
  pose proof (srgb_linear_lt (60 / 255) c ltac:(lra) Hlt). lra.
Qed.

Lemma lab_f_lt (t t' : R) :
  (0.02 < t)%R → (t < t')%R → (lab_f t < lab_f t')%R.
Proof.
  intros Ht Hlt. unfold lab_f.
  destruct (Rlt_dec 0.008856 t) as [_|Hn]; [|exfalso; lra].
  destruct (Rlt_dec 0.008856 t') as [_|Hn]; [|exfalso; lra].
  apply Rlt_Rpower_l; lra.
Qed.

(** Lightness grows with the three channels, from 60 upwards. *)
Lemma lightness_lt (r g b r' g' b' : Z) :
  (60 ≤ r < r')%Z → (60 ≤ g < g')%Z → (60 ≤ b < b')%Z →
  ((cielab (scale255 r, scale255 g, scale255 b)).1.1
   < (cielab (scale255 r', scale255 g', scale255 b')).1.1)%R.
Proof.
  intros [Hr Hr'] [Hg Hg'] [Hb Hb']. unfold cielab. cbn [fst snd].
  pose proof (srgb_linear_low _ (scale255_ge_60 r Hr)).
  pose proof (srgb_linear_low _ (scale255_ge_60 g Hg)).
  pose proof (srgb_linear_low _ (scale255_ge_60 b Hb)).
  pose proof (srgb_linear_lt _ _ (scale255_ge_60 r Hr) (scale255_lt _ _ Hr')).
  pose proof (srgb_linear_lt _ _ (scale255_ge_60 g Hg) (scale255_lt _ _ Hg')).
  pose proof (srgb_linear_lt _ _ (scale255_ge_60 b Hb) (scale255_lt _ _ Hb')).
  match goal with
  | |- (116 * lab_f ?y - 16 < 116 * lab_f ?y' - 16)%R =>
      pose proof (lab_f_lt y y' ltac:(lra) ltac:(lra))
  end.
  lra.
Qed.

Lemma cielab_separates_honey (e : PaletteEntry) :
  e ∈ skin_palette → entry_name e ≠ "Honey" →
  entry_lab cielab e ≠ cielab honey_rgb.
Proof.
  intros He Hname Heq. apply (f_equal (fun c : color3 => c.1.1)) in Heq.
  unfold skin_palette in He.
  repeat (apply elem_of_cons in He as [->|He]);
    try (apply elem_of_nil in He; contradiction);
    try (apply Hname; reflexivity);
    unfold entry_lab, entry_rgb, honey_rgb in Heq; cbn [fst snd] in Heq.
  all: first
    [ pose proof (lightness_lt 175 130 105) as Hl;
      match type of Heq with
      | (cielab (scale255 ?r, scale255 ?g, scale255 ?b)).1.1 = _ =>
          specialize (Hl r g b ltac:(lia) ltac:(lia) ltac:(lia))
      end; lra
    | match type of Heq with
      | (cielab (scale255 ?r, scale255 ?g, scale255 ?b)).1.1 = _ =>
          pose proof (lightness_lt r g b 175 130 105
                        ltac:(lia) ltac:(lia) ltac:(lia))
      end; lra ].
Qed.

(** ** The classifier on the concrete inputs *)

Lemma honey_image_bgr : bgr_image honey_image 10 10.
Proof. split; [reflexivity|]. intros y x _ _. reflexivity. Qed.

Lemma center_face_in_frame : 0 ∉ exclude.
Proof. rewrite elem_of_exclude. lia. Qed.

Lemma honey_center_sample :
  sample_from honey_image 10 10 0 center_face = [[105; 130; 175]%Z].
Proof.
  unfold center_face. simpl. unfold sample_landmark.
  rewrite bool_decide_eq_false_2 by exact center_face_in_frame.
  reflexivity.
Qed.

Lemma honey_outside_sample :
  sample_from honey_image 10 10 0 outside_face = [].
Proof.
  unfold outside_face. simpl. unfold sample_landmark.
  rewrite bool_decide_eq_false_2 by exact center_face_in_frame.
  reflexivity.
Qed.

(** The analysis of the Honey image with the centre landmark completes. *)
Lemma honey_completes :
  ∃ a : analysis,
    analyze_face_color cielab bgr2rgb (fixed_detector (Some [center_face]))
      honey_image = Returned (Complete a).
Proof.
  destruct (classify_spec cielab (cielab honey_rgb)) as (a & Ha & _).
  exists a. rewrite <- Ha. apply analyze_of_mean.
  eexists 10%Z, 10%Z, 3%Z, _, center_face, [], [cielab honey_rgb].
  rewrite honey_center_sample.
  repeat split; try reflexivity; try discriminate.
  symmetry. apply mean3_singleton.
Qed.

Lemma weights_are_normalized_inverse_distances_witness :
  ∃ a : analysis,
    analyze_face_color cielab bgr2rgb (fixed_detector (Some [center_face]))
      honey_image = Returned (Complete a) ∧
    Rsum (raw_weights a) = 1%R ∧
    Rsum (map percentage (detailed_composition a)) = 100%R.
Proof.
  destruct honey_completes as [a Ha]. exists a. split; [exact Ha|].
  destruct (weights_are_normalized_inverse_distances _ _ _ _ _ Ha)
    as (u & _ & _ & _ & _ & _ & Hw & Hp).
  split; assumption.
Defined.

Lemma best_match_is_first_nearest_entry_witness :
  ∃ (a : analysis) (best : PaletteEntry),
    analyze_face_color cielab bgr2rgb (fixed_detector (Some [center_face]))
      honey_image = Returned (Complete a) ∧
    skin_palette !! raw_best_idx a = Some best ∧
    best_match a = entry_name best.
Proof.
  destruct honey_completes as [a Ha].
  destruct (best_match_is_first_nearest_entry _ _ _ _ _ Ha)
    as (u & best & cb & wb & _ & Hbest & Hname & _).
  exists a, best. split; [exact Ha|]. split; assumption.
Defined.

Lemma expected_conditions_return_tagged_results_witness :
  bgr_image honey_image 10 10 ∧
  analyze_face_color cielab bgr2rgb (fixed_detector (Some [outside_face]))
    honey_image
  = Returned (Error "Face detected, but no valid skin pixels found.").
Proof.
  split; [exact honey_image_bgr|].
  destruct (expected_conditions_return_tagged_results
              cielab bgr2rgb (fixed_detector (Some [outside_face]))
              honey_image _ 10 10 (Some [outside_face])
              honey_image_bgr eq_refl eq_refl) as (r & Hr & Hcase).
  rewrite honey_outside_sample in Hcase. destruct Hcase as [-> _].
  exact Hr.
Defined.

Lemma honey_image_matches_honey_witness :
  ∃ (a : analysis) (honey : composition),
    analyze_face_color cielab bgr2rgb (fixed_detector (Some [center_face]))
      honey_image = Returned (Complete a) ∧
    best_match a = "Honey" ∧
    raw_best_idx a = 7 ∧
    length (detailed_composition a) = 12 ∧
    detailed_composition a !! 7 = Some honey ∧
    name honey = "Honey" ∧
    (∀ (i : nat) (c : composition),
       detailed_composition a !! i = Some c → i ≠ 7 →
       (percentage c < percentage honey)%R).
Proof.
  exact (honey_image_matches_honey
           cielab bgr2rgb (fixed_detector (Some [center_face]))
           honey_image _ eq_refl (fun y x _ _ => eq_refl) eq_refl eq_refl
           cielab_separates_honey).
Defined.

Lemma group_base_sums_tagged_percentages_witness :
  ∃ (a : analysis) (warm cool neutral : R),
    analyze_face_color cielab bgr2rgb (fixed_detector (Some [center_face]))
      honey_image = Returned (Complete a) ∧
    warm_cool_neutral_base a !! "warm" = Some warm ∧
    warm_cool_neutral_base a !! "cool" = Some cool ∧
    warm_cool_neutral_base a !! "neutral" = Some neutral ∧
    (warm + cool + neutral = 100)%R.
Proof.
  destruct honey_completes as [a Ha].
  destruct (group_base_sums_tagged_percentages _ _ _ _ _ Ha)
    as (warm & cool & neutral & Hw & Hc & Hn & _ & _ & _ & _ & Hsum).
  exists a, warm, cool, neutral. repeat split; assumption.
Defined.

Lemma composition_follows_catalog_order_witness :
  ∃ a : analysis,
    analyze_face_color cielab bgr2rgb (fixed_detector (Some [center_face]))
      honey_image = Returned (Complete a) ∧
    length (detailed_composition a) = 12 ∧
    (fun c => (name c, group c)) <$> detailed_composition a !! 7
      = Some ("Honey", "warm").
Proof.
  destruct honey_completes as [a Ha]. exists a. split; [exact Ha|].
  destruct (composition_follows_catalog_order _ _ _ _ _ Ha)
    as (_ & _ & _ & Hlen & Htags).
  split; [exact Hlen|]. rewrite Htags. reflexivity.
Defined.



(** On the two-dimensional image the unpacking raises: no error dict is
    returned for this malformed input. *)
Lemma gray_image_is_not_reported :
  length (shape gray_image) ≠ 3 ∧
  analyze_face_color cielab bgr2rgb (fixed_detector None) gray_image
    = Raised ValueError ∧
  ¬ (∃ r : result,
       analyze_face_color cielab bgr2rgb (fixed_detector None) gray_image
         = Returned r).
Proof.
  split; [simpl; lia|]. split; [reflexivity|].
  intros [r Hr]. discriminate Hr.
Qed.

Lemma malformed_image_raises_witness :
  length (shape gray_image) ≠ 3 ∧
  ∃ e : exn,
    analyze_face_color cielab bgr2rgb (fixed_detector None) gray_image
      = Raised e ∧ e = ValueError.
Proof.
  assert (Hlen : length (shape gray_image) ≠ 3) by (simpl; lia).
  split; [exact Hlen|].
  destruct (malformed_image_raises cielab bgr2rgb (fixed_detector None)
              gray_image (or_introl Hlen)) as (e & He & Hv & _).
  exists e. split; [exact He|]. exact (Hv Hlen).
Defined.

(** ** Which landmarks are sampled *)

Lemma int_trunc_nonneg (q : Q) : (0 ≤ int_trunc q)%Z → (-1 < q)%Q.
Proof.
  destruct q as [a d]. unfold Qlt, int_trunc. simpl. intros Hq.
  destruct (Z_lt_le_dec a 0) as [Hneg|Hpos]; [|lia].
  destruct (Z_le_gt_dec a (- Z.pos d)) as [Hfar|Hnear]; [|lia].
  exfalso. assert (a `quot` Z.pos d ≤ -1)%Z; [|lia].
  rewrite <- (Z.opp_involutive a), Z.quot_opp_l by lia.
  assert (1 ≤ (- a) `quot` Z.pos d)%Z; [|lia].
  apply Z.quot_le_lower_bound; lia.
Qed.

Lemma int_trunc_below (q : Q) (n : Z) :
  (0 < n)%Z → (int_trunc q < n)%Z → (q < inject_Z n)%Q.
Proof.
  destruct q as [a d]. unfold Qlt, int_trunc. simpl. intros Hn Hq.
  destruct (Z_lt_le_dec a 0) as [Hneg|Hpos]; [nia|].
  rewrite Z.quot_div_nonneg in Hq by lia.
  destruct (Z_lt_le_dec (a * 1) (n * Z.pos d)) as [Hok|Hbad]; [exact Hok|].
  exfalso. assert (n ≤ a `div` Z.pos d)%Z; [|lia].
  apply Z.div_le_lower_bound; lia.
Qed.

Lemma scaled_dimension_pos (c : Q) (n : Z) :
  (-1 < c * inject_Z n)%Q → (c * inject_Z n < inject_Z n)%Q → (0 < n)%Z.
Proof.
  destruct c as [a d]. unfold Qlt. simpl. intros Hlo Hhi.
  rewrite Pos.mul_1_r in Hlo, Hhi.
  destruct (Z_lt_le_dec 0 n) as [Hn|Hn]; [exact Hn|exfalso].
  destruct (Z.eq_dec n 0%Z) as [-> | Hn0]; [lia|].
  assert (n * Z.pos d ≤ - Z.pos d)%Z by nia. lia.
Qed.

(** The bounds check on a converted coordinate, on the coordinate. *)
Lemma in_range_to_pixel (c : Q) (n : Z) :
  in_range (to_pixel c n) n = true
  ↔ (-1 < c * inject_Z n)%Q ∧ (c * inject_Z n < inject_Z n)%Q.
Proof.
  rewrite in_range_true. unfold to_pixel. split.
  - intros [Hlo Hhi]. split.
    + apply int_trunc_nonneg. exact Hlo.
    + apply int_trunc_below; [lia|exact Hhi].
  - intros [Hlo Hhi].
    apply int_trunc_bounds; [|exact Hlo|exact Hhi].
    exact (scaled_dimension_pos c n Hlo Hhi).
Qed.

(** X1. A landmark contributes a pixel exactly when its index is outside
    33..132 and each scaled coordinate is above -1 and below the
    dimension (a coordinate of exactly 1.0 is dropped); the pixel it
    contributes is read inside the image; and so is every pixel the
    whole loop collects, which are at most as many as the landmarks. *)
Theorem sampled_landmarks_characterised
    (img : ndarray) (h w : Z) (idx : nat) (lm : landmark) :
  ((∃ p : list Z, sample_landmark img h w idx lm = Some p)
   ↔ (idx < 33 ∨ 132 < idx) ∧
     (-1 < lm_x lm * inject_Z w)%Q ∧ (lm_x lm * inject_Z w < inject_Z w)%Q ∧
     (-1 < lm_y lm * inject_Z h)%Q ∧ (lm_y lm * inject_Z h < inject_Z h)%Q) ∧
  (∀ p : list Z,
     sample_landmark img h w idx lm = Some p →
     p = px img (to_pixel (lm_y lm) h) (to_pixel (lm_x lm) w) ∧
     (0 ≤ to_pixel (lm_x lm) w < w)%Z ∧ (0 ≤ to_pixel (lm_y lm) h < h)%Z) ∧
  (∀ lms : list landmark,
     length (sample_from img h w idx lms) ≤ length lms ∧
     Forall (fun p => ∃ y x : Z,
               (0 ≤ y < h)%Z ∧ (0 ≤ x < w)%Z ∧ p = px img y x)
            (sample_from img h w idx lms)).
Proof.
  assert (Hsome : ∀ (i : nat) (l : landmark) (p : list Z),
            sample_landmark img h w i l = Some p →
            (i ∉ exclude) ∧
            in_range (to_pixel (lm_x l) w) w = true ∧
            in_range (to_pixel (lm_y l) h) h = true ∧
            p = px img (to_pixel (lm_y l) h) (to_pixel (lm_x l) w)).
  { intros i l p. unfold sample_landmark.
    destruct (bool_decide (i ∈ exclude)) eqn:Hex; [discriminate|].
    apply bool_decide_eq_false in Hex.
    destruct (in_range (to_pixel (lm_x l) w) w) eqn:Hx;
      destruct (in_range (to_pixel (lm_y l) h) h) eqn:Hy;
      simpl; try discriminate.
    intros Hp. injection Hp as <-. auto. }
  split; [|split].
  - split.
    + intros [p Hp]. destruct (Hsome _ _ _ Hp) as (Hidx & Hx & Hy & _).
      rewrite elem_of_exclude in Hidx.
      apply in_range_to_pixel in Hx. apply in_range_to_pixel in Hy.
      split; [lia|tauto].
    + intros (Hidx & Hx1 & Hx2 & Hy1 & Hy2). eexists.
      apply sample_landmark_in_range.
      * rewrite elem_of_exclude. lia.
      * apply in_range_to_pixel. split; assumption.
      * apply in_range_to_pixel. split; assumption.
  - intros p Hp. destruct (Hsome _ _ _ Hp) as (_ & Hx & Hy & ->).
    apply in_range_true in Hx. apply in_range_true in Hy. auto.
  - intros lms. revert idx.
    induction lms as [|l rest IH]; intros idx; simpl.
    + split; [lia|apply Forall_nil_2].
    + destruct (IH (S idx)) as [Hlen Hall].
      destruct (sample_landmark img h w idx l) as [p|] eqn:Hp.
      * split; [simpl; lia|]. apply Forall_cons. split; [|exact Hall].
        destruct (Hsome _ _ _ Hp) as (_ & Hx & Hy & ->).
        apply in_range_true in Hx. apply in_range_true in Hy. eauto.
      * split; [lia|exact Hall].
Qed.

(** ** Excluded landmarks and further faces carry no weight *)

Lemma sample_from_agree (img : ndarray) (h w : Z)
    (lms lms' : list landmark) (idx : nat) :
  length lms = length lms' →
  (∀ i : nat, idx + i ∉ exclude → lms !! i = lms' !! i) →
  sample_from img h w idx lms = sample_from img h w idx lms'.
Proof.
  revert lms' idx. induction lms as [|lm rest IH]; intros lms' idx Hlen Hag.
  - destruct lms'; [reflexivity|discriminate].
  - destruct lms' as [|lm' rest']; [discriminate|]. simpl.
    assert (Hrest : sample_from img h w (S idx) rest
                    = sample_from img h w (S idx) rest').
    { apply IH; [simpl in Hlen; lia|].
      intros i Hi. apply (Hag (S i)).
      replace (idx + S i) with (S idx + i) by lia. exact Hi. }
    assert (Hhead : sample_landmark img h w idx lm
                    = sample_landmark img h w idx lm').
    { unfold sample_landmark.
      destruct (bool_decide (idx ∈ exclude)) eqn:Hex; [reflexivity|].
      apply bool_decide_eq_false in Hex.
      specialize (Hag 0). rewrite Nat.add_0_r in Hag.
      specialize (Hag Hex). simpl in Hag. injection Hag as <-.
      reflexivity. }
    rewrite Hhead, Hrest. reflexivity.
Qed.

(** X2. The positions of the landmarks of index 33 to 132 and the faces
    after the first never influence the outcome: two detections whose
    first faces have the same length and agree on every other index give
    the same outcome on the same image. *)
Theorem excluded_landmarks_do_not_matter (rgb2lab : color3 -> color3)
    (cvtColor : ndarray -> outcome ndarray)
    (process process' : ndarray -> outcome multi_face_landmarks)
    (img rgb_img : ndarray) (face face' : list landmark)
    (rest rest' : list (list landmark)) :
  cvtColor img = Returned rgb_img →
  process rgb_img = Returned (Some (face :: rest)) →
  process' rgb_img = Returned (Some (face' :: rest')) →
  agree_outside_exclusion face face' →
  analyze_face_color rgb2lab cvtColor process img
    = analyze_face_color rgb2lab cvtColor process' img.
Proof.
  intros Hc Hp Hp' [Hlen Hag].
  unfold analyze_face_color.
  destruct (unpack_shape (shape img)) as [[h w]|e]; [|reflexivity].
  simpl. rewrite Hc. simpl. rewrite Hp, Hp'. simpl.
  rewrite (sample_from_agree img h w face face' 0 Hlen Hag).
  reflexivity.
Qed.

(** ** The composition as a distribution over the catalog *)

Lemma Rsum_delete (l : list R) (i : nat) (x : R) :
  l !! i = Some x → Rsum l = (x + Rsum (delete i l))%R.
Proof.
  revert i. induction l as [|y l IH]; intros [|i] Hx; try discriminate.
  - simpl in Hx. injection Hx as ->. reflexivity.
  - simpl in Hx. change (delete (S i) (y :: l)) with (y :: delete i l).
    rewrite !Rsum_cons, (IH i Hx). lra.
Qed.

Lemma Rsum_lookup_lt (l : list R) (i : nat) (x : R) :
  Forall (fun y => (0 < y)%R) l → 2 ≤ length l → l !! i = Some x →
  (x < Rsum l)%R.
Proof.
  intros Hpos Hlen Hx. rewrite (Rsum_delete l i x Hx).
  assert (0 < Rsum (delete i l))%R; [|lra].
  apply Rsum_pos.
  - intros Hnil. apply (f_equal length) in Hnil.
    rewrite length_delete in Hnil by eauto. simpl in Hnil. lia.
  - apply Forall_delete. exact Hpos.
Qed.

Lemma Rsum_le_length_max (l : list R) (m : R) :
  Forall (fun y => (y <= m)%R) l → (Rsum l <= INR (length l) * m)%R.
Proof.
  induction 1 as [|y l Hy _ IH].
  - rewrite Rsum_nil. simpl. lra.
  - rewrite Rsum_cons. cbn [length]. rewrite S_INR. lra.
Qed.

Section ClassifierShares.

Variable rgb2lab : color3 -> color3.
Variable cvtColor : ndarray -> outcome ndarray.
Variable process : ndarray -> outcome multi_face_landmarks.

Local Abbreviation analyze'' := (analyze_face_color rgb2lab cvtColor process).
Local Abbreviation lab_of := (entry_lab rgb2lab).
Local Abbreviation weights'' := (weights_of rgb2lab).
Local Abbreviation total'' := (inverse_total rgb2lab).
Local Abbreviation deltas'' := (deltas_of rgb2lab).

Lemma weight_at (u : color3) (i : nat) (e : PaletteEntry) :
  skin_palette !! i = Some e →
  weights'' u !! i
    = Some (1 / (norm3 (lab_of e) u + eps) / total'' u)%R.
Proof.
  intros He. apply weights_of_lookup.
  rewrite palette_lab_lookup, He. reflexivity.
Qed.

Lemma entry_of_composition (u : color3) (i : nat) (c : composition) :
  map make_composition (zip skin_palette (weights'' u)) !! i = Some c →
  ∃ e : PaletteEntry,
    skin_palette !! i = Some e ∧
    c = make_composition
          (e, (1 / (norm3 (lab_of e) u + eps) / total'' u)%R).
Proof.
  intros Hc.
  destruct (lookup_lt_is_Some_2 skin_palette i) as [e He].
  { apply lookup_lt_Some in Hc. exact Hc. }
  exists e. split; [exact He|].
  rewrite (composition_at rgb2lab u i e He) in Hc.
  apply (inj Some) in Hc. symmetry. exact Hc.
Qed.

(** The entry at [argmin] has the largest weight. *)
Lemma best_weight_is_largest (u : color3) :
  ∃ (best : PaletteEntry) (wb : R),
    skin_palette !! argmin (deltas'' u) = Some best ∧
    weights'' u !! argmin (deltas'' u) = Some wb ∧
    wb = (1 / (norm3 (lab_of best) u + eps) / total'' u)%R ∧
    Forall (fun x => (x <= wb)%R) (weights'' u).
Proof.
  pose proof (argmin_first_minimum _ (deltas_of_nonempty rgb2lab u)) as Hmin.
  destruct (first_minimum_palette rgb2lab u _ Hmin) as (best & Hbest & Hle & _).
  eexists best, _. split; [exact Hbest|].
  split; [apply weight_at; exact Hbest|]. split; [reflexivity|].
  apply Forall_lookup. intros j x Hx.
  destruct (lookup_lt_is_Some_2 skin_palette j) as [e He].
  { apply lookup_lt_Some in Hx. exact Hx. }
  rewrite (weight_at u j e He) in Hx. apply (inj Some) in Hx. subst x.
  pose proof (proj2 (share_le_iff rgb2lab u (lab_of e) (lab_of best))
                (Hle j e He)) as Hshare.
  lra.
Qed.

(** X3. In a completed analysis, of any two catalog entries the one
    nearer to the mean sampled colour has the strictly larger
    percentage, and two entries have equal percentages exactly when they
    are equally far. *)
Theorem nearer_entries_weigh_more (img : ndarray) (a : analysis) :
  analyze'' img = Returned (Complete a) →
  ∃ u : color3,
    mean_sampled_color rgb2lab cvtColor process img u ∧
    ∀ (i j : nat) (ei ej : PaletteEntry) (ci cj : composition),
      skin_palette !! i = Some ei → skin_palette !! j = Some ej →
      detailed_composition a !! i = Some ci →
      detailed_composition a !! j = Some cj →
      ((percentage ci < percentage cj)%R
       ↔ (norm3 (lab_of ej) u < norm3 (lab_of ei) u)%R) ∧
      (percentage ci = percentage cj
       ↔ norm3 (lab_of ej) u = norm3 (lab_of ei) u).
Proof.
  intros Hrun.
  destruct (analyze_complete_classified _ _ _ img a Hrun)
    as (u & Hu & _ & _ & _ & Hd & _ & _).
  exists u. split; [exact Hu|].
  intros i j ei ej ci cj Hei Hej Hci Hcj. rewrite Hd in Hci, Hcj.
  rewrite (composition_at rgb2lab u i ei Hei) in Hci.
  rewrite (composition_at rgb2lab u j ej Hej) in Hcj.
  apply (inj Some) in Hci. apply (inj Some) in Hcj. subst ci cj.
  cbn [percentage make_composition snd].
  pose proof (share_le_iff rgb2lab u (lab_of ei) (lab_of ej)) as Hij.
  pose proof (share_le_iff rgb2lab u (lab_of ej) (lab_of ei)) as Hji.
  split.
  - apply share_lt_iff.
  - split; intros Heq.
    + apply Rle_antisym; [apply Hij|apply Hji]; rewrite Heq; lra.
    + apply Rle_antisym; [apply Hij|apply Hji]; rewrite Heq; lra.
Qed.

(** X4. In a completed analysis every percentage lies strictly between 0
    and 100, and the percentage of the best match is at least 100/12:
    the best match never takes the whole and never less than an equal
    share. *)
Theorem percentages_are_proper_shares (img : ndarray) (a : analysis) :
  analyze'' img = Returned (Complete a) →
  (∀ (i : nat) (c : composition),
     detailed_composition a !! i = Some c →
     (0 < percentage c)%R ∧ (percentage c < 100)%R) ∧
  (∃ cb : composition,
     detailed_composition a !! raw_best_idx a = Some cb ∧
     name cb = best_match a ∧
     (100 / 12 <= percentage cb)%R).
Proof.
  intros Hrun.
  destruct (analyze_complete_classified _ _ _ img a Hrun)
    as (u & _ & Hidx & Hname & _ & Hd & _ & _).
  pose proof (weights_of_pos rgb2lab u) as Hpos.
  pose proof (weights_of_sum rgb2lab u) as Hsum.
  split.
  - intros i c Hc. rewrite Hd in Hc.
    destruct (entry_of_composition u i c Hc) as (e & He & ->).
    pose proof (weight_at u i e He) as Hw.
    pose proof (proj1 (Forall_lookup _ _) Hpos i _ Hw) as Hlo.
    pose proof (Rsum_lookup_lt _ i _ Hpos ltac:(simpl; lia) Hw) as Hhi.
    rewrite Hsum in Hhi. cbn [percentage make_composition snd].
    simpl in Hlo. lra.
  - destruct (best_weight_is_largest u) as (best & wb & Hbest & Hwb & -> & Hmax).
    exists (make_composition
              (best, (1 / (norm3 (lab_of best) u + eps) / total'' u)%R)).
    split; [rewrite Hd, Hidx; apply composition_at; exact Hbest|].
    split.
    + rewrite Hbest in Hname. simpl in Hname. injection Hname as <-.
      reflexivity.
    + pose proof (Rsum_le_length_max _ _ Hmax) as Hbound.
      rewrite Hsum in Hbound.
      change (INR (length (weights'' u))) with (INR 12) in Hbound.
      cbn [percentage make_composition snd].
      replace (INR 12) with 12%R in Hbound by (simpl; lra). lra.
Qed.

(** ** Group sums as a distribution *)

Lemma group_total_nonneg (g : string) (items : list (PaletteEntry * R)) :
  Forall (fun it : PaletteEntry * R => (0 < it.2)%R) items →
  (0 <= group_total g items)%R.
Proof.
  induction 1 as [|item items Hpos _ IH].
  - unfold group_total. simpl. rewrite Rsum_nil. lra.
  - rewrite group_total_cons. case_decide; lra.
Qed.

Lemma group_total_pos (g : string) (items : list (PaletteEntry * R))
    (item : PaletteEntry * R) :
  Forall (fun it : PaletteEntry * R => (0 < it.2)%R) items →
  item ∈ items → entry_group item.1 = g →
  (0 < group_total g items)%R.
Proof.
  intros Hpos Hin Hg. induction Hpos as [|it items Hit Hpos IH].
  - apply elem_of_nil in Hin. contradiction.
  - rewrite group_total_cons.
    pose proof (group_total_nonneg g items Hpos) as Hge.
    apply elem_of_cons in Hin as [<- | Hin].
    + rewrite decide_True by exact Hg. lra.
    + specialize (IH Hin). case_decide; lra.
Qed.

Lemma zip_weights_pos (u : color3) :
  Forall (fun it : PaletteEntry * R => (0 < it.2)%R)
         (zip skin_palette (weights'' u)).
Proof.
  apply Forall_forall. intros [e x] Hin. simpl.
  apply elem_of_zip_r in Hin.
  exact (proj1 (Forall_forall _ _) (weights_of_pos rgb2lab u) x Hin).
Qed.

Lemma zip_has_entry (u : color3) (i : nat) (e : PaletteEntry) :
  skin_palette !! i = Some e →
  ∃ x : R, (e, x) ∈ zip skin_palette (weights'' u).
Proof.
  intros He. eexists. eapply list_elem_of_lookup_2.
  rewrite lookup_zip_with, He. simpl.
  rewrite (weight_at u i e He). reflexivity.
Qed.

(** X5. In a completed analysis the raw group sums of warm, cool and
    neutral are each strictly positive, they sum to 1, and the reported
    base values are 100 times them: each base value lies strictly
    between 0 and 100. *)
Theorem group_shares_are_proper (img : ndarray) (a : analysis) :
  analyze'' img = Returned (Complete a) →
  ∃ warm cool neutral : R,
    raw_group_sum a !! "warm" = Some warm ∧
    raw_group_sum a !! "cool" = Some cool ∧
    raw_group_sum a !! "neutral" = Some neutral ∧
    (0 < warm)%R ∧ (0 < cool)%R ∧ (0 < neutral)%R ∧
    (warm + cool + neutral = 1)%R ∧
    warm_cool_neutral_base a !! "warm" = Some (warm * 100)%R ∧
    warm_cool_neutral_base a !! "cool" = Some (cool * 100)%R ∧
    warm_cool_neutral_base a !! "neutral" = Some (neutral * 100)%R.
Proof.
  intros Hrun.
  destruct (analyze_complete_classified _ _ _ img a Hrun)
    as (u & _ & _ & _ & _ & _ & Hraw & Hbase).
  set (items := zip skin_palette (weights'' u)) in *.
  assert (Hlook : ∀ g : string,
             g = "warm" ∨ g = "cool" ∨ g = "neutral" →
             raw_group_sum a !! g = Some (group_total g items) ∧
             warm_cool_neutral_base a !! g
               = Some (group_total g items * 100)%R).
  { intros g Hg. assert (Hr : raw_group_sum a !! g
                              = Some (group_total g items)).
    { rewrite Hraw, group_sum_init_lookup, decide_True by exact Hg.
      simpl. f_equal. lra. }
    split; [exact Hr|]. rewrite Hbase, lookup_fmap, Hr. reflexivity. }
  destruct (Hlook "warm" ltac:(auto)) as [Hw Hbw].
  destruct (Hlook "cool" ltac:(auto)) as [Hc Hbc].
  destruct (Hlook "neutral" ltac:(auto)) as [Hn Hbn].
  exists (group_total "warm" items), (group_total "cool" items),
    (group_total "neutral" items).
  pose proof (zip_weights_pos u) as Hpos.
  destruct (zip_has_entry u 3 _ eq_refl) as [xw Hxw].
  destruct (zip_has_entry u 0 _ eq_refl) as [xc Hxc].
  destruct (zip_has_entry u 2 _ eq_refl) as [xn Hxn].
  pose proof (group_total_pos "warm" _ _ Hpos Hxw eq_refl).
  pose proof (group_total_pos "cool" _ _ Hpos Hxc eq_refl).
  pose proof (group_total_pos "neutral" _ _ Hpos Hxn eq_refl).
  pose proof (group_total_partition _ (zip_groups_tagged (weights'' u)))
    as Hpart.
  assert (Hsnd : map snd (zip skin_palette (weights'' u)) = weights'' u)
    by (apply snd_zip; reflexivity).
  rewrite Hsnd, (weights_of_sum rgb2lab u) in Hpart.
  repeat split; assumption.
Qed.

(** ** Images of one colour *)

Lemma Rsum_constant (A : Type) (f : A → R) (l : list A) (v : R) :
  Forall (fun x => f x = v) l → Rsum (map f l) = (INR (length l) * v)%R.
Proof.
  induction 1 as [|x l Hx _ IH].
  - simpl. rewrite Rsum_nil. lra.
  - rewrite map_cons, Rsum_cons, IH, Hx. cbn [length]. rewrite S_INR. lra.
Qed.

Lemma mean3_constant (rows : list color3) (p : color3) :
  rows ≠ [] → Forall (fun q => q = p) rows → mean3 rows = p.
Proof.
  intros Hne Hall. unfold mean3. cbv zeta. unfold color3 in *.
  assert (Hn : (0 < INR (length rows))%R).
  { apply lt_0_INR. destruct rows; [congruence|simpl; lia]. }
  rewrite (Rsum_constant _ (fun c : R * R * R => c.1.1) rows p.1.1),
          (Rsum_constant _ (fun c : R * R * R => c.1.2) rows p.1.2),
          (Rsum_constant _ (fun c : R * R * R => c.2) rows p.2).
  - destruct p as [[l a] b]. simpl. f_equal; [f_equal|]; field; lra.
  - eapply Forall_impl; [exact Hall|]. intros q ->. reflexivity.
  - eapply Forall_impl; [exact Hall|]. intros q ->. reflexivity.
  - eapply Forall_impl; [exact Hall|]. intros q ->. reflexivity.
Qed.

Lemma sample_from_uniform (img : ndarray) (h w : Z) (p : list Z)
    (lms : list landmark) (idx : nat) :
  (∀ y x : Z, (0 ≤ y < h)%Z → (0 ≤ x < w)%Z → px img y x = p) →
  Forall (fun q => q = p) (sample_from img h w idx lms).
Proof.
  intros Hpx. revert idx.
  induction lms as [|lm rest IH]; intros idx; simpl.
  - apply Forall_nil_2.
  - unfold sample_landmark at 1. destruct (bool_decide (idx ∈ exclude)).
    + apply IH.
    + destruct (in_range (to_pixel (lm_x lm) w) w) eqn:Hx;
        destruct (in_range (to_pixel (lm_y lm) h) h) eqn:Hy; simpl;
        try apply IH.
      apply Forall_cons. split; [|apply IH].
      apply Hpx; apply in_range_true; assumption.
Qed.

Lemma rgb2lab_rows_uniform (e : PaletteEntry) (pixels : list (list Z)) :
  Forall (fun q => q = bgr_pixel e) pixels →
  ∃ labs : list color3,
    rgb2lab_rows rgb2lab (bgr_to_rgb pixels) = Returned labs ∧
    length labs = length pixels ∧
    Forall (fun q => q = lab_of e) labs.
Proof.
  induction 1 as [|p pixels Hp _ (labs & Hlabs & Hlen & Hall)].
  - exists []. repeat split. apply Forall_nil_2.
  - subst p. exists (lab_of e :: labs).
    unfold bgr_to_rgb in *. simpl. rewrite Hlabs. simpl.
    split; [reflexivity|]. split; [rewrite Hlen; reflexivity|].
    apply Forall_cons. split; [reflexivity|exact Hall].
Qed.

(** X6. Every catalog colour is its own best match: on a three-channel
    image that holds the colour of catalog entry [k] in every pixel, with
    a first face of which at least one landmark is sampled (however many
    are), and a Lab transform that separates entry [k] from the other
    entries, the analysis completes with best index [k], the name of
    entry [k] as best match, and a percentage for entry [k] strictly
    above all the others. *)
Theorem catalog_colour_is_its_own_best_match
    (img rgb_img : ndarray) (h w : Z) (k : nat) (e : PaletteEntry)
    (face : list landmark) (rest : list (list landmark)) :
  skin_palette !! k = Some e →
  shape img = [h; w; 3%Z] →
  (∀ y x : Z, (0 ≤ y < h)%Z → (0 ≤ x < w)%Z → px img y x = bgr_pixel e) →
  cvtColor img = Returned rgb_img →
  process rgb_img = Returned (Some (face :: rest)) →
  sample_from img h w 0 face ≠ [] →
  (∀ (j : nat) (e' : PaletteEntry),
     skin_palette !! j = Some e' → j ≠ k → lab_of e' ≠ lab_of e) →
  ∃ (a : analysis) (ck : composition),
    analyze'' img = Returned (Complete a) ∧
    raw_best_idx a = k ∧
    best_match a = entry_name e ∧
    detailed_composition a !! k = Some ck ∧
    name ck = entry_name e ∧
    (∀ (i : nat) (c : composition),
       detailed_composition a !! i = Some c → i ≠ k →
       (percentage c < percentage ck)%R).
Proof.
  intros He Hs Hpx Hc Hp Hne Hsep.
  set (u := lab_of e).
  pose proof (sample_from_uniform img h w _ face 0 Hpx) as Huni.
  destruct (rgb2lab_rows_uniform e _ Huni) as (labs & Hlabs & Hlen & Hall).
  assert (Hmean : mean_sampled_color rgb2lab cvtColor process img u).
  { exists h, w, 3%Z, rgb_img, face, rest, labs.
    repeat split; try assumption.
    symmetry. apply mean3_constant; [|exact Hall].
    intros Hnil. rewrite Hnil in Hlen. symmetry in Hlen.
    apply length_zero_iff_nil in Hlen. contradiction. }
  rewrite (analyze_of_mean _ _ _ img u Hmean).
  destruct (classify_spec rgb2lab u) as (a & Ha & Hidx & Hbest & _ & Hd & _ & _).
  assert (Hfar : ∀ (i : nat) (e' : PaletteEntry),
             skin_palette !! i = Some e' → i ≠ k →
             (0 < norm3 (lab_of e') u)%R).
  { intros i e' He' Hi. apply norm3_pos. exact (Hsep i e' He' Hi). }
  assert (Hzero : norm3 (lab_of e) u = 0%R) by apply norm3_self.
  assert (Hk : argmin (deltas'' u) = k).
  { pose proof (argmin_first_minimum _ (deltas_of_nonempty rgb2lab u))
      as Hmin.
    destruct (first_minimum_palette rgb2lab u _ Hmin)
      as (best & Hb & Hle & _).
    destruct (decide (argmin (deltas'' u) = k)) as [Hk|Hk]; [exact Hk|].
    pose proof (Hfar _ best Hb Hk). pose proof (Hle k e He). lra. }
  rewrite Hk, He in Hbest. simpl in Hbest. injection Hbest as Hbest.
  exists a, (make_composition
     (e, (1 / (norm3 (lab_of e) u + eps) / total'' u)%R)).
  split; [exact Ha|]. split; [rewrite Hidx; exact Hk|].
  split; [symmetry; exact Hbest|].
  split; [rewrite Hd; apply composition_at; exact He|].
  split; [reflexivity|].
  intros i c Hic Hi. rewrite Hd in Hic.
  destruct (entry_of_composition u i c Hic) as (e' & He' & ->).
  cbn [percentage make_composition snd]. apply share_lt_iff.
  rewrite Hzero. exact (Hfar i e' He' Hi).
Qed.

End ClassifierShares.

(** ** The CIE L*a*b* instance separates every pair of catalog colours *)

Lemma srgb_linear_le (c c' : R) :
  (60 / 255 <= c)%R → (c <= c')%R → (srgb_linear c <= srgb_linear c')%R.
Proof.
  intros Hc [Hlt | ->]; [|lra].
  left. apply srgb_linear_lt; assumption.
Qed.

Lemma scale255_le (v v' : Z) : (v ≤ v')%Z → (scale255 v <= scale255 v')%R.
Proof. intros H. apply IZR_le in H. unfold scale255. lra. Qed.

(** Lightness grows when green and blue grow and red does not drop. *)
Lemma lightness_lt_green_blue (r g b r' g' b' : Z) :
  (60 ≤ r ≤ r')%Z → (60 ≤ g < g')%Z → (60 ≤ b < b')%Z →
  ((cielab (scale255 r, scale255 g, scale255 b)).1.1
   < (cielab (scale255 r', scale255 g', scale255 b')).1.1)%R.
Proof.
  intros [Hr Hr'] [Hg Hg'] [Hb Hb']. unfold cielab. cbn [fst snd].
  pose proof (srgb_linear_low _ (scale255_ge_60 r Hr)).
  pose proof (srgb_linear_low _ (scale255_ge_60 g Hg)).
  pose proof (srgb_linear_low _ (scale255_ge_60 b Hb)).
  pose proof (srgb_linear_le _ _ (scale255_ge_60 r Hr) (scale255_le _ _ Hr')).
  pose proof (srgb_linear_lt _ _ (scale255_ge_60 g Hg) (scale255_lt _ _ Hg')).
  pose proof (srgb_linear_lt _ _ (scale255_ge_60 b Hb) (scale255_lt _ _ Hb')).
  match goal with
  | |- (116 * lab_f ?y - 16 < 116 * lab_f ?y' - 16)%R =>
      pose proof (lab_f_lt y y' ltac:(lra) ltac:(lra))
  end.
  lra.
Qed.

(** Along the catalog the lightness strictly decreases. *)
Lemma catalog_lightness_decreases (j k : nat) (e e' : PaletteEntry) :
  skin_palette !! j = Some e → skin_palette !! k = Some e' → j < k →
  ((entry_lab cielab e').1.1 < (entry_lab cielab e).1.1)%R.
Proof.
  intros Hj Hk Hlt.
  do 12 (destruct j as [|j];
    [do 12 (destruct k as [|k];
       [try (exfalso; lia);
        injection Hj as <-; injection Hk as <-;
        unfold entry_lab, entry_rgb; cbn [fst snd];
        apply lightness_lt_green_blue; lia|]);
     discriminate Hk|]).
  discriminate Hj.
Qed.

Lemma cielab_separates_catalog (j k : nat) (e e' : PaletteEntry) :
  skin_palette !! j = Some e' → skin_palette !! k = Some e → j ≠ k →
  entry_lab cielab e' ≠ entry_lab cielab e.
Proof.
  intros Hj Hk Hne Heq. apply (f_equal (fun c : color3 => c.1.1)) in Heq.
  destruct (lt_eq_lt_dec j k) as [[Hlt|Heqjk]|Hgt]; [|contradiction|].
  - pose proof (catalog_lightness_decreases j k e' e Hj Hk Hlt). lra.
  - pose proof (catalog_lightness_decreases k j e e' Hk Hj Hgt). lra.
Qed.

(** ** The further properties on concrete inputs *)

Lemma face_with_eye_agree (lm lm' : landmark) :
  agree_outside_exclusion (face_with_eye_at lm) (face_with_eye_at lm').
Proof.
  split; [reflexivity|]. intros i Hi. rewrite elem_of_exclude in Hi.
  unfold face_with_eye_at.
  destruct (decide (i < 33)) as [Hlt|Hge].
  - rewrite !lookup_app_l by (rewrite length_replicate; exact Hlt).
    reflexivity.
  - rewrite !lookup_ge_None_2
      by (rewrite length_app, length_replicate; simpl; lia).
    reflexivity.
Qed.

Lemma excluded_landmarks_do_not_matter_witness :
  agree_outside_exclusion
    (face_with_eye_at {| lm_x := 1 # 10; lm_y := 1 # 10 |})
    (face_with_eye_at {| lm_x := 9 # 10; lm_y := 1 # 5 |}) ∧
  analyze_face_color cielab bgr2rgb
    (fixed_detector
       (Some [face_with_eye_at {| lm_x := 1 # 10; lm_y := 1 # 10 |}]))
    grid_image
  = analyze_face_color cielab bgr2rgb
      (fixed_detector
         (Some [face_with_eye_at {| lm_x := 9 # 10; lm_y := 1 # 5 |};
                three_point_face]))
      grid_image.
Proof.
  split; [apply face_with_eye_agree|].
  exact (excluded_landmarks_do_not_matter cielab bgr2rgb _ _ grid_image _
           _ _ [] [three_point_face] eq_refl eq_refl eq_refl
           (face_with_eye_agree _ _)).
Defined.

Lemma nearer_entries_weigh_more_witness :
  ∃ (a : analysis) (c6 c7 : composition),
    analyze_face_color cielab bgr2rgb (fixed_detector (Some [center_face]))
      honey_image = Returned (Complete a) ∧
    detailed_composition a !! 6 = Some c6 ∧
    detailed_composition a !! 7 = Some c7 ∧
    ((percentage c6 < percentage c7)%R
     ↔ (norm3 (entry_lab cielab ("Honey", (175, 130, 105)%Z, "warm"))
              (cielab honey_rgb)
        < norm3 (entry_lab cielab ("Tan", (190, 145, 115)%Z, "warm"))
                (cielab honey_rgb))%R).
Proof.
  destruct honey_completes as [a Ha].
  destruct (nearer_entries_weigh_more _ _ _ _ _ Ha) as (u & Hu & Hord).
  destruct (analyze_complete_classified _ _ _ _ _ Ha)
    as (u' & Hu' & _ & _ & _ & Hd & _ & _).
  assert (Hmean : mean_sampled_color cielab bgr2rgb
                    (fixed_detector (Some [center_face])) honey_image
                    (cielab honey_rgb)).
  { eexists 10%Z, 10%Z, 3%Z, _, center_face, [], [cielab honey_rgb].
    rewrite honey_center_sample.
    repeat split; try reflexivity; try discriminate.
    symmetry. apply mean3_singleton. }
  rewrite (mean_sampled_color_unique _ _ _ _ _ _ Hu Hmean) in Hord.
  destruct (lookup_lt_is_Some_2 (detailed_composition a) 6) as [c6 H6];
    [rewrite Hd; simpl; lia|].
  destruct (lookup_lt_is_Some_2 (detailed_composition a) 7) as [c7 H7];
    [rewrite Hd; simpl; lia|].
  exists a, c6, c7. split; [exact Ha|]. split; [exact H6|].
  split; [exact H7|].
  exact (proj1 (Hord 6 7 _ _ c6 c7 eq_refl eq_refl H6 H7)).
Defined.

Lemma percentages_are_proper_shares_witness :
  ∃ (a : analysis) (cb : composition),
    analyze_face_color cielab bgr2rgb (fixed_detector (Some [center_face]))
      honey_image = Returned (Complete a) ∧
    detailed_composition a !! raw_best_idx a = Some cb ∧
    (100 / 12 <= percentage cb)%R ∧ (percentage cb < 100)%R.
Proof.
  destruct honey_completes as [a Ha].
  destruct (percentages_are_proper_shares _ _ _ _ _ Ha)
    as (Hall & cb & Hcb & _ & Hlow).
  exists a, cb. split; [exact Ha|]. split; [exact Hcb|].
  split; [exact Hlow|]. exact (proj2 (Hall _ _ Hcb)).
Defined.

Lemma group_shares_are_proper_witness :
  ∃ (a : analysis) (warm cool neutral : R),
    analyze_face_color cielab bgr2rgb (fixed_detector (Some [center_face]))
      honey_image = Returned (Complete a) ∧
    raw_group_sum a !! "warm" = Some warm ∧
    raw_group_sum a !! "cool" = Some cool ∧
    raw_group_sum a !! "neutral" = Some neutral ∧
    (0 < warm)%R ∧ (0 < cool)%R ∧ (0 < neutral)%R ∧
    (warm + cool + neutral = 1)%R.
Proof.
  destruct honey_completes as [a Ha].
  destruct (group_shares_are_proper _ _ _ _ _ Ha)
    as (warm & cool & neutral & Hw & Hc & Hn & Hwp & Hcp & Hnp & Hsum & _).
  exists a, warm, cool, neutral. repeat split; assumption.
Defined.

Lemma deep_image_samples :
  sample_from deep_image 4 6 0 three_point_face
    = [[60; 70; 115]; [60; 70; 115]]%Z.
Proof. vm_compute. reflexivity. Qed.

Lemma catalog_colour_is_its_own_best_match_witness :
  ∃ (a : analysis) (ck : composition),
    analyze_face_color cielab bgr2rgb
      (fixed_detector (Some [three_point_face])) deep_image
      = Returned (Complete a) ∧
    raw_best_idx a = 11 ∧
    best_match a = "Deep" ∧
    detailed_composition a !! 11 = Some ck ∧
    name ck = "Deep" ∧
    (∀ (i : nat) (c : composition),
       detailed_composition a !! i = Some c → i ≠ 11 →
       (percentage c < percentage ck)%R).
Proof.
  refine (catalog_colour_is_its_own_best_match
            cielab bgr2rgb (fixed_detector (Some [three_point_face]))
            deep_image _ 4 6 11 ("Deep", (115, 70, 60)%Z, "cool")
            three_point_face [] eq_refl eq_refl (fun y x _ _ => eq_refl)
            eq_refl eq_refl _ _).
  - rewrite deep_image_samples. discriminate.
  - intros j e' He' Hj.
    exact (cielab_separates_catalog j 11 _ e' He' eq_refl Hj).
Defined.

(** ** The tone wheel *)

Lemma wheel_patches_some (data : list PaletteEntry) (best_idx : Z) :
  data ≠ [] →
  wheel_patches data best_idx
    = Some (imap (wheel_wedge (360 / INR (length data))) data,
            wheel_arrow (360 / INR (length data)) best_idx).
Proof.
  intros Hne. unfold wheel_patches. cbv zeta.
  rewrite decide_False; [reflexivity|].
  intros Hlen. apply length_zero_iff_nil in Hlen. contradiction.
Qed.

Lemma wheel_theta_pos (data : list PaletteEntry) :
  data ≠ [] → (0 < 360 / INR (length data))%R.
Proof.
  intros Hne. apply Rdiv_lt_0_compat; [lra|].
  apply lt_0_INR. destruct data; [congruence|simpl; lia].
Qed.

(** X7. [generate_plot_base64] fails with a division by zero exactly on
    an empty palette.  Otherwise it draws one wedge per entry, in the
    entry's colour, each of 360/n degrees; the first starts at 0, each
    wedge ends where the next starts, and the last ends at 360: the
    wedges tile the full circle. *)
Theorem wheel_wedges_tile_the_circle
    (data : list PaletteEntry) (best_idx : Z) :
  (wheel_patches data best_idx = None ↔ data = []) ∧
  (∀ (wedges : list Wedge) (arrow : FancyArrowPatch),
     wheel_patches data best_idx = Some (wedges, arrow) →
     length wedges = length data ∧
     (∀ (i : nat) (e : PaletteEntry),
        data !! i = Some e →
        ∃ wd : Wedge,
          wedges !! i = Some wd ∧
          facecolor wd = rgb_fraction (entry_rgb e) ∧
          (theta2 wd - theta1 wd = 360 / INR (length data))%R ∧
          (0 <= theta1 wd)%R ∧ (theta1 wd < theta2 wd)%R ∧
          (theta2 wd <= 360)%R) ∧
     (∀ wd : Wedge, wedges !! 0 = Some wd → theta1 wd = 0%R) ∧
     (∀ (i : nat) (wd wd' : Wedge),
        wedges !! i = Some wd → wedges !! S i = Some wd' →
        theta2 wd = theta1 wd') ∧
     (∀ wd : Wedge,
        wedges !! (length data - 1) = Some wd → theta2 wd = 360%R)).
Proof.
  split.
  - unfold wheel_patches. cbv zeta. case_decide as Hlen.
    + split; [intros _; apply length_zero_iff_nil; exact Hlen|reflexivity].
    + split; [discriminate|]. intros ->. contradiction.
  - intros wedges arrow Hw.
    assert (Hne : data ≠ []) by (intros ->; discriminate Hw).
    rewrite (wheel_patches_some data best_idx Hne) in Hw.
    injection Hw as <- <-.
    pose proof (wheel_theta_pos data Hne) as Hth.
    set (theta := (360 / INR (length data))%R) in *.
    assert (Hn : (0 < INR (length data))%R).
    { apply lt_0_INR. destruct data; [congruence|simpl; lia]. }
    assert (Hfull : (INR (length data) * theta = 360)%R)
      by (unfold theta; field; lra).
    split; [apply length_imap|]. split; [|split; [|split]].
    + intros i e He. exists (wheel_wedge theta i e).
      rewrite list_lookup_imap, He. split; [reflexivity|].
      split; [reflexivity|]. cbn [theta1 theta2 wheel_wedge].
      pose proof (pos_INR i) as Hi.
      assert (Hlt : (INR i + 1 <= INR (length data))%R).
      { rewrite <- S_INR. apply le_INR.
        apply lookup_lt_Some in He. lia. }
      split; [lra|]. split; [nra|]. split; [lra|]. nra.
    + intros wd H0. rewrite list_lookup_imap in H0.
      destruct (data !! 0) as [e|]; [|discriminate].
      injection H0 as <-. cbn [theta1 wheel_wedge]. simpl. lra.
    + intros i wd wd' Hi HS. rewrite list_lookup_imap in Hi, HS.
      destruct (data !! i) as [e|]; [|discriminate].
      destruct (data !! S i) as [e'|]; [|discriminate].
      injection Hi as <-. injection HS as <-.
      cbn [theta1 theta2 wheel_wedge]. rewrite S_INR. lra.
    + intros wd Hlast. rewrite list_lookup_imap in Hlast.
      destruct (data !! (length data - 1)) as [e|]; [|discriminate].
      injection Hlast as <-. cbn [theta1 theta2 wheel_wedge].
      rewrite minus_INR by (destruct data; [congruence|simpl; lia]).
      simpl. lra.
Qed.

(** The arrow of the wheel for an index within the palette: it lies on
    the bisector of the wedge of that index, from radius 1.3 to 1.05. *)
Lemma wheel_arrow_in_wedge (data : list PaletteEntry) (k : nat)
    (e : PaletteEntry) :
  data !! k = Some e →
  ∃ (wedges : list Wedge) (arrow : FancyArrowPatch) (wd : Wedge) (d : R),
    wheel_patches data (Z.of_nat k) = Some (wedges, arrow) ∧
    wedges !! k = Some wd ∧
    facecolor wd = rgb_fraction (entry_rgb e) ∧
    (theta1 wd < d)%R ∧ (d < theta2 wd)%R ∧
    d = ((theta1 wd + theta2 wd) / 2)%R ∧
    posA arrow = ((1.3 * cos (deg2rad d))%R, (1.3 * sin (deg2rad d))%R) ∧
    posB arrow = ((1.05 * cos (deg2rad d))%R, (1.05 * sin (deg2rad d))%R) ∧
    ((posB arrow).1 * (posB arrow).1 + (posB arrow).2 * (posB arrow).2
     = 1.1025)%R ∧
    ((posA arrow).1 * (posA arrow).1 + (posA arrow).2 * (posA arrow).2
     = 1.69)%R ∧
    wedge_r wd = 1%R.
Proof.
  intros He.
  assert (Hne : data ≠ []) by (intros ->; discriminate He).
  pose proof (wheel_theta_pos data Hne) as Hth.
  set (theta := (360 / INR (length data))%R) in *.
  exists (imap (wheel_wedge theta) data), (wheel_arrow theta (Z.of_nat k)),
    (wheel_wedge theta k e), (arrow_degrees theta (Z.of_nat k)).
  split; [apply wheel_patches_some; exact Hne|].
  split; [rewrite list_lookup_imap, He; reflexivity|].
  split; [reflexivity|].
  unfold arrow_degrees. rewrite <- INR_IZR_INZ.
  cbn [theta1 theta2 wheel_wedge posA posB wheel_arrow fst snd].
  split; [lra|]. split; [lra|]. split; [lra|].
  unfold arrow_degrees. rewrite <- INR_IZR_INZ.
  split; [reflexivity|]. split; [reflexivity|].
  set (t := deg2rad (INR k * theta + theta / 2)).
  pose proof (sin2_cos2 t) as Hsc. unfold Rsqr in Hsc.
  split; [nra|]. split; [nra|reflexivity].
Qed.

(** X8. For a completed analysis the wheel drawn from the catalog and
    the raw best index exists, and its arrow lies on the bisector of the
    wedge that carries the colour of the best match, pointing from
    radius 1.3 to radius 1.05, outside the unit wheel. *)
Theorem wheel_arrow_points_at_best_match (rgb2lab : color3 -> color3)
    (cvtColor : ndarray -> outcome ndarray)
    (process : ndarray -> outcome multi_face_landmarks)
    (img : ndarray) (a : analysis) :
  analyze_face_color rgb2lab cvtColor process img = Returned (Complete a) →
  ∃ (wedges : list Wedge) (arrow : FancyArrowPatch) (best : PaletteEntry)
    (wd : Wedge) (d : R),
    wheel_patches skin_palette (Z.of_nat (raw_best_idx a))
      = Some (wedges, arrow) ∧
    skin_palette !! raw_best_idx a = Some best ∧
    entry_name best = best_match a ∧
    wedges !! raw_best_idx a = Some wd ∧
    facecolor wd = rgb_fraction (entry_rgb best) ∧
    (theta1 wd < d)%R ∧ (d < theta2 wd)%R ∧
    d = ((theta1 wd + theta2 wd) / 2)%R ∧
    posA arrow = ((1.3 * cos (deg2rad d))%R, (1.3 * sin (deg2rad d))%R) ∧
    posB arrow = ((1.05 * cos (deg2rad d))%R, (1.05 * sin (deg2rad d))%R) ∧
    (wedge_r wd * wedge_r wd
     < (posB arrow).1 * (posB arrow).1 + (posB arrow).2 * (posB arrow).2)%R.
Proof.
  intros Hrun.
  destruct (analyze_complete_classified _ _ _ img a Hrun)
    as (u & _ & Hidx & Hname & _).
  rewrite <- Hidx in Hname.
  destruct (skin_palette !! raw_best_idx a) as [best|] eqn:Hbest;
    [|discriminate].
  simpl in Hname. injection Hname as Hname.
  destruct (wheel_arrow_in_wedge skin_palette _ best Hbest)
    as (wedges & arrow & wd & d & Hw & Hwd & Hcol & Hlo & Hhi & Hmid
        & HA & HB & HnB & _ & Hr).
  exists wedges, arrow, best, wd, d.
  split; [exact Hw|]. split; [reflexivity|].
  repeat (split; [assumption|]).
  rewrite Hr, HnB. lra.
Qed.

Lemma wheel_arrow_points_at_best_match_witness :
  ∃ (a : analysis) (wedges : list Wedge) (arrow : FancyArrowPatch)
    (wd : Wedge),
    analyze_face_color cielab bgr2rgb (fixed_detector (Some [center_face]))
      honey_image = Returned (Complete a) ∧
    wheel_patches skin_palette (Z.of_nat (raw_best_idx a))
      = Some (wedges, arrow) ∧
    wedges !! raw_best_idx a = Some wd ∧
    (theta1 wd < theta2 wd)%R.
Proof.
  destruct honey_completes as [a Ha].
  destruct (wheel_arrow_points_at_best_match _ _ _ _ _ Ha)
    as (wedges & arrow & best & wd & d & Hw & _ & _ & Hwd & _ & Hlo & Hhi & _).
  exists a, wedges, arrow, wd. repeat split; try assumption.
  lra.
Defined.

(** ** Tables *)

Lemma foldr_max_ge (l : list Z) (k : Z) :
  k ∈ l → (k ≤ foldr Z.max 0 l)%Z.
Proof.
  induction l as [|x l IH]; intros Hin.
  - apply elem_of_nil in Hin. contradiction.
  - apply elem_of_cons in Hin as [-> | Hin]; simpl; [lia|].
    specialize (IH Hin). lia.
Qed.

Lemma next_rowid_above {A : Type} (table : gmap Z A) (k : Z) (row : A) :
  table !! k = Some row → (k < next_rowid table)%Z.
Proof.
  intros Hk. unfold next_rowid.
  assert (k ≤ foldr Z.max 0 (map fst (map_to_list table)))%Z; [|lia].
  apply foldr_max_ge. apply list_elem_of_In, in_map_iff.
  exists (k, row). split; [reflexivity|].
  apply list_elem_of_In, elem_of_map_to_list. exact Hk.
Qed.

Lemma next_rowid_fresh {A : Type} (table : gmap Z A) :
  table !! next_rowid table = None.
Proof.
  destruct (table !! next_rowid table) as [row|] eqn:Hk; [|reflexivity].
  apply next_rowid_above in Hk. lia.
Qed.

Lemma next_rowid_pos {A : Type} (table : gmap Z A) :
  (1 ≤ next_rowid table)%Z.
Proof.
  unfold next_rowid.
  assert (0 ≤ foldr Z.max 0 (map fst (map_to_list table)))%Z; [|lia].
  induction (map fst (map_to_list table)) as [|x l IH]; simpl; lia.
Qed.

(** [first_where] finds a row that satisfies the condition whenever one
    exists, and only such rows. *)
Lemma first_where_spec {A : Type} (cond : A → bool) (table : gmap Z A) :
  match first_where cond table with
  | Some (k, row) => table !! k = Some row ∧ cond row = true
  | None => ∀ (k : Z) (row : A), table !! k = Some row → cond row = false
  end.
Proof.
  unfold first_where.
  apply (map_fold_weak_ind
    (fun (r : option (Z * A)) (m : gmap Z A) =>
       match r with
       | Some (k, row) => m !! k = Some row ∧ cond row = true
       | None => ∀ (k : Z) (row : A), m !! k = Some row → cond row = false
       end)).
  - intros k row Hk. rewrite lookup_empty in Hk. discriminate.
  - intros i x m r Hi IH. destruct (cond x) eqn:Hx.
    + destruct r as [[k' row']|].
      * destruct IH as [Hk' Hc']. destruct (i <? k')%Z.
        -- split; [apply lookup_insert_eq|exact Hx].
        -- split; [|exact Hc'].
           rewrite lookup_insert_ne; [exact Hk'|]. intros ->. congruence.
      * split; [apply lookup_insert_eq|exact Hx].
    + destruct r as [[k' row']|].
      * destruct IH as [Hk' Hc']. split; [|exact Hc'].
        rewrite lookup_insert_ne; [exact Hk'|]. intros ->. congruence.
      * intros k row Hk.
        destruct (decide (i = k)) as [->|Hne].
        -- rewrite lookup_insert_eq in Hk. injection Hk as <-. exact Hx.
        -- rewrite lookup_insert_ne in Hk by exact Hne. eauto.
Qed.

Lemma first_where_None {A : Type} (cond : A → bool) (table : gmap Z A) :
  first_where cond table = None
  ↔ ∀ (k : Z) (row : A), table !! k = Some row → cond row = false.
Proof.
  pose proof (first_where_spec cond table) as Hspec.
  destruct (first_where cond table) as [[k row]|].
  - split; [discriminate|]. intros Hall. destruct Hspec as [Hk Hc].
    rewrite (Hall k row Hk) in Hc. discriminate.
  - split; [intros _; exact Hspec|reflexivity].
Qed.

Lemma first_where_Some {A : Type} (cond : A → bool) (table : gmap Z A)
    (k : Z) (row : A) :
  first_where cond table = Some (k, row) →
  table !! k = Some row ∧ cond row = true.
Proof.
  intros Hf. pose proof (first_where_spec cond table) as Hspec.
  rewrite Hf in Hspec. exact Hspec.
Qed.

(** ** The analysis endpoint *)

Section AnalysisRouterFacts.

Variable rgb2lab : color3 -> color3.
Variable cvtColor : ndarray -> outcome ndarray.
Variable process : ndarray -> outcome multi_face_landmarks.
Variable imdecode : list Byte.byte -> outcome (option ndarray).
Variable generate_plot_base64 :
  list PaletteEntry -> list R -> gmap string R -> nat -> string.
Variable generate_rose_plot_base64 : list PaletteEntry -> list R -> string.
Variable json_dumps : Payload.t -> string.
Variable isoformat : Z -> string.

Local Abbreviation endpoint :=
  (analyze_skin_tone rgb2lab cvtColor process imdecode
     generate_plot_base64 generate_rose_plot_base64 json_dumps isoformat).
Local Abbreviation payload :=
  (payload_of generate_plot_base64 generate_rose_plot_base64).

(** An analysis completes on a three-channel image as soon as one
    landmark of the first face is sampled. *)
Lemma analyze_completes_on_samples (img rgb_img : ndarray) (h w : Z)
    (face : list landmark) (rest : list (list landmark)) :
  bgr_image img h w →
  cvtColor img = Returned rgb_img →
  process rgb_img = Returned (Some (face :: rest)) →
  sample_from img h w 0 face ≠ [] →
  ∃ (a : analysis) (u : color3),
    analyze_face_color rgb2lab cvtColor process img = Returned (Complete a) ∧
    classified rgb2lab u a.
Proof.
  intros Himg Hc Hp Hne. pose proof Himg as [Hs _].
  pose proof (sample_from_channels img h w face 0 Himg) as Hch.
  destruct (rgb2lab_rows_returns rgb2lab _ Hch) as (labs & Hlabs & _).
  destruct (classify_spec rgb2lab (mean3 labs)) as (a & Ha & Hcl).
  exists a, (mean3 labs). split; [|exact Hcl].
  rewrite <- Ha. apply analyze_of_mean.
  exists h, w, 3%Z, rgb_img, face, rest, labs. repeat split; assumption.
Qed.

Lemma analyze_error_messages (img rgb_img : ndarray) (h w : Z)
    (results : multi_face_landmarks) :
  shape img = [h; w; 3%Z] →
  cvtColor img = Returned rgb_img →
  process rgb_img = Returned results →
  match results with
  | Some (face :: _) => sample_from img h w 0 face = []
  | _ => True
  end →
  analyze_face_color rgb2lab cvtColor process img
    = Returned (Error
        match results with
        | Some (_ :: _) => "Face detected, but no valid skin pixels found."
        | _ => "No face detected in the image."
        end).
Proof.
  intros Hs Hc Hp Hcase.
  unfold analyze_face_color, after_detection. rewrite Hs. simpl.
  rewrite Hc. simpl. rewrite Hp. simpl.
  destruct results as [[|face rest]|]; try reflexivity.
  rewrite Hcase. reflexivity.
Qed.

(** X9. Whatever the request, the analysis endpoint leaves the users,
    the appointments, the symptom logs and every existing analysis
    record as they are.  It answers 404 whenever the id is not that of a
    user of role patient, whatever the file; and it changes the database
    exactly when it answers with a body, by one record stored under the
    returned id, which was not in use. *)
Theorem analysis_endpoint_only_adds_its_record
    (patient_id : Z) (file_bytes : list Byte.byte) (now : Z)
    (db : database) :
  let r := endpoint patient_id file_bytes now db in
  users r.2 = users db ∧
  appointments r.2 = appointments db ∧
  symptoms r.2 = symptoms db ∧
  (∀ (k : Z) (row : AnalysisRecord.t),
     analysis_records db !! k = Some row →
     analysis_records r.2 !! k = Some row) ∧
  ((∀ u : User.t, users db !! patient_id = Some u → User.role u ≠ PATIENT) →
   r = (HTTPException 404 "找不到此病患", db)) ∧
  match r.1 with
  | Response body =>
      analysis_records db !! AnalysisRecordPublic.id body = None ∧
      ∃ row : AnalysisRecord.t,
        analysis_records r.2
          = <[AnalysisRecordPublic.id body := row]> (analysis_records db) ∧
        AnalysisRecord.patient_id row = patient_id ∧
        AnalysisRecord.analysis_type row = "skin_tone" ∧
        AnalysisRecord.analysis_result row
          = json_dumps (AnalysisRecordPublic.analysis_result body) ∧
        AnalysisRecord.created_at row = now
  | _ => r.2 = db
  end.
Proof.
  unfold analyze_skin_tone.
  destruct (users db !! patient_id) as [patient|] eqn:Hu.
  2:{ simpl. repeat split; auto. }
  destruct (bool_decide (User.role patient ≠ PATIENT)) eqn:Hrole.
  { simpl. repeat split; auto. }
  apply bool_decide_eq_false in Hrole.
  assert (Hnot404 : ∀ x : http AnalysisRecordPublic.t * database,
            (∀ u : User.t, Some patient = Some u → User.role u ≠ PATIENT) →
            x = (HTTPException 404 "找不到此病患", db)).
  { intros x Hall. exfalso. apply Hrole. intros Hp.
    exact (Hall patient eq_refl Hp). }
  destruct (imdecode file_bytes) as [[img|]|e]; simpl;
    try (repeat split; auto; fail).
  destruct (analyze_face_color rgb2lab cvtColor process img)
    as [[message|a]|e]; simpl; try (repeat split; auto; fail).
  split; [reflexivity|]. split; [reflexivity|]. split; [reflexivity|].
  split.
  - intros k row Hk. rewrite lookup_insert_ne; [exact Hk|].
    intros <-. rewrite next_rowid_fresh in Hk. discriminate.
  - split; [apply Hnot404|]. split; [apply next_rowid_fresh|].
    eexists. split; [reflexivity|]. repeat split.
Qed.

(** X10. A photo of a patient on which a face is found and a landmark
    is sampled is answered with a body and stored: the endpoint returns
    the new record id, the patient id, the type skin_tone and the
    analysis without its raw entries, of status analysis_complete, with
    the 12 catalog entries in order, percentages summing to 100 and the
    best match of the classifier; the stored row holds the serialization
    of this same analysis. *)
Theorem analysis_endpoint_stores_the_analysis
    (patient_id : Z) (file_bytes : list Byte.byte) (now : Z) (db : database)
    (patient : User.t) (img rgb_img : ndarray) (h w : Z)
    (face : list landmark) (rest : list (list landmark)) :
  users db !! patient_id = Some patient →
  User.role patient = PATIENT →
  imdecode file_bytes = Returned (Some img) →
  bgr_image img h w →
  cvtColor img = Returned rgb_img →
  process rgb_img = Returned (Some (face :: rest)) →
  sample_from img h w 0 face ≠ [] →
  ∃ (a : analysis) (db' : database),
    analyze_face_color rgb2lab cvtColor process img = Returned (Complete a) ∧
    endpoint patient_id file_bytes now db
      = (Response
           {| AnalysisRecordPublic.id := next_rowid (analysis_records db);
              AnalysisRecordPublic.patient_id := patient_id;
              AnalysisRecordPublic.analysis_type := "skin_tone";
              AnalysisRecordPublic.analysis_result := payload a;
              AnalysisRecordPublic.created_at := isoformat now |},
         db') ∧
    analysis_records db' !! next_rowid (analysis_records db)
      = Some {| AnalysisRecord.patient_id := patient_id;
                AnalysisRecord.analysis_type := "skin_tone";
                AnalysisRecord.analysis_result := json_dumps (payload a);
                AnalysisRecord.created_at := now |} ∧
    Payload.status (payload a) = "analysis_complete" ∧
    Payload.best_match (payload a) = best_match a ∧
    map (fun c => (name c, group c)) (Payload.detailed_composition (payload a))
      = map (fun e => (entry_name e, entry_group e)) skin_palette ∧
    Rsum (map percentage (Payload.detailed_composition (payload a)))
      = 100%R.
Proof.
  intros Hu Hrole Hdec Himg Hc Hp Hne.
  destruct (analyze_completes_on_samples img rgb_img h w face rest
              Himg Hc Hp Hne) as (a & u & Ha & Hcl).
  exists a. eexists. split; [exact Ha|].
  unfold analyze_skin_tone. rewrite Hu.
  rewrite bool_decide_eq_false_2 by (intros Hn; exact (Hn Hrole)).
  rewrite Hdec, Ha. simpl.
  split; [reflexivity|]. split; [apply lookup_insert_eq|].
  split; [reflexivity|]. split; [reflexivity|].
  destruct Hcl as (_ & _ & _ & Hd & _ & _). rewrite Hd.
  split.
  - apply tags_of_zip. reflexivity.
  - rewrite percentages_of_zip by reflexivity.
    rewrite Rsum_scale, (weights_of_sum rgb2lab u). lra.
Qed.

(** X11. A photo of a patient that decodes to a three-channel image on
    which the detector reports no face, or a face of which no landmark
    is sampled, is answered with HTTP 400 whose detail is the message of
    the classifier, and nothing is stored. *)
Theorem analysis_endpoint_rejects_faceless_photos
    (patient_id : Z) (file_bytes : list Byte.byte) (now : Z) (db : database)
    (patient : User.t) (img rgb_img : ndarray) (h w : Z)
    (results : multi_face_landmarks) :
  users db !! patient_id = Some patient →
  User.role patient = PATIENT →
  imdecode file_bytes = Returned (Some img) →
  shape img = [h; w; 3%Z] →
  cvtColor img = Returned rgb_img →
  process rgb_img = Returned results →
  match results with
  | Some (face :: _) => sample_from img h w 0 face = []
  | _ => True
  end →
  endpoint patient_id file_bytes now db
    = (HTTPException 400
         match results with
         | Some (_ :: _) => "Face detected, but no valid skin pixels found."
         | _ => "No face detected in the image."
         end,
       db).
Proof.
  intros Hu Hrole Hdec Hs Hc Hp Hcase.
  unfold analyze_skin_tone. rewrite Hu.
  rewrite bool_decide_eq_false_2 by (intros Hn; exact (Hn Hrole)).
  rewrite Hdec.
  rewrite (analyze_error_messages img rgb_img h w results Hs Hc Hp Hcase).
  reflexivity.
Qed.

End AnalysisRouterFacts.

(** ** The analysis endpoint on concrete requests *)

Lemma analysis_endpoint_stores_the_analysis_witness :
  ∃ (a : analysis) (db' : database),
    analyze_skin_tone cielab bgr2rgb (fixed_detector (Some [center_face]))
      (decode_as honey_image) blank_plot blank_rose_plot dumps_best_match
      epoch_text 2 [] 2000 clinic_database
    = (Response
         {| AnalysisRecordPublic.id := 1;
            AnalysisRecordPublic.patient_id := 2;
            AnalysisRecordPublic.analysis_type := "skin_tone";
            AnalysisRecordPublic.analysis_result :=
              payload_of blank_plot blank_rose_plot a;
            AnalysisRecordPublic.created_at := "1970-01-01T00:00:00" |},
       db') ∧
    Rsum (map percentage
            (Payload.detailed_composition
               (payload_of blank_plot blank_rose_plot a))) = 100%R.
Proof.
  destruct (analysis_endpoint_stores_the_analysis
              cielab bgr2rgb (fixed_detector (Some [center_face]))
              (decode_as honey_image) blank_plot blank_rose_plot
              dumps_best_match epoch_text 2 [] 2000 clinic_database
              patient_zhang honey_image _ 10 10 center_face []
              eq_refl eq_refl eq_refl honey_image_bgr eq_refl eq_refl)
    as (a & db' & _ & Hrun & _ & _ & _ & _ & Hsum).
  { rewrite honey_center_sample. discriminate. }
  exists a, db'. split; [exact Hrun|exact Hsum].
Defined.

Lemma analysis_endpoint_rejects_faceless_photos_witness :
  analyze_skin_tone cielab bgr2rgb (fixed_detector (Some [outside_face]))
    (decode_as honey_image) blank_plot blank_rose_plot dumps_best_match
    epoch_text 2 [] 2000 clinic_database
  = (HTTPException 400 "Face detected, but no valid skin pixels found.",
     clinic_database).
Proof.
  exact (analysis_endpoint_rejects_faceless_photos
           cielab bgr2rgb (fixed_detector (Some [outside_face]))
           (decode_as honey_image) blank_plot blank_rose_plot
           dumps_best_match epoch_text 2 [] 2000 clinic_database
           patient_zhang honey_image _ 10 10 (Some [outside_face])
           eq_refl eq_refl eq_refl eq_refl eq_refl eq_refl
           honey_outside_sample).
Defined.

(** ** The user endpoints *)

Lemma register_cases (user_data : UserCreate.t) (now : Z) (db : database) :
  (∃ (status_code : Z) (detail : string),
     register user_data now db = (HTTPException status_code detail, db)) ∨
  ((∀ (k : Z) (u : User.t),
      users db !! k = Some u →
      User.username u ≠ UserCreate.username user_data) ∧
   (UserCreate.role user_data = DOCTOR →
    truthy (UserCreate.department user_data) = true) ∧
   register user_data now db
     = (Response
          (user_public (next_rowid (users db))
             {| User.username := UserCreate.username user_data;
                User.password_hash := UserCreate.password user_data;
                User.full_name := UserCreate.full_name user_data;
                User.role := UserCreate.role user_data;
                User.department := UserCreate.department user_data;
                User.created_at := now |}),
        {| users :=
             <[next_rowid (users db) :=
                 {| User.username := UserCreate.username user_data;
                    User.password_hash := UserCreate.password user_data;
                    User.full_name := UserCreate.full_name user_data;
                    User.role := UserCreate.role user_data;
                    User.department := UserCreate.department user_data;
                    User.created_at := now |}]> (users db);
           appointments := appointments db;
           symptoms := symptoms db;
           analysis_records := analysis_records db |})).
Proof.
  unfold register.
  destruct (first_where _ (users db)) as [[k u]|] eqn:Hfirst.
  { left. eauto. }
  destruct (bool_decide (UserCreate.role user_data = DOCTOR)
            && negb (truthy (UserCreate.department user_data))) eqn:Hdoc.
  { left. eauto. }
  right. split; [|split; [|reflexivity]].
  - intros k u Hk Hname.
    pose proof (proj1 (first_where_None _ _) Hfirst k u Hk) as Hc.
    apply bool_decide_eq_false in Hc. contradiction.
  - intros Hrole. apply andb_false_iff in Hdoc as [Hd|Hd].
    + apply bool_decide_eq_false in Hd. contradiction.
    + apply negb_false_iff in Hd. exact Hd.
Qed.

(** X12. Registration keeps the user names unique and every doctor with
    a department: if both hold of the database they hold after any
    registration request.  A request changes nothing but the users
    table, keeps every existing user, and changes nothing at all when it
    is refused. *)
Theorem register_keeps_the_user_invariants
    (user_data : UserCreate.t) (now : Z) (db : database) :
  unique_usernames db → doctors_have_department db →
  let r := register user_data now db in
  unique_usernames r.2 ∧
  doctors_have_department r.2 ∧
  (∀ (k : Z) (u : User.t),
     users db !! k = Some u → users r.2 !! k = Some u) ∧
  appointments r.2 = appointments db ∧
  symptoms r.2 = symptoms db ∧
  analysis_records r.2 = analysis_records db ∧
  match r.1 with
  | Response body =>
      users db !! UserPublic.id body = None ∧
      UserPublic.username body = UserCreate.username user_data
  | _ => r.2 = db
  end.
Proof.
  intros Huniq Hdoc.
  destruct (register_cases user_data now db)
    as [(code & detail & ->)|(Hfree & Hdept & ->)]; cbn [fst snd].
  { repeat split; auto. }
  unfold unique_usernames, doctors_have_department in *.
  cbn [users appointments symptoms analysis_records].
  pose proof (next_rowid_fresh (users db)) as Hfresh.
  split; [|split; [|split]].
  - intros k k' u u' Hk Hk' Hname.
    destruct (decide (k = next_rowid (users db))) as [->|Hne];
      destruct (decide (k' = next_rowid (users db))) as [->|Hne'];
      try reflexivity.
    + rewrite lookup_insert_eq in Hk. injection Hk as <-.
      rewrite lookup_insert_ne in Hk' by congruence.
      exfalso. apply (Hfree k' u' Hk'). symmetry. exact Hname.
    + rewrite lookup_insert_eq in Hk'. injection Hk' as <-.
      rewrite lookup_insert_ne in Hk by congruence.
      exfalso. apply (Hfree k u Hk). exact Hname.
    + rewrite lookup_insert_ne in Hk by congruence.
      rewrite lookup_insert_ne in Hk' by congruence.
      exact (Huniq k k' u u' Hk Hk' Hname).
  - intros k u Hk Hrole.
    destruct (decide (k = next_rowid (users db))) as [->|Hne].
    + rewrite lookup_insert_eq in Hk. injection Hk as <-.
      exact (Hdept Hrole).
    + rewrite lookup_insert_ne in Hk by congruence.
      exact (Hdoc k u Hk Hrole).
  - intros k u Hk. rewrite lookup_insert_ne; [exact Hk|].
    intros <-. rewrite Hfresh in Hk. discriminate.
  - repeat split. exact Hfresh.
Qed.

(** X13. Registration and login round trip: after a request is
    registered, logging in with the same user name and password on the
    new database returns the body the registration returned; the stored
    password hash is the password as submitted; and any other password
    for that user name is answered with 401. *)
Theorem register_then_login (user_data : UserCreate.t) (now : Z)
    (db db' : database) (body : UserPublic.t) :
  register user_data now db = (Response body, db') →
  login {| UserLogin.username := UserCreate.username user_data;
           UserLogin.password := UserCreate.password user_data |} db'
    = Response body ∧
  (∃ u : User.t,
     users db' !! UserPublic.id body = Some u ∧
     User.password_hash u = UserCreate.password user_data) ∧
  (∀ password : string,
     password ≠ UserCreate.password user_data →
     login {| UserLogin.username := UserCreate.username user_data;
              UserLogin.password := password |} db'
       = HTTPException 401 "帳號或密碼錯誤").
Proof.
  intros Hreg.
  destruct (register_cases user_data now db)
    as [(code & detail & Hr)|(Hfree & _ & Hr)];
    rewrite Hr in Hreg; [discriminate|].
  injection Hreg as <- <-.
  set (new_user := {| User.username := UserCreate.username user_data;
                      User.password_hash := UserCreate.password user_data;
                      User.full_name := UserCreate.full_name user_data;
                      User.role := UserCreate.role user_data;
                      User.department := UserCreate.department user_data;
                      User.created_at := now |}) in *.
  set (id := next_rowid (users db)) in *.
  assert (Hfound :
            first_where
              (fun u => bool_decide
                          (User.username u = UserCreate.username user_data))
              (<[id := new_user]> (users db)) = Some (id, new_user)).
  { destruct (first_where _ (<[id := new_user]> (users db)))
      as [[k u]|] eqn:Hfirst.
    - apply first_where_Some in Hfirst as [Hk Hc].
      apply bool_decide_eq_true in Hc.
      destruct (decide (k = id)) as [->|Hne].
      + rewrite lookup_insert_eq in Hk. injection Hk as <-. reflexivity.
      + rewrite lookup_insert_ne in Hk by congruence.
        exfalso. exact (Hfree k u Hk Hc).
    - exfalso.
      pose proof (proj1 (first_where_None _ _) Hfirst id new_user
                    (lookup_insert_eq _ _ _)) as Hc.
      apply bool_decide_eq_false in Hc. apply Hc. reflexivity. }
  split; [|split].
  - unfold login. cbn [UserLogin.username UserLogin.password users].
    rewrite Hfound. rewrite bool_decide_eq_false_2; [reflexivity|].
    intros Hn. apply Hn. reflexivity.
  - exists new_user. split; [apply lookup_insert_eq|reflexivity].
  - intros password Hpw. unfold login.
    cbn [UserLogin.username UserLogin.password users].
    rewrite Hfound. rewrite bool_decide_eq_true_2; [reflexivity|].
    cbn [User.password_hash new_user]. congruence.
Qed.

Lemma elem_of_get_departments (db : database) (s : string) :
  s ∈ get_departments db
  ↔ s ≠ "" ∧
    ∃ (k : Z) (u : User.t),
      users db !! k = Some u ∧ User.role u = DOCTOR ∧
      User.department u = Some s.
Proof.
  unfold get_departments. rewrite elem_of_list_to_set, list_elem_of_omap.
  split.
  - intros ([k u] & Hin & Hf). apply elem_of_map_to_list in Hin.
    cbn [snd] in Hf.
    destruct (bool_decide (User.role u = DOCTOR)) eqn:Hrole;
      [|discriminate].
    apply bool_decide_eq_true in Hrole.
    destruct (truthy (User.department u)) eqn:Ht; [|discriminate].
    simpl in Hf. rewrite Hf in Ht. simpl in Ht.
    apply bool_decide_eq_true in Ht. split; [exact Ht|]. eauto.
  - intros (Hs & k & u & Hk & Hrole & Hdep). exists (k, u).
    split; [apply elem_of_map_to_list; exact Hk|]. cbn [snd].
    rewrite bool_decide_eq_true_2 by exact Hrole.
    rewrite Hdep. simpl. rewrite bool_decide_eq_true_2 by exact Hs.
    reflexivity.
Qed.

(** X14. The department list follows the registrations: registering a
    doctor adds the doctor's department, which is not empty, to the set
    that [get_departments] returns and removes nothing from it;
    registering a user of another role leaves the set as it is, even
    when the request carries a department. *)
Theorem registered_doctors_extend_the_departments
    (user_data : UserCreate.t) (now : Z) (db db' : database)
    (body : UserPublic.t) :
  register user_data now db = (Response body, db') →
  (UserCreate.role user_data = DOCTOR →
   ∃ s : string,
     UserCreate.department user_data = Some s ∧ s ≠ "" ∧
     get_departments db' = {[ s ]} ∪ get_departments db) ∧
  (UserCreate.role user_data ≠ DOCTOR →
   get_departments db' = get_departments db).
Proof.
  intros Hreg.
  destruct (register_cases user_data now db)
    as [(code & detail & Hr)|(_ & Hdept & Hr)];
    rewrite Hr in Hreg; [discriminate|].
  injection Hreg as <- <-.
  pose proof (next_rowid_fresh (users db)) as Hfresh.
  set (id := next_rowid (users db)) in *.
  set (new_user := {| User.username := UserCreate.username user_data;
                      User.password_hash := UserCreate.password user_data;
                      User.full_name := UserCreate.full_name user_data;
                      User.role := UserCreate.role user_data;
                      User.department := UserCreate.department user_data;
                      User.created_at := now |}) in *.
  assert (Hold : ∀ (k : Z) (u : User.t),
            users db !! k = Some u →
            <[id := new_user]> (users db) !! k = Some u).
  { intros k u Hk. rewrite lookup_insert_ne; [exact Hk|].
    intros <-. rewrite Hfresh in Hk. discriminate. }
  split.
  - intros Hrole. specialize (Hdept Hrole).
    destruct (UserCreate.department user_data) as [s|] eqn:Hs;
      [|discriminate].
    simpl in Hdept. apply bool_decide_eq_true in Hdept.
    exists s. split; [reflexivity|]. split; [exact Hdept|].
    apply set_eq. intros x.
    rewrite elem_of_union, elem_of_singleton, !elem_of_get_departments.
    cbn [users]. split.
    + intros (Hx & k & u & Hk & Hr' & Hd).
      destruct (decide (k = id)) as [->|Hne].
      * rewrite lookup_insert_eq in Hk. injection Hk as <-.
        cbn [User.department new_user] in Hd. left. congruence.
      * rewrite lookup_insert_ne in Hk by congruence. right. eauto 10.
    + intros [->|(Hx & k & u & Hk & Hr' & Hd)].
      * split; [exact Hdept|]. exists id, new_user.
        rewrite lookup_insert_eq. cbn [User.role User.department new_user].
        auto.
      * split; [exact Hx|]. exists k, u. auto.
  - intros Hrole. apply set_eq. intros x.
    rewrite !elem_of_get_departments. cbn [users]. split.
    + intros (Hx & k & u & Hk & Hr' & Hd).
      destruct (decide (k = id)) as [->|Hne].
      * rewrite lookup_insert_eq in Hk. injection Hk as <-.
        cbn [User.role new_user] in Hr'. contradiction.
      * rewrite lookup_insert_ne in Hk by congruence. eauto 10.
    + intros (Hx & k & u & Hk & Hr' & Hd). split; [exact Hx|].
      exists k, u. auto.
Qed.

(** ** Business hours *)

Lemma before_colon_idempotent (s : string) :
  before_colon (before_colon s) = before_colon s.
Proof.
  induction s as [|c s IH]; [reflexivity|]. simpl.
  destruct (Ascii.eqb c colon) eqn:Hc; [reflexivity|].
  simpl. rewrite Hc, IH. reflexivity.
Qed.

Lemma before_colon_app (s m : string) :
  before_colon (before_colon s +:+ String colon m) = before_colon s.
Proof.
  induction s as [|c s IH]; [reflexivity|]. simpl.
  destruct (Ascii.eqb c colon) eqn:Hc; [reflexivity|].
  simpl. rewrite Hc, IH. reflexivity.
Qed.

Section AppointmentRouterFacts.

Variable py_int : string -> option Z.

Local Abbreviation validate := (validate_business_hours py_int).
Local Abbreviation create := (create_appointment py_int).
Local Abbreviation update := (update_appointment py_int).

(** X15. The check of the business hours reads the text before the first
    colon only: a time is accepted exactly when that text is an integer
    from 9 to 18, whatever follows the colon, so that the minutes are
    never checked; every refusal is the HTTP 400 of one fixed detail. *)
Theorem business_hours_read_the_hour_only (time_str : string) :
  (∀ minutes : string,
     validate (before_colon time_str +:+ String colon minutes)
       = validate time_str) ∧
  validate (before_colon time_str) = validate time_str ∧
  (validate time_str = Response tt
   ↔ ∃ hour : Z,
       py_int (before_colon time_str) = Some hour ∧ (9 ≤ hour ≤ 18)%Z) ∧
  (validate time_str ≠ Response tt →
   validate time_str
     = HTTPException 400 "預約失敗：營業時間僅限 09:00 至 18:00").
Proof.
  unfold validate_business_hours. split; [|split; [|split]].
  - intros minutes. rewrite before_colon_app. reflexivity.
  - rewrite before_colon_idempotent. reflexivity.
  - destruct (py_int (before_colon time_str)) as [hour|]; split.
    + destruct ((9 <=? hour)%Z && (hour <=? 18)%Z) eqn:Hh; [|discriminate].
      intros _. exists hour. split; [reflexivity|]. lia.
    + intros (hour' & Hh & Hr). injection Hh as <-.
      replace ((9 <=? hour)%Z && (hour <=? 18)%Z) with true by lia.
      reflexivity.
    + discriminate.
    + intros (hour & Hh & _). discriminate.
  - destruct (py_int (before_colon time_str)) as [hour|]; [|reflexivity].
    destruct ((9 <=? hour)%Z && (hour <=? 18)%Z); [|reflexivity].
    intros Hn. contradiction.
Qed.

Lemma validate_cases (time_str : string) :
  validate time_str = Response tt ∨
  validate time_str
    = HTTPException 400 "預約失敗：營業時間僅限 09:00 至 18:00".
Proof.
  unfold validate_business_hours.
  destruct (py_int (before_colon time_str)) as [hour|]; [|right; reflexivity].
  destruct ((9 <=? hour)%Z && (hour <=? 18)%Z); [left|right]; reflexivity.
Qed.

Lemma occupies_true (doctor_id : Z) (date time : string)
    (a : Appointment.t) :
  occupies doctor_id date time a = true
  ↔ Appointment.doctor_id a = doctor_id ∧ Appointment.date a = date ∧
    Appointment.time a = time ∧ Appointment.status a ≠ CANCELLED.
Proof.
  unfold occupies. rewrite !andb_true_iff, !bool_decide_eq_true. tauto.
Qed.

(** X16. Booking keeps every slot single: if no two appointments that
    are not cancelled share doctor, date and time, this still holds
    after any [create_appointment] request.  A request is answered with
    a body exactly when its time passes the business hours and no
    appointment that is not cancelled holds the same doctor, date and
    time string; the new appointment is pending and stored under a new
    id, every other row is kept, and a refusal changes nothing. *)
Theorem booking_keeps_every_slot_single
    (appointment_data : AppointmentCreate.t) (now : Z) (db : database) :
  no_double_booking db →
  let r := create appointment_data now db in
  no_double_booking r.2 ∧
  users r.2 = users db ∧ symptoms r.2 = symptoms db ∧
  analysis_records r.2 = analysis_records db ∧
  (∀ (k : Z) (a : Appointment.t),
     appointments db !! k = Some a → appointments r.2 !! k = Some a) ∧
  ((∃ body : AppointmentPublic.t, r.1 = Response body)
   ↔ validate (AppointmentCreate.time appointment_data) = Response tt ∧
     ∀ (k : Z) (a : Appointment.t),
       appointments db !! k = Some a →
       Appointment.doctor_id a = AppointmentCreate.doctor_id appointment_data →
       Appointment.date a = AppointmentCreate.date appointment_data →
       Appointment.time a = AppointmentCreate.time appointment_data →
       Appointment.status a = CANCELLED) ∧
  match r.1 with
  | Response body =>
      appointments db !! AppointmentPublic.id body = None ∧
      (∃ a : Appointment.t,
         appointments r.2 !! AppointmentPublic.id body = Some a ∧
         body = appointment_public (AppointmentPublic.id body) a) ∧
      AppointmentPublic.status body = PENDING ∧
      AppointmentPublic.time body = AppointmentCreate.time appointment_data
  | HTTPException status_code _ => status_code = 400%Z ∧ r.2 = db
  | Unhandled _ => False
  end.
Proof.
  intros Hinv. unfold create_appointment.
  destruct (validate_cases (AppointmentCreate.time appointment_data))
    as [Hv|Hv]; rewrite Hv.
  2:{ cbn [fst snd]. split; [exact Hinv|].
      do 3 (split; [reflexivity|]). split; [auto|].
      split; [|split; reflexivity].
      split; [intros [body Hb]; discriminate|intros [Hb _]; discriminate]. }
  destruct (first_where _ (appointments db)) as [[k0 a0]|] eqn:Hfirst.
  { cbn [fst snd]. apply first_where_Some in Hfirst as [Hk0 Hocc].
    apply occupies_true in Hocc as (Hd & Hdate & Ht & Hst).
    split; [exact Hinv|]. do 3 (split; [reflexivity|]). split; [auto|].
    split; [|split; reflexivity].
    split; [intros [body Hb]; discriminate|].
    intros [_ Hall]. exfalso. exact (Hst (Hall k0 a0 Hk0 Hd Hdate Ht)). }
  pose proof (proj1 (first_where_None _ _) Hfirst) as Hfree.
  pose proof (next_rowid_fresh (appointments db)) as Hfresh.
  cbn [fst snd add_appointment users appointments symptoms analysis_records].
  set (id := next_rowid (appointments db)) in *.
  set (new := {| Appointment.patient_id :=
                   AppointmentCreate.patient_id appointment_data;
                 Appointment.doctor_id :=
                   AppointmentCreate.doctor_id appointment_data;
                 Appointment.date := AppointmentCreate.date appointment_data;
                 Appointment.time := AppointmentCreate.time appointment_data;
                 Appointment.department :=
                   AppointmentCreate.department appointment_data;
                 Appointment.status := PENDING;
                 Appointment.created_at := now |}) in *.
  assert (Hclash : ∀ (k : Z) (a : Appointment.t),
            appointments db !! k = Some a →
            Appointment.status a ≠ CANCELLED →
            Appointment.doctor_id a = Appointment.doctor_id new →
            Appointment.date a = Appointment.date new →
            Appointment.time a = Appointment.time new → False).
  { intros k a Hk Hst Hd Hdate Ht.
    pose proof (Hfree k a Hk) as Hocc.
    assert (occupies (AppointmentCreate.doctor_id appointment_data)
              (AppointmentCreate.date appointment_data)
              (AppointmentCreate.time appointment_data) a = true)
      by (apply occupies_true; auto).
    congruence. }
  split; [|split; [reflexivity|split; [reflexivity|split; [reflexivity|]]]].
  - unfold no_double_booking. cbn [appointments].
    intros k k' a a' Hk Hk' Hst Hst' Hd Hdate Ht.
    destruct (decide (k = id)) as [->|Hne];
      destruct (decide (k' = id)) as [->|Hne']; try reflexivity.
    + rewrite lookup_insert_eq in Hk. injection Hk as <-.
      rewrite lookup_insert_ne in Hk' by congruence.
      exfalso. apply (Hclash k' a' Hk' Hst'); congruence.
    + rewrite lookup_insert_eq in Hk'. injection Hk' as <-.
      rewrite lookup_insert_ne in Hk by congruence.
      exfalso. apply (Hclash k a Hk Hst); congruence.
    + rewrite lookup_insert_ne in Hk by congruence.
      rewrite lookup_insert_ne in Hk' by congruence.
      exact (Hinv k k' a a' Hk Hk' Hst Hst' Hd Hdate Ht).
  - split; [|split].
    + intros k a Hk. rewrite lookup_insert_ne; [exact Hk|].
      intros <-. rewrite Hfresh in Hk. discriminate.
    + split; [|intros _; eauto].
      intros _. split; [reflexivity|].
      intros k a Hk Hd Hdate Ht.
      destruct (decide (Appointment.status a = CANCELLED)) as [Hc|Hc];
        [exact Hc|].
      exfalso. exact (Hclash k a Hk Hc Hd Hdate Ht).
    + cbn [AppointmentPublic.id appointment_public].
      split; [exact Hfresh|]. split; [|split; reflexivity].
      exists new. split; [apply lookup_insert_eq|reflexivity].
Qed.

(** X17. A [PATCH] can book a slot twice: [update_appointment] checks the
    business hours of a new time and nothing else, so moving an
    appointment onto the time of another appointment of the same doctor
    and date, neither being cancelled, is answered with a body and
    leaves two appointments in one slot. *)
Theorem patch_can_book_a_slot_twice (db : database) (k k' : Z)
    (a a' : Appointment.t) :
  k ≠ k' →
  appointments db !! k = Some a → appointments db !! k' = Some a' →
  Appointment.status a ≠ CANCELLED → Appointment.status a' ≠ CANCELLED →
  Appointment.doctor_id a = Appointment.doctor_id a' →
  Appointment.date a = Appointment.date a' →
  validate (Appointment.time a) = Response tt →
  let r := update k'
             {| AppointmentUpdate.date := Unset;
                AppointmentUpdate.time := Value (Appointment.time a);
                AppointmentUpdate.department := Unset;
                AppointmentUpdate.status := Unset |} db in
  (∃ body : AppointmentPublic.t,
     r.1 = Response body ∧
     AppointmentPublic.id body = k' ∧
     AppointmentPublic.time body = Appointment.time a) ∧
  ¬ no_double_booking r.2.
Proof.
  intros Hne Hk Hk' Hst Hst' Hd Hdate Hv. unfold update_appointment.
  rewrite Hk'. cbn [AppointmentUpdate.time AppointmentUpdate.date
                    AppointmentUpdate.department AppointmentUpdate.status].
  rewrite Hv. cbn [set_field fst snd].
  split; [eexists; split; [reflexivity|split; reflexivity]|].
  intros Hinv. apply Hne.
  eapply (Hinv k k' a); cbn [appointments].
  - rewrite lookup_insert_ne by congruence. exact Hk.
  - apply lookup_insert_eq.
  - exact Hst.
  - exact Hst'.
  - exact Hd.
  - exact Hdate.
  - reflexivity.
Qed.

End AppointmentRouterFacts.

(** ** Symptom submission *)

Lemma concat_head_nonempty (sep : string) (c : Ascii.ascii)
    (p : string) (ps : list string) :
  String.concat sep (String c p :: ps) ≠ "".
Proof. destruct ps; simpl; discriminate. Qed.

(** The stored text is empty exactly for an empty submission. *)
Lemma full_symptom_text_empty (symptom_data : SymptomSubmitRequest.t) :
  full_symptom_text symptom_data = ""
  ↔ SymptomSubmitRequest.description symptom_data = "" ∧
    SymptomSubmitRequest.symptoms symptom_data = [] ∧
    SymptomSubmitRequest.duration symptom_data = "" ∧
    SymptomSubmitRequest.severity symptom_data = "" ∧
    truthy (SymptomSubmitRequest.additionalNotes symptom_data) = false.
Proof.
  unfold full_symptom_text. cbv zeta.
  destruct (bool_decide (SymptomSubmitRequest.description symptom_data ≠ ""))
    eqn:H1;
  destruct (bool_decide (SymptomSubmitRequest.symptoms symptom_data ≠ []))
    eqn:H2;
  destruct (bool_decide (SymptomSubmitRequest.duration symptom_data ≠ ""))
    eqn:H3;
  destruct (bool_decide (SymptomSubmitRequest.severity symptom_data ≠ ""))
    eqn:H4;
  destruct (truthy (SymptomSubmitRequest.additionalNotes symptom_data))
    eqn:H5;
  unfold add_part; cbn [app];
  try (split;
       [intros Hempty; exfalso;
        exact (concat_head_nonempty _ _ _ _ Hempty)
       |intros (E1 & E2 & E3 & E4 & E5);
        try (apply bool_decide_eq_true in H1; contradiction);
        try (apply bool_decide_eq_true in H2; contradiction);
        try (apply bool_decide_eq_true in H3; contradiction);
        try (apply bool_decide_eq_true in H4; contradiction);
        discriminate]).
  split; [intros _|reflexivity].
  apply bool_decide_eq_false in H1, H2, H3, H4.
  repeat split; try reflexivity;
    [destruct (decide (SymptomSubmitRequest.description symptom_data = ""))
    |destruct (decide (SymptomSubmitRequest.symptoms symptom_data = []))
    |destruct (decide (SymptomSubmitRequest.duration symptom_data = ""))
    |destruct (decide (SymptomSubmitRequest.severity symptom_data = ""))];
    tauto.
Qed.

(** X18. Submitting symptoms for an unknown appointment is answered
    with 404 and stores nothing; for a known appointment it stores
    exactly one log, of sender role patient, under a new id that the
    body returns, and changes no other row.  The stored text is empty
    exactly when the description, the symptom list, the duration, the
    severity and the notes are all empty: an empty submission is stored
    as an empty log. *)
Theorem symptom_submission_stores_one_log
    (symptom_data : SymptomSubmitRequest.t) (now : Z) (db : database) :
  let r := submit_symptoms symptom_data now db in
  users r.2 = users db ∧ appointments r.2 = appointments db ∧
  analysis_records r.2 = analysis_records db ∧
  (appointments db !! SymptomSubmitRequest.appointment_id symptom_data = None →
   r = (HTTPException 404 "找不到此預約", db)) ∧
  (is_Some
     (appointments db !! SymptomSubmitRequest.appointment_id symptom_data) →
   ∃ log_id : Z,
     r.1 = Response
             {| SymptomSubmitResponse.ok := true;
                SymptomSubmitResponse.message := "症狀資訊已成功提交";
                SymptomSubmitResponse.symptom_log_id := log_id |} ∧
     symptoms db !! log_id = None ∧
     symptoms r.2
       = <[log_id :=
             {| SymptomLog.appointment_id :=
                  SymptomSubmitRequest.appointment_id symptom_data;
                SymptomLog.sender_role := "patient";
                SymptomLog.content := full_symptom_text symptom_data;
                SymptomLog.created_at := now |}]> (symptoms db)) ∧
  (full_symptom_text symptom_data = ""
   ↔ SymptomSubmitRequest.description symptom_data = "" ∧
     SymptomSubmitRequest.symptoms symptom_data = [] ∧
     SymptomSubmitRequest.duration symptom_data = "" ∧
     SymptomSubmitRequest.severity symptom_data = "" ∧
     truthy (SymptomSubmitRequest.additionalNotes symptom_data) = false).
Proof.
  cbv zeta. unfold submit_symptoms.
  destruct (appointments db !! SymptomSubmitRequest.appointment_id symptom_data)
    as [a|] eqn:Ha; cbn [fst snd].
  - do 3 (split; [reflexivity|]). split; [discriminate|]. split.
    + intros _. eexists. split; [reflexivity|].
      split; [apply next_rowid_fresh|reflexivity].
    + apply full_symptom_text_empty.
  - do 3 (split; [reflexivity|]). split; [reflexivity|].
    split; [intros [x Hx]; discriminate|].
    apply full_symptom_text_empty.
Qed.

(** ** The endpoints on the concrete database *)

Lemma lookup_two_rows {A : Type} (k1 k2 k : Z) (v1 v2 v : A) :
  ({[ k1 := v1; k2 := v2 ]} : gmap Z A) !! k = Some v →
  (k = k1 ∧ v = v1) ∨ (k = k2 ∧ v = v2).
Proof.
  intros Hk. apply lookup_insert_Some in Hk as [[<- <-]|[Hne Hk]];
    [left; auto|].
  apply lookup_singleton_Some in Hk as [<- <-]. right. auto.
Qed.

Lemma clinic_usernames_unique : unique_usernames clinic_database.
Proof.
  intros k k' u u' Hk Hk' Hname.
  apply lookup_two_rows in Hk as [[-> ->]|[-> ->]];
    apply lookup_two_rows in Hk' as [[-> ->]|[-> ->]];
    try reflexivity; discriminate Hname.
Qed.

Lemma clinic_doctors_have_department :
  doctors_have_department clinic_database.
Proof.
  intros k u Hk Hrole.
  apply lookup_two_rows in Hk as [[-> ->]|[-> ->]];
    [reflexivity|discriminate Hrole].
Qed.

Lemma clinic_slots_single : no_double_booking clinic_database.
Proof.
  intros k k' a a' Hk Hk' _ _ _ _ Htime.
  apply lookup_two_rows in Hk as [[-> ->]|[-> ->]];
    apply lookup_two_rows in Hk' as [[-> ->]|[-> ->]];
    try reflexivity; discriminate Htime.
Qed.

Lemma register_keeps_the_user_invariants_witness :
  unique_usernames clinic_database ∧
  doctors_have_department clinic_database ∧
  unique_usernames (register new_doctor_request 2000 clinic_database).2 ∧
  doctors_have_department
    (register new_doctor_request 2000 clinic_database).2.
Proof.
  split; [exact clinic_usernames_unique|].
  split; [exact clinic_doctors_have_department|].
  destruct (register_keeps_the_user_invariants
              new_doctor_request 2000 clinic_database
              clinic_usernames_unique clinic_doctors_have_department)
    as (Hu & Hd & _).
  split; assumption.
Defined.

Lemma register_new_patient :
  (register new_patient_request 2000 clinic_database).1
    = Response {| UserPublic.id := 3;
                  UserPublic.username := "patient_b_2";
                  UserPublic.full_name := "林佳";
                  UserPublic.role := PATIENT;
                  UserPublic.department := None |}.
Proof. vm_compute. reflexivity. Qed.

Lemma register_then_login_witness :
  ∃ (body : UserPublic.t) (db' : database),
    register new_patient_request 2000 clinic_database = (Response body, db') ∧
    UserPublic.id body = 3%Z ∧
    login {| UserLogin.username := "patient_b_2";
             UserLogin.password := "123456" |} db' = Response body ∧
    login {| UserLogin.username := "patient_b_2";
             UserLogin.password := "654321" |} db'
      = HTTPException 401 "帳號或密碼錯誤".
Proof.
  pose proof register_new_patient as Hfst.
  destruct (register new_patient_request 2000 clinic_database)
    as [res db'] eqn:Hreg.
  cbn [fst] in Hfst. subst res.
  eexists _, db'. split; [reflexivity|]. split; [reflexivity|].
  destruct (register_then_login new_patient_request 2000 clinic_database
              db' _ Hreg) as (Hlogin & _ & Hwrong).
  split; [exact Hlogin|]. apply Hwrong. discriminate.
Defined.

Lemma register_new_doctor :
  (register new_doctor_request 2000 clinic_database).1
    = Response {| UserPublic.id := 3;
                  UserPublic.username := "dr_lee_2";
                  UserPublic.full_name := "李小美醫師";
                  UserPublic.role := DOCTOR;
                  UserPublic.department := Some "外科" |}.
Proof. vm_compute. reflexivity. Qed.

Lemma registered_doctors_extend_the_departments_witness :
  ∃ (body : UserPublic.t) (db' : database),
    register new_doctor_request 2000 clinic_database = (Response body, db') ∧
    get_departments db' = {[ "外科" ]} ∪ get_departments clinic_database.
Proof.
  pose proof register_new_doctor as Hfst.
  destruct (register new_doctor_request 2000 clinic_database)
    as [res db'] eqn:Hreg.
  cbn [fst] in Hfst. subst res.
  eexists _, db'. split; [reflexivity|].
  destruct (registered_doctors_extend_the_departments
              new_doctor_request 2000 clinic_database db' _ Hreg)
    as [Hdoc _].
  destruct (Hdoc eq_refl) as (s & Hs & _ & Hset).
  injection Hs as <-. exact Hset.
Defined.

Example business_hours_examples :
  validate_business_hours two_digit_int "18:59" = Response tt ∧
  validate_business_hours two_digit_int "9" = Response tt ∧
  validate_business_hours two_digit_int "09:61" = Response tt ∧
  validate_business_hours two_digit_int "08:30"
    = HTTPException 400 "預約失敗：營業時間僅限 09:00 至 18:00" ∧
  validate_business_hours two_digit_int "19:00"
    = HTTPException 400 "預約失敗：營業時間僅限 09:00 至 18:00" ∧
  validate_business_hours two_digit_int "noon"
    = HTTPException 400 "預約失敗：營業時間僅限 09:00 至 18:00".
Proof. repeat split; reflexivity. Qed.

(** The request for "9:00" is booked beside the appointment of "09:00":
    the slots are compared as strings. *)
Lemma booking_keeps_every_slot_single_witness :
  no_double_booking clinic_database ∧
  no_double_booking
    (create_appointment two_digit_int unpadded_request 2000
       clinic_database).2 ∧
  ∃ body : AppointmentPublic.t,
    (create_appointment two_digit_int unpadded_request 2000
       clinic_database).1 = Response body.
Proof.
  split; [exact clinic_slots_single|].
  destruct (booking_keeps_every_slot_single two_digit_int unpadded_request
              2000 clinic_database clinic_slots_single)
    as (Hinv & _ & _ & _ & _ & Hiff & _).
  split; [exact Hinv|]. apply Hiff. split; [reflexivity|].
  intros k a Hk _ _ Htime.
  apply lookup_two_rows in Hk as [[-> ->]|[-> ->]]; discriminate Htime.
Defined.

Lemma patch_can_book_a_slot_twice_witness :
  no_double_booking clinic_database ∧
  ¬ no_double_booking
      (update_appointment two_digit_int 2
         {| AppointmentUpdate.date := Unset;
            AppointmentUpdate.time := Value "09:00";
            AppointmentUpdate.department := Unset;
            AppointmentUpdate.status := Unset |} clinic_database).2.
Proof.
  split; [exact clinic_slots_single|].
  exact (proj2 (patch_can_book_a_slot_twice two_digit_int clinic_database
                  1 2 morning_appointment later_appointment
                  ltac:(lia) eq_refl eq_refl ltac:(discriminate)
                  ltac:(discriminate) eq_refl eq_refl eq_refl)).
Defined.
